(** * Device Verification Kit: framing, checksums, semantics, detection, SHM ring

    A shallow embedding of the byte-stream pipeline of the Device Verification
    Kit (Python) and the properties its specification states about it.

    Conventions of the embedding.
    - A Python [int] is a [Z]; bit operations are [Z.land], [Z.lor],
      [Z.lxor], [Z.shiftl], [Z.shiftr] (two's complement on unbounded
      integers, as in Python).
    - [bytes] and [bytearray] are [list byte]; a byte read as an [int]
      is [b2z].
    - A Python exception is the [Raise] branch of the result type [res];
      an unbounded [while True] loop takes a fuel argument and answers
      [None] when the fuel is used up.
    - A Python [float] is a primitive binary64 float.
    - Schema dictionaries are records whose optional keys are [option]
      fields; a key holding a value that [int()] would reject behaves as
      an absent key (both raise). *)

From Stdlib Require Import ZArith Lia Floats Sorted Ascii String.
From Stdlib.Strings Require Import Byte.
From stdpp Require Import base list strings gmap.

Local Open Scope Z_scope.

(** ** Results and exceptions *)

Inductive exn : Set :=
| ValueError | IndexError | KeyError | OverflowError | StructError
| ZeroDivisionError | AssertionError | TypeError.

Inductive res (A : Type) : Type :=
| Ok (a : A)
| Raise (e : exn).
Arguments Ok {A} a.
Arguments Raise {A} e.

#[global] Instance res_ret : MRet res := fun A a => Ok a.
#[global] Instance res_bind : MBind res := fun A B f m =>
  match m with Ok a => f a | Raise e => Raise e end.

(** [d[k]] on a dictionary key that may be absent. *)
Definition require {A : Type} (o : option A) : res A :=
  match o with Some a => Ok a | None => Raise KeyError end.

Fixpoint foldM {A B : Type} (f : A -> B -> res A) (a : A) (l : list B) : res A :=
  match l with
  | [] => Ok a
  | b :: l' => a' ← f a b; foldM f a' l'
  end.

(** ** Python sequences *)

Module Py.

Definition b2z (b : byte) : Z := Z.of_N (Byte.to_N b).

(** The byte holding [z mod 256]. *)
Definition z2b (z : Z) : byte :=
  match Byte.of_N (Z.to_N (z mod 256)) with
  | Some b => b
  | None => x00
  end.

Definition len {A : Type} (l : list A) : Z := Z.of_nat (length l).

(** A slice bound, clamped as [slice.indices] does for a step of 1. *)
Definition clamp (i n : Z) : Z :=
  if i <? 0 then Z.max 0 (i + n) else Z.min i n.

(** [l[a:b]] *)
Definition slice {A : Type} (l : list A) (a b : Z) : list A :=
  let a' := clamp a (len l) in
  let b' := clamp b (len l) in
  take (Z.to_nat (b' - a')) (drop (Z.to_nat a') l).

(** [del l[:k]] *)
Definition del_prefix {A : Type} (l : list A) (k : Z) : list A :=
  drop (Z.to_nat (clamp k (len l))) l.

(** [l[i]], with negative indices counted from the end. *)
Definition getitem (l : list byte) (i : Z) : res Z :=
  let j := if i <? 0 then i + len l else i in
  if (0 <=? j) && (j <? len l)
  then match l !! Z.to_nat j with
       | Some b => Ok (b2z b)
       | None => Raise IndexError
       end
  else Raise IndexError.

(** [range(start, stop, step)] for a positive step. *)
Definition range (start stop step : Z) : list Z :=
  map (fun k => start + step * Z.of_nat k)
      (seq 0 (Z.to_nat ((stop - start + step - 1) / step))).

(** [int.from_bytes(raw, "little", signed=False)] *)
Fixpoint from_bytes_le (raw : list byte) : Z :=
  match raw with
  | [] => 0
  | b :: raw' => b2z b + 256 * from_bytes_le raw'
  end.

(** [int.from_bytes(raw, "big", signed=False)] *)
Definition from_bytes_be (raw : list byte) : Z := from_bytes_le (rev raw).

(** Whether [buf] begins with [sub]. *)
Fixpoint starts_with (sub buf : list byte) : bool :=
  match sub, buf with
  | [], _ => true
  | _ :: _, [] => false
  | s :: sub', b :: buf' => Byte.eqb s b && starts_with sub' buf'
  end.

Fixpoint find_from (sub buf : list byte) (i : Z) : Z :=
  if starts_with sub buf then i
  else match buf with
       | [] => -1
       | _ :: buf' => find_from sub buf' (i + 1)
       end.

(** [buf.find(sub)]: the lowest index at which [sub] occurs, or -1. *)
Definition find (buf sub : list byte) : Z := find_from sub buf 0.

(** [sum(l)] over bytes *)
Definition sum (l : list byte) : Z := fold_left (fun a b => a + b2z b) l 0.

(** [s.startswith(p)] and [s.endswith(p)] *)
Definition startswith (s p : string) : bool := String.prefix p s.
Definition endswith (s p : string) : bool :=
  String.prefix (String.rev p) (String.rev s).

(** [p in s] for strings *)
Fixpoint contains (s p : string) : bool :=
  String.prefix p s ||
  match s with
  | EmptyString => false
  | String _ s' => contains s' p
  end.

End Py.

(** ** Checksum kernels (dvk/checksums.py) *)

Definition reflect_bits (value width : Z) : Z :=
  fold_left
    (fun result i =>
       if negb (Z.land value (Z.shiftl 1 i) =? 0)
       then Z.lor result (Z.shiftl 1 (width - 1 - i))
       else result)
    (Py.range 0 width 1) 0.

Definition crc_bit_refin (poly crc : Z) : Z :=
  if negb (Z.land crc 1 =? 0) then Z.lxor (Z.shiftr crc 1) poly else Z.shiftr crc 1.

Definition crc_bit_msb (poly mask topbit crc : Z) : Z :=
  if negb (Z.land crc topbit =? 0)
  then Z.land (Z.lxor (Z.shiftl crc 1) poly) mask
  else Z.land (Z.shiftl crc 1) mask.

Definition crc_compute (data : list byte) (width poly init xorout : Z)
    (refin refout : bool) : Z :=
  let mask := Z.shiftl 1 width - 1 in
  let crc := Z.land init mask in
  let crc :=
    if refin then
      Z.land
        (fold_left
           (fun crc b => Nat.iter 8 (crc_bit_refin poly) (Z.lxor crc (Py.b2z b)))
           data crc)
        mask
    else
      let topbit := Z.shiftl 1 (width - 1) in
      fold_left
        (fun crc b =>
           Nat.iter 8 (crc_bit_msb poly mask topbit)
             (Z.lxor crc (Z.land (Z.shiftl (Py.b2z b) (width - 8)) mask)))
        data crc in
  let crc := if refout then reflect_bits crc width else crc in
  let crc := Z.lxor crc xorout in
  Z.land crc mask.

Definition checksum_sum8 (frame : list byte) (start end_ : Z) : Z :=
  Z.land (Py.sum (Py.slice frame start (end_ + 1))) 255.

(** The body of the loop of [checksum_cs15]. *)
Definition cs15_step (data : list byte) (chk32 i : Z) : res Z :=
  lo ← Py.getitem data i;
  hi ← Py.getitem data (i + 1);
  let data_int := Z.lor lo (Z.shiftl hi 8) in
  mret (Z.shiftl chk32 1 + data_int).

Definition checksum_cs15 (data : list byte) : res Z :=
  let data := if Py.len data mod 2 =? 1 then data ++ [x00] else data in
  chk32 ← foldM (cs15_step data) 0 (Py.range 0 (Py.len data) 2);
  let checksum := Z.land chk32 32767 + Z.shiftr chk32 15 in
  mret (Z.land checksum 32767).

Definition resolve_index (index total_len : Z) : Z :=
  if 0 <=? index then index else total_len + index.

Definition _checksum_nbytes (store_format : string) : res Z :=
  if String.eqb store_format "uint8" then Ok 1
  else if Py.startswith store_format "uint16_" then Ok 2
  else if Py.startswith store_format "uint32_" then Ok 4
  else Raise ValueError.

Definition read_expected_checksum (frame : list byte) (store_at : Z)
    (store_format : string) : res Z :=
  n ← _checksum_nbytes store_format;
  let start := resolve_index store_at (Py.len frame) in
  let end_ := start + n in
  if (start <? 0) || (Py.len frame <? end_) then Raise ValueError
  else
    let raw := Py.slice frame start end_ in
    if String.eqb store_format "uint8" then Py.getitem raw 0
    else if Py.endswith store_format "_le" then Ok (Py.from_bytes_le raw)
    else if Py.endswith store_format "_be" then Ok (Py.from_bytes_be raw)
    else Raise ValueError.

(** One entry of [params["data_slices"]]; an absent key is [None]. *)
Record DataSlice : Type := {
  ds_from : option Z;
  ds_to : option Z;
  ds_stride : option Z;
  low_rel_offsets : list Z;
  up_rel_offsets : list Z
}.

(** [checksum["params"]]: the CRC keys and the XOR16 keys. *)
Record Params : Type := {
  crc_poly : option Z;
  crc_init : option Z;
  crc_xorout : option Z;
  crc_refin : option bool;
  crc_refout : option bool;
  seed_low_offsets : list Z;
  seed_up_offsets : list Z;
  data_slices : list DataSlice
}.

Record Range : Type := { rng_from : option Z; rng_to : option Z }.

(** [frame_spec["checksum"]] *)
Record ChecksumSpec : Type := {
  cs_type : option string;
  cs_range : option Range;
  cs_store_at : option Z;
  cs_store_format : option string;
  cs_params : option Params
}.

(** [not checksum_spec] for a dictionary: it has no key. *)
Definition no_keys (cs : ChecksumSpec) : bool :=
  match cs_type cs, cs_range cs, cs_store_at cs, cs_store_format cs, cs_params cs with
  | None, None, None, None, None => true
  | _, _, _, _, _ => false
  end.

(** [if 0 <= idx < len(frame): acc ^= frame[idx]] *)
Definition xor_at (frame : list byte) (acc idx : Z) : Z :=
  if (0 <=? idx) && (idx <? Py.len frame)
  then match frame !! Z.to_nat idx with
       | Some b => Z.lxor acc (Py.b2z b)
       | None => acc
       end
  else acc.

Definition xor16_slice (frame : list byte) (acc : Z * Z) (sl : DataSlice) : Z * Z :=
  let start := default 0 (ds_from sl) in
  let end_ := default (Py.len frame - 1) (ds_to sl) in
  let stride := default 1 (ds_stride sl) in
  if stride <=? 0 then acc
  else
    let end_ := if end_ <? 0 then Py.len frame + end_ else end_ in
    let start := if start <? 0 then Py.len frame + start else start in
    let start := if start <? 0 then 0 else start in
    let end_ := if Py.len frame <=? end_ then Py.len frame - 1 else end_ in
    if end_ <? start then acc
    else
      fold_left
        (fun '(xor_low, xor_up) pos =>
           let xor_low :=
             fold_left (fun a rel => xor_at frame a (pos + rel)) (low_rel_offsets sl) xor_low in
           let xor_up :=
             fold_left (fun a rel => xor_at frame a (pos + rel)) (up_rel_offsets sl) xor_up in
           (xor_low, xor_up))
        (Py.range start (end_ + 1) stride) acc.

Definition checksum_xor16_slices (frame : list byte) (params : Params) : Z :=
  let xor_low := fold_left (xor_at frame) (seed_low_offsets params) 0 in
  let xor_up := fold_left (xor_at frame) (seed_up_offsets params) 0 in
  let '(xor_low, xor_up) :=
    fold_left (xor16_slice frame) (data_slices params) (xor_low, xor_up) in
  Z.land (Z.lor (Z.shiftl xor_up 8) xor_low) 65535.

(** [not s] for an optional string: absent or empty. *)
Definition falsy (s : option string) : bool :=
  match s with
  | None => true
  | Some s => String.eqb s ""
  end.

Definition compute_checksum (frame : list byte) (checksum_spec : ChecksumSpec) : res Z :=
  ctype ← require (cs_type checksum_spec);
  if String.eqb ctype "xor16_slices" then
    match cs_params checksum_spec with
    | None => Raise ValueError
    | Some params => Ok (checksum_xor16_slices frame params)
    end
  else
    match cs_range checksum_spec with
    | None => Raise ValueError
    | Some rng =>
      rfrom ← require (rng_from rng);
      let start := resolve_index rfrom (Py.len frame) in
      rto ← require (rng_to rng);
      let end_ := resolve_index rto (Py.len frame) in
      if (start <? 0) || (end_ <? 0) || (Py.len frame <=? start)
         || (Py.len frame <=? end_) || (end_ <? start)
      then Raise ValueError
      else
        let data := Py.slice frame start (end_ + 1) in
        if String.eqb ctype "sum8" then Ok (checksum_sum8 frame start end_)
        else if String.eqb ctype "cs15" then checksum_cs15 data
        else if String.eqb ctype "crc16" || String.eqb ctype "crc32" then
          if falsy (cs_store_format checksum_spec) then Raise ValueError
          else
            match cs_params checksum_spec with
            | None => Raise ValueError
            | Some params =>
              let width := if String.eqb ctype "crc16" then 16 else 32 in
              poly ← require (crc_poly params);
              init ← require (crc_init params);
              xorout ← require (crc_xorout params);
              refin ← require (crc_refin params);
              refout ← require (crc_refout params);
              Ok (crc_compute data width poly init xorout refin refout)
            end
        else Raise ValueError
    end.

Definition verify_checksum (frame : list byte) (checksum_spec : ChecksumSpec) : res bool :=
  ctype ← require (cs_type checksum_spec);
  store_format ←
    (if falsy (cs_store_format checksum_spec) then
       if String.eqb ctype "sum8" then Ok "uint8"%string
       else if String.eqb ctype "cs15" || String.eqb ctype "xor16_slices"
            then Ok "uint16_le"%string
       else Raise ValueError
     else Ok (default ""%string (cs_store_format checksum_spec)));
  store_at ← require (cs_store_at checksum_spec);
  expected ← read_expected_checksum frame store_at store_format;
  actual ← compute_checksum frame checksum_spec;
  mret (actual =? expected).

(** The CS15 algorithm as the specification words it: pad to even length,
    read little-endian 16-bit words, accumulate, fold the carry. *)
Module Cs15Spec.

Definition pad (data : list byte) : list byte :=
  if Nat.even (length data) then data else data ++ [x00].

Fixpoint words (data : list byte) : list Z :=
  match data with
  | lo :: hi :: rest => (Py.b2z lo + 256 * Py.b2z hi) :: words rest
  | _ => []
  end.

Definition accumulate (ws : list Z) : Z :=
  fold_left (fun chk32 w => 2 * chk32 + w) ws 0.

Definition cs15 (data : list byte) : Z :=
  let chk32 := accumulate (words (pad data)) in
  ((chk32 mod 32768) + chk32 / 32768) mod 32768.

End Cs15Spec.

(** ** Shared-memory ring (dvk/shm.py) *)

Module Shm.

(** [_POINT_DTYPE] *)
Record Point : Type := {
  x : float;
  y : float;
  angle_deg : float;
  distance : float;
  intensity : float;
  frame_idx : Z;
  point_idx : Z
}.

(** [_CTRL_DTYPE] *)
Record Ctrl : Type := {
  version : Z;
  capacity : Z;
  write_index : Z;
  seq : Z;
  last_write_ns : Z
}.

(** The two arrays of [ShmHandles]; the segment objects and the owner
    flag play no part in reading and writing rows. *)
Record ShmHandles : Type := {
  ctrl : Ctrl;
  data : list Point
}.

(** Storing a Python [int] in an unsigned field of [bits] bits: numpy
    raises [OverflowError] when the value does not fit. *)
Definition store_uint (bits v : Z) : res Z :=
  if (0 <=? v) && (v <? 2 ^ bits) then Ok v else Raise OverflowError.

(** [arr[a:b] = rows]: the slice is clamped as Python does, and [rows]
    must have the length of the slice or be a single row, which numpy
    broadcasts; any other shape raises [ValueError]. *)
Definition np_assign (arr : list Point) (a b : Z) (rows : list Point) : res (list Point) :=
  let a' := Py.clamp a (Py.len arr) in
  let b' := Py.clamp b (Py.len arr) in
  let m := Z.to_nat (b' - a') in
  if Nat.eqb (length rows) m
  then Ok (take (Z.to_nat a') arr ++ rows ++ drop (Z.to_nat a' + m) arr)
  else match rows with
       | [r] => Ok (take (Z.to_nat a') arr ++ replicate m r ++ drop (Z.to_nat a' + m) arr)
       | _ => Raise ValueError
       end.

(** [a % b] on Python integers. *)
Definition py_mod (a b : Z) : res Z :=
  if b =? 0 then Raise ZeroDivisionError else Ok (a mod b).

(** [write_points(h, rows)]; [now] is the value [time.time_ns()] returns
    when the function reads the clock. *)
Definition write_points (h : ShmHandles) (rows : list Point) (now : Z) : res ShmHandles :=
  let n := Py.len rows in
  if n <=? 0 then Ok h
  else
    let cap := capacity (ctrl h) in
    let w := write_index (ctrl h) in
    let '(rows, n, w) :=
      if cap <=? n then (Py.slice rows (- cap) (Py.len rows), cap, 0) else (rows, n, w) in
    let end_ := w + n in
    data' ←
      (if end_ <=? cap then np_assign (data h) w end_ rows
       else
         let first := cap - w in
         d1 ← np_assign (data h) w cap (Py.slice rows 0 first);
         np_assign d1 0 (end_ - cap) (Py.slice rows first (Py.len rows)));
    wi ← py_mod (w + n) cap;
    wi ← store_uint 32 wi;
    sq ← store_uint 64 (seq (ctrl h) + 1);
    ts ← store_uint 64 now;
    Ok {| ctrl := {| version := version (ctrl h);
                     capacity := capacity (ctrl h);
                     write_index := wi;
                     seq := sq;
                     last_write_ns := ts |};
          data := data' |}.

(** A sequence of calls, each with its batch and the clock reading it
    would take; the states after each call are collected. *)
Fixpoint write_all (h : ShmHandles) (calls : list (list Point * Z)) : res (list ShmHandles) :=
  match calls with
  | [] => Ok []
  | (rows, now) :: calls' =>
    h' ← write_points h rows now;
    hs ← write_all h' calls';
    Ok (h' :: hs)
  end.

(** The row [data.fill(0)] leaves in every slot. *)
Definition zero_point : Point :=
  {| x := 0; y := 0; angle_deg := 0; distance := 0; intensity := 0;
     frame_idx := 0; point_idx := 0 |}.

(** [create_ring(base_name, capacity_points)], for a name that is free. *)
Definition create_ring (capacity_points : Z) : res ShmHandles :=
  if capacity_points <=? 0 then Raise ValueError
  else
    cap ← store_uint 32 capacity_points;
    Ok {| ctrl := {| version := 1; capacity := cap; write_index := 0;
                     seq := 0; last_write_ns := 0 |};
          data := replicate (Z.to_nat capacity_points) zero_point |}.

(** Sample data: the ring of capacity 4 as [create_ring] leaves it, and
    rows told apart by their [point_idx]. *)
Definition ring4 : ShmHandles :=
  {| ctrl := {| version := 1; capacity := 4; write_index := 0;
                seq := 0; last_write_ns := 0 |};
     data := replicate 4 zero_point |}.

Definition row (k : Z) : Point :=
  {| x := 0; y := 0; angle_deg := 0; distance := 0; intensity := 0;
     frame_idx := 0; point_idx := k |}.

(** What [create_ring] and [write_points] keep true of a ring. *)
Definition wf (h : ShmHandles) : Prop :=
  Py.len (data h) = capacity (ctrl h) /\
  0 < capacity (ctrl h) < 2 ^ 32 /\
  0 <= write_index (ctrl h) < capacity (ctrl h).

(** [read_latest(h, max_points)] *)
Definition read_latest (h : ShmHandles) (max_points : Z) : res (list Point) :=
  let cap := capacity (ctrl h) in
  if max_points <=? 0 then Ok (Py.slice (data h) 0 0)
  else
    let max_points := Z.min max_points cap in
    let w := write_index (ctrl h) in
    start ← py_mod (w - max_points) cap;
    if start <? w then Ok (Py.slice (data h) start w)
    else Ok (Py.slice (data h) start cap ++ Py.slice (data h) 0 w).

(** The slots of the ring in the order they were last written: from
    the one at [write_index], the next to be overwritten, round to the
    one before it. *)
Definition oldest_first (h : ShmHandles) : list Point :=
  drop (Z.to_nat (write_index (ctrl h))) (data h)
  ++ take (Z.to_nat (write_index (ctrl h))) (data h).

(** The last [k] elements of a list (all of it when it is shorter). *)
Definition lastn {A : Type} (k : nat) (l : list A) : list A :=
  drop (length l - k) l.

(** The rows of a sequence of calls, in the order they were written. *)
Definition rows_written (calls : list (list Point * Z)) : list Point :=
  concat (map fst calls).

(** What the header is expected to show after each call of a sequence:
    [seq] one more than before for a call that carries rows, and
    [last_write_ns] the clock reading of that call; both as they were
    for a call with an empty batch. *)
Fixpoint seqs (s0 : Z) (calls : list (list Point * Z)) : list Z :=
  match calls with
  | [] => []
  | (rows, _) :: calls' =>
    let s := match rows with [] => s0 | _ :: _ => s0 + 1 end in
    s :: seqs s calls'
  end.

Fixpoint stamps (t0 : Z) (calls : list (list Point * Z)) : list Z :=
  match calls with
  | [] => []
  | (rows, now) :: calls' =>
    let t := match rows with [] => t0 | _ :: _ => now end in
    t :: stamps t calls'
  end.

End Shm.

(** ** The framer (transport_session.py) *)

(** The control of a [while True] loop run on fuel: a value, an
    exception, or the fuel used up before the loop left. *)
Inductive run (A : Type) : Type :=
| Returns (a : A)
| Raises (e : exn)
| OutOfFuel.
Arguments Returns {A} a.
Arguments Raises {A} e.
Arguments OutOfFuel {A}.

(** [frame["length"]["field"]] and [frame["length"]["count_field"]] *)
Record FieldDecl : Type := {
  fd_offset : option Z;
  fd_length : option Z;
  fd_type : option string
}.

(** [frame["length"]] *)
Record LengthDecl : Type := {
  ld_mode : option string;
  ld_value : option Z;
  ld_field : option FieldDecl;
  ld_count_field : option FieldDecl;
  ld_unit_bytes : option Z;
  ld_overhead_bytes : option Z
}.

(** A frame specification of protocol.json. The header is held as the
    bytes its tokens ["0xHH"] denote; a header with a malformed token is
    an absent one (both make [extract_header] raise [ValueError]). *)
Record FrameSpec : Type := {
  fs_header : option (list byte);
  fs_length : option LengthDecl;
  fs_checksum : option ChecksumSpec
}.

Module Transport.

Definition parse_uint (value_bytes : list byte) (value_type : string) : res Z :=
  if String.eqb value_type "uint8" then
    if negb (Py.len value_bytes =? 1) then Raise ValueError
    else Py.getitem value_bytes 0
  else if String.eqb value_type "uint16_le" then
    if negb (Py.len value_bytes =? 2) then Raise ValueError
    else Ok (Py.from_bytes_le value_bytes)
  else if String.eqb value_type "uint16_be" then
    if negb (Py.len value_bytes =? 2) then Raise ValueError
    else Ok (Py.from_bytes_be value_bytes)
  else if String.eqb value_type "uint32_le" then
    if negb (Py.len value_bytes =? 4) then Raise ValueError
    else Ok (Py.from_bytes_le value_bytes)
  else if String.eqb value_type "uint32_be" then
    if negb (Py.len value_bytes =? 4) then Raise ValueError
    else Ok (Py.from_bytes_be value_bytes)
  else Raise ValueError.

(** The dataclass [LengthSpec]. *)
Record LengthSpec : Type := {
  mode : string;
  value : option Z;
  field_offset : option Z;
  field_length : option Z;
  field_type : option string;
  unit_bytes : option Z;
  overhead_bytes : option Z
}.

(** [LengthSpec.from_frame] *)
Definition from_frame (frame_spec : FrameSpec) : res LengthSpec :=
  match fs_length frame_spec with
  | None => Raise ValueError
  | Some length =>
    if bool_decide (ld_mode length = Some "fixed"%string) then
      v ← require (ld_value length);
      Ok {| mode := "fixed"; value := Some v; field_offset := None;
            field_length := None; field_type := None; unit_bytes := None;
            overhead_bytes := None |}
    else if bool_decide (ld_mode length = Some "dynamic"%string) then
      let field := default {| fd_offset := None; fd_length := None; fd_type := None |}
                           (ld_field length) in
      off ← require (fd_offset field);
      len ← require (fd_length field);
      ty ← require (fd_type field);
      ov ← require (ld_overhead_bytes length);
      Ok {| mode := "dynamic"; value := None; field_offset := Some off;
            field_length := Some len; field_type := Some ty; unit_bytes := None;
            overhead_bytes := Some ov |}
    else if bool_decide (ld_mode length = Some "counted"%string) then
      let field := default {| fd_offset := None; fd_length := None; fd_type := None |}
                           (ld_count_field length) in
      off ← require (fd_offset field);
      len ← require (fd_length field);
      ty ← require (fd_type field);
      ub ← require (ld_unit_bytes length);
      ov ← require (ld_overhead_bytes length);
      Ok {| mode := "counted"; value := None; field_offset := Some off;
            field_length := Some len; field_type := Some ty; unit_bytes := Some ub;
            overhead_bytes := Some ov |}
    else Raise ValueError
  end.

(** [assert x is not None] *)
Definition assert_some {A : Type} (o : option A) : res A :=
  match o with Some a => Ok a | None => Raise AssertionError end.

(** [LengthSpec.total_length] *)
Definition total_length (self : LengthSpec) (frame_prefix : list byte) : res Z :=
  if String.eqb (mode self) "fixed" then assert_some (value self)
  else if String.eqb (mode self) "counted" then
    off ← assert_some (field_offset self);
    flen ← assert_some (field_length self);
    ty ← assert_some (field_type self);
    ub ← assert_some (unit_bytes self);
    ov ← assert_some (overhead_bytes self);
    if Py.len frame_prefix <? off + flen then Ok (-1)
    else
      let raw := Py.slice frame_prefix off (off + flen) in
      count ← parse_uint raw ty;
      Ok (count * ub + ov)
  else
    off ← assert_some (field_offset self);
    flen ← assert_some (field_length self);
    ty ← assert_some (field_type self);
    ov ← assert_some (overhead_bytes self);
    if Py.len frame_prefix <? off + flen then Ok (-1)
    else
      let raw := Py.slice frame_prefix off (off + flen) in
      payload_len ← parse_uint raw ty;
      Ok (payload_len + ov).

Definition extract_header (frame_spec : FrameSpec) : res (list byte) :=
  match fs_header frame_spec with
  | None | Some [] => Raise ValueError
  | Some header => Ok header
  end.

(** [FramingStats] *)
Record FramingStats : Type := {
  total_bytes : Z;
  frames_ok : Z;
  frames_bad_checksum : Z;
  resyncs : Z
}.

(** The variables of [frame_stream] that its loops update: the stats,
    the buffer, and what [out_frames.write] received, oldest first. *)
Record State : Type := {
  stats : FramingStats;
  buf : list byte;
  written : list (list byte)
}.

Definition add_resync (s : FramingStats) : FramingStats :=
  {| total_bytes := total_bytes s; frames_ok := frames_ok s;
     frames_bad_checksum := frames_bad_checksum s; resyncs := resyncs s + 1 |}.

Definition add_bad (s : FramingStats) : FramingStats :=
  {| total_bytes := total_bytes s; frames_ok := frames_ok s;
     frames_bad_checksum := frames_bad_checksum s + 1; resyncs := resyncs s |}.

Definition add_ok (s : FramingStats) : FramingStats :=
  {| total_bytes := total_bytes s; frames_ok := frames_ok s + 1;
     frames_bad_checksum := frames_bad_checksum s; resyncs := resyncs s |}.

Definition add_bytes (n : Z) (s : FramingStats) : FramingStats :=
  {| total_bytes := total_bytes s + n; frames_ok := frames_ok s;
     frames_bad_checksum := frames_bad_checksum s; resyncs := resyncs s |}.

(** How one pass through the body of the inner loop leaves it. *)
Inductive Step : Type :=
| Continue (st : State)
| Break (st : State).

(** One pass through the body of the inner [while True]. *)
Definition inner_step (header : list byte) (length_spec : LengthSpec)
    (checksum_spec : option ChecksumSpec) (enable_checksum : bool)
    (st : State) : res Step :=
  let idx := Py.find (buf st) header in
  if idx <? 0 then
    if Py.len header <? Py.len (buf st)
    then Ok (Break {| stats := stats st;
                      buf := Py.del_prefix (buf st) (- Py.len header);
                      written := written st |})
    else Ok (Break st)
  else
    let st :=
      if 0 <? idx
      then {| stats := add_resync (stats st);
              buf := Py.del_prefix (buf st) idx;
              written := written st |}
      else st in
    total_len ← total_length length_spec (buf st);
    if total_len <? 0 then Ok (Break st)
    else if Py.len (buf st) <? total_len then Ok (Break st)
    else
      let frame := Py.slice (buf st) 0 total_len in
      let st := {| stats := stats st;
                   buf := Py.del_prefix (buf st) total_len;
                   written := written st |} in
      let bad := {| stats := add_bad (stats st); buf := buf st; written := written st |} in
      let good := {| stats := add_ok (stats st); buf := buf st;
                     written := written st ++ [frame] |} in
      match (if enable_checksum then checksum_spec else None) with
      | Some spec =>
        match verify_checksum frame spec with
        | Ok true => Ok (Continue good)
        | Ok false => Ok (Continue bad)
        | Raise _ => Ok (Continue bad)
        end
      | None => Ok (Continue good)
      end.

(** The inner [while True], on fuel. *)
Fixpoint inner_loop (fuel : nat) (header : list byte) (length_spec : LengthSpec)
    (checksum_spec : option ChecksumSpec) (enable_checksum : bool)
    (st : State) : run State :=
  match fuel with
  | O => OutOfFuel
  | S fuel' =>
    match inner_step header length_spec checksum_spec enable_checksum st with
    | Raise e => Raises e
    | Ok (Break st') => Returns st'
    | Ok (Continue st') =>
      inner_loop fuel' header length_spec checksum_spec enable_checksum st'
    end
  end.

(** The outer loop. [reads] lists what the successive calls of
    [stream.read(4096)] return; an empty result, or the end of the
    list, is the end of the stream. Each run of the inner loop gets
    [fuel] passes. *)
Fixpoint outer_loop (fuel : nat) (header : list byte) (length_spec : LengthSpec)
    (checksum_spec : option ChecksumSpec) (enable_checksum : bool)
    (reads : list (list byte)) (st : State) : run State :=
  match reads with
  | [] => Returns st
  | [] :: _ => Returns st
  | chunk :: reads' =>
    let st := {| stats := add_bytes (Py.len chunk) (stats st);
                 buf := buf st ++ chunk;
                 written := written st |} in
    match inner_loop fuel header length_spec checksum_spec enable_checksum st with
    | Returns st' =>
      outer_loop fuel header length_spec checksum_spec enable_checksum reads' st'
    | Raises e => Raises e
    | OutOfFuel => OutOfFuel
    end
  end.

Definition initial : State :=
  {| stats := {| total_bytes := 0; frames_ok := 0; frames_bad_checksum := 0;
                 resyncs := 0 |};
     buf := [];
     written := [] |}.

(** [frame_stream(stream, frame_spec, out_frames, enable_checksum)]: the
    stats returned and the frames written. *)
Definition frame_stream (fuel : nat) (reads : list (list byte)) (frame_spec : FrameSpec)
    (enable_checksum : bool) : run (FramingStats * list (list byte)) :=
  match extract_header frame_spec with
  | Raise e => Raises e
  | Ok header =>
    match from_frame frame_spec with
    | Raise e => Raises e
    | Ok length_spec =>
      match outer_loop fuel header length_spec (fs_checksum frame_spec)
                       enable_checksum reads initial with
      | Returns st => Returns (stats st, written st)
      | Raises e => Raises e
      | OutOfFuel => OutOfFuel
      end
    end
  end.

(** The length or count field of a [dynamic] or [counted] frame sits at
    a non-negative offset and has a positive length, the guard
    [off >= 0 and ln > 0] of the detector's [iter_frames]. *)
Definition length_field_sane (ls : LengthSpec) : Prop :=
  mode ls = "fixed"%string \/
  exists off flen,
    field_offset ls = Some off /\ field_length ls = Some flen /\
    0 <= off /\ 0 < flen.

(** A validly-framed message: it starts with the header, the length rule
    applied to it gives its own length, and it passes the checksum
    verification when one is declared and enabled. *)
Definition valid_frame (header : list byte) (ls : LengthSpec)
    (checksum_spec : option ChecksumSpec) (enable_checksum : bool)
    (m : list byte) : Prop :=
  Py.starts_with header m = true /\
  total_length ls m = Ok (Py.len m) /\
  match (if enable_checksum then checksum_spec else None) with
  | Some spec => verify_checksum m spec = Ok true
  | None => True
  end.

(** The bytes of the stream: what the successive reads return, up to
    the first empty one. *)
Fixpoint stream_of (reads : list (list byte)) : list byte :=
  match reads with
  | [] => []
  | [] :: _ => []
  | chunk :: reads' => chunk ++ stream_of reads'
  end.

(** Frames laid out in a stream, each after a gap of bytes that belong
    to no frame. *)
Definition laid_out (gaps frames : list (list byte)) : list byte :=
  concat (zip_with app gaps frames).

(** What holds of a frame taken at a header: it begins with the header,
    as far as the header fits in it, and it passes the checksum
    verification when one is declared and enabled. *)
Definition accepted (header : list byte) (checksum_spec : option ChecksumSpec)
    (enable_checksum : bool) (frame : list byte) : Prop :=
  Py.starts_with (Py.slice header 0 (Py.len frame)) frame = true /\
  match (if enable_checksum then checksum_spec else None) with
  | Some spec => verify_checksum frame spec = Ok true
  | None => True
  end.

(** The state of [frame_stream] after it has read the bytes [s]: the
    frames written lie in [s] in order, between gaps, followed by the
    bytes still buffered; the counters count what they name. *)
Definition framed_so_far (header : list byte) (checksum_spec : option ChecksumSpec)
    (enable_checksum : bool) (s : list byte) (st : State) : Prop :=
  exists gaps g,
    length gaps = length (written st) /\
    s = laid_out gaps (written st) ++ g ++ buf st /\
    total_bytes (stats st) = Py.len s /\
    frames_ok (stats st) = Py.len (written st) /\
    0 <= frames_bad_checksum (stats st) /\
    0 <= resyncs (stats st) /\
    Forall (accepted header checksum_spec enable_checksum) (written st).

End Transport.

(** ** Sample frame specifications *)

Module Scenarios.

Definition no_field : option FieldDecl := None.

(** Scenario 1 of the specification: header AA 55, fixed length 6, sum8
    over [0, 4] stored at index 5. *)
Definition fixed6_sum8 : FrameSpec :=
  {| fs_header := Some [xaa; x55];
     fs_length := Some {| ld_mode := Some "fixed"%string; ld_value := Some 6;
                          ld_field := None; ld_count_field := None;
                          ld_unit_bytes := None; ld_overhead_bytes := None |};
     fs_checksum := Some {| cs_type := Some "sum8"%string;
                            cs_range := Some {| rng_from := Some 0; rng_to := Some 4 |};
                            cs_store_at := Some 5;
                            cs_store_format := None;
                            cs_params := None |} |}.

(** A dynamic frame whose [width]-byte length field at offset 2 counts
    the payload; [overhead] covers the rest of the frame. *)
Definition dynamic_at2 (ty : string) (width overhead : Z) : FrameSpec :=
  {| fs_header := Some [xaa; x55];
     fs_length := Some {| ld_mode := Some "dynamic"%string; ld_value := None;
                          ld_field := Some {| fd_offset := Some 2;
                                              fd_length := Some width;
                                              fd_type := Some ty |};
                          ld_count_field := None;
                          ld_unit_bytes := None;
                          ld_overhead_bytes := Some overhead |};
     fs_checksum := None |}.

(** The length field counts the whole frame (no overhead). *)
Definition whole_frame_u8 : FrameSpec := dynamic_at2 "uint8" 1 0.

(** A 32-bit payload length, with 6 bytes of header and length field. *)
Definition payload_u32 : FrameSpec := dynamic_at2 "uint32_le" 4 6.

End Scenarios.

(** ** Semantic transforms (dvk/semantics.py) *)

(** The values a decoded record or an output row holds. *)
Inductive pyval : Type :=
| VNone
| VBool (b : bool)
| VInt (z : Z)
| VFloat (f : float)
| VStr (s : string).

(** Python's numeric conversions and float operators. *)
Module PyNum.

(** [float(z)] for an [int]: the nearest binary64, ties to even;
    [OverflowError] when it is out of range. *)
Definition float_of_int (z : Z) : res float :=
  let f := SF2Prim (SpecFloat.binary_normalize FloatOps.prec FloatOps.emax z 0 false) in
  if PrimFloat.is_infinity f then Raise OverflowError else Ok f.

(** [int(f)] for a [float]: truncation toward zero. *)
Definition int_of_float (f : float) : res Z :=
  match Prim2SF f with
  | SpecFloat.S754_zero _ => Ok 0
  | SpecFloat.S754_infinity _ => Raise OverflowError
  | SpecFloat.S754_nan => Raise ValueError
  | SpecFloat.S754_finite sign m e =>
    let mag := if 0 <=? e then Z.pos m * 2 ^ e else Z.pos m / 2 ^ (- e) in
    Ok (if sign then - mag else mag)
  end.

(** [a / b] on floats *)
Definition fdiv (a b : float) : res float :=
  if PrimFloat.eqb b 0 then Raise ZeroDivisionError else Ok (a / b)%float.

(** [a << n] and [a >> n] on ints *)
Definition shl (a n : Z) : res Z :=
  if n <? 0 then Raise ValueError else Ok (Z.shiftl a n).
Definition shr (a n : Z) : res Z :=
  if n <? 0 then Raise ValueError else Ok (Z.shiftr a n).

Definition is_digit (c : ascii) : bool :=
  let n := N_of_ascii c in ((48 <=? n) && (n <=? 57))%N.

(** [s.isdigit()] on ASCII text *)
Definition isdigit (s : string) : bool :=
  negb (String.eqb s "") && forallb is_digit (list_ascii_of_string s).

(** [int(s)] for a string of decimal digits *)
Definition int_of_digits (s : string) : Z :=
  fold_left (fun acc c => 10 * acc + (Z.of_N (N_of_ascii c) - 48))
            (list_ascii_of_string s) 0.

Definition hex_digit (c : ascii) : option Z :=
  let n := Z.of_N (N_of_ascii c) in
  if (48 <=? n) && (n <=? 57) then Some (n - 48)
  else if (97 <=? n) && (n <=? 102) then Some (n - 87)
  else if (65 <=? n) && (n <=? 70) then Some (n - 55)
  else None.

Definition is_space (c : ascii) : bool :=
  let n := N_of_ascii c in ((n =? 32) || ((9 <=? n) && (n <=? 13)))%N.

(** [bytes.fromhex(s)]: two hexadecimal digits per byte, ASCII
    whitespace between bytes skipped; [None] stands for [ValueError]. *)
Fixpoint fromhex (s : string) : option (list byte) :=
  match s with
  | EmptyString => Some []
  | String c s' =>
    if is_space c then fromhex s'
    else match s' with
         | EmptyString => None
         | String d s'' =>
           match hex_digit c, hex_digit d, fromhex s'' with
           | Some h, Some l, Some rest => Some (Py.z2b (16 * h + l) :: rest)
           | _, _, _ => None
           end
         end
  end.

End PyNum.

Module Semantics.

(** A decoded record, and an output row: dictionaries from names to values. *)
Abbreviation record := (gmap string pyval).

(** [d.get(k)] *)
Definition get (d : record) (k : string) : pyval := default VNone (d !! k).

Record SemanticResult : Type := {
  records : list record;
  applied : bool;
  reason : string
}.

Definition _hex_to_bytes (value : pyval) : option (list byte) :=
  match value with
  | VStr s => PyNum.fromhex s
  | _ => None
  end.

Definition _as_int (value : pyval) : res (option Z) :=
  match value with
  | VBool b => Ok (Some (if b then 1 else 0))
  | VInt z => Ok (Some z)
  | VFloat f => z ← PyNum.int_of_float f; Ok (Some z)
  | VStr s => Ok (if PyNum.isdigit s then Some (PyNum.int_of_digits s) else None)
  | VNone => Ok None
  end.

Definition _angle_deg_from_raw (raw right_shift : Z) (scale_div offset : float) : res float :=
  shifted ← PyNum.shr raw right_shift;
  f ← PyNum.float_of_int shifted;
  q ← PyNum.fdiv f scale_div;
  Ok (q + offset)%float.

Definition _wrap_delta (start_deg end_deg : float) (n : Z) : res float :=
  if n <=? 1 then Ok 0%float
  else
    d ← PyNum.float_of_int (n - 1);
    if PrimFloat.ltb end_deg start_deg
    then PyNum.fdiv (end_deg + 360 - start_deg)%float d
    else PyNum.fdiv (end_deg - start_deg)%float d.

(** The settings [_transform_triplet_pointcloud_v1] reads from its rule
    with [cfg.get], each with the default of the source. *)
Record TripletCfg : Type := {
  frame_name : option string;
  input_field : string;
  count_ref : string;
  dist_b2_shift : Z;
  dist_b1_shift : Z;
  dist_b1_mask : Z;
  dist_mask : Z;
  inten_b1_mask : Z;
  inten_b1_shift : Z;
  inten_b0_shift : Z;
  inten_b0_mask : Z;
  hr_mask : Z;
  start_field : string;
  end_field : string;
  right_shift : Z;
  scale_div : float;
  offset : float;
  include_frame_fields : list string
}.

(** The rule [{type: triplet_pointcloud_v1}] with every default. *)
Definition triplet_defaults : TripletCfg :=
  {| frame_name := None; input_field := "samples"; count_ref := "lsn";
     dist_b2_shift := 6; dist_b1_shift := 2; dist_b1_mask := 63; dist_mask := 16383;
     inten_b1_mask := 3; inten_b1_shift := 6; inten_b0_shift := 2; inten_b0_mask := 63;
     hr_mask := 1; start_field := "fsa"; end_field := "lsa"; right_shift := 1;
     scale_div := 64; offset := 0; include_frame_fields := [] |}.

(** [frame_name and frame.get("_frame_name") != frame_name] *)
Definition other_frame (name : option string) (frame : record) : bool :=
  match name with
  | None => false
  | Some n =>
    negb (String.eqb n "") &&
    negb match get frame "_frame_name" with
         | VStr s => String.eqb s n
         | _ => false
         end
  end.

(** [for k in include_frame_fields: row[k] = frame.get(k)] *)
Definition copy_fields (fields : list string) (frame : record) (row : record) : record :=
  fold_left (fun r k => <[k := get frame k]> r) fields row.

(** [angle = start_deg + i * delta], less 360 when it reaches 360. *)
Definition point_angle (start_deg delta : float) (i : Z) : res float :=
  fi ← PyNum.float_of_int i;
  let angle := (start_deg + fi * delta)%float in
  Ok (if PrimFloat.leb 360 angle then (angle - 360)%float else angle).

(** The body of [for i in range(count)] of the triplet transform; [None]
    is [break]. *)
Definition triplet_point (cfg : TripletCfg) (frame : record) (payload : list byte)
    (start_deg delta : float) (i : Z) : res (option record) :=
  let base := i * 3 in
  if Py.len payload <=? base + 2 then Ok None
  else
    b0 ← Py.getitem payload base;
    b1 ← Py.getitem payload (base + 1);
    b2 ← Py.getitem payload (base + 2);
    hi ← PyNum.shl (Z.land b2 255) (dist_b2_shift cfg);
    lo ← PyNum.shr b1 (dist_b1_shift cfg);
    let dist := Z.land (Z.lor hi (Z.land lo (dist_b1_mask cfg))) (dist_mask cfg) in
    ihi ← PyNum.shl (Z.land b1 (inten_b1_mask cfg)) (inten_b1_shift cfg);
    ilo ← PyNum.shr b0 (inten_b0_shift cfg);
    let inten := Z.lor ihi (Z.land ilo (inten_b0_mask cfg)) in
    let hr := Z.land b0 (hr_mask cfg) in
    angle ← point_angle start_deg delta i;
    let row : record :=
      <["hr_flag" := VInt hr]>
      (<["intensity" := VInt inten]>
      (<["distance_raw" := VInt dist]>
      (<["angle_deg" := VFloat angle]>
      (<["_point_idx" := VInt i]>
      (<["_frame_idx" := get frame "_frame_idx"]> ∅))))) in
    Ok (Some (copy_fields (include_frame_fields cfg) frame row)).

(** A [for i in ...] loop whose body may [break]. *)
Fixpoint for_break (body : Z -> res (option record)) (idxs : list Z) : res (list record) :=
  match idxs with
  | [] => Ok []
  | i :: idxs' =>
    r ← body i;
    match r with
    | None => Ok []
    | Some row => rows ← for_break body idxs'; Ok (row :: rows)
    end
  end.

(** The rows one pass of [for frame in raw_records] appends. *)
Definition triplet_frame (cfg : TripletCfg) (frame : record) : res (list record) :=
  if other_frame (frame_name cfg) frame then Ok []
  else
    let payload := _hex_to_bytes (get frame (input_field cfg)) in
    c ← _as_int (get frame (count_ref cfg));
    let count := match c with Some z => z | None => 0 end in
    match payload with
    | None => Ok []
    | Some payload =>
      if count <=? 0 then Ok []
      else
        start_raw ← _as_int (get frame (start_field cfg));
        end_raw ← _as_int (get frame (end_field cfg));
        match start_raw, end_raw with
        | Some start_raw, Some end_raw =>
          start_deg ← _angle_deg_from_raw start_raw (right_shift cfg) (scale_div cfg) (offset cfg);
          end_deg ← _angle_deg_from_raw end_raw (right_shift cfg) (scale_div cfg) (offset cfg);
          delta ← _wrap_delta start_deg end_deg count;
          for_break (triplet_point cfg frame payload start_deg delta) (Py.range 0 count 1)
        | _, _ => Ok []
        end
    end.

(** Running a per-frame body over the records, appending its rows. *)
Fixpoint over_frames (body : record -> res (list record)) (raw_records : list record)
    : res (list record) :=
  match raw_records with
  | [] => Ok []
  | frame :: rest =>
    rows ← body frame;
    more ← over_frames body rest;
    Ok (rows ++ more)
  end.

Definition no_points : SemanticResult :=
  {| records := []; applied := false;
     reason := "No points produced (missing fields or empty payload)." |}.

Definition _transform_triplet_pointcloud_v1 (raw_records : list record) (cfg : TripletCfg)
    : res SemanticResult :=
  out_records ← over_frames (triplet_frame cfg) raw_records;
  match out_records with
  | [] => Ok no_points
  | _ => Ok {| records := out_records; applied := true;
               reason := "triplet_pointcloud_v1 applied." |}
  end.

(** The settings [_transform_if_dn_pointcloud_v1] reads from its rule. *)
Record IfDnCfg : Type := {
  dn_frame_name : option string;
  dn_input_field : string;
  dn_count_ref : string;
  brightness_mode : string;
  dn_start_field : string;
  dn_end_field : string;
  subtract_a000 : bool;
  dn_scale_div : float;
  dn_offset : float;
  speed_field : string;
  speed_div : float;
  dn_dist_mask : Z;
  dn_include_frame_fields : list string
}.

(** The rule [{type: if_dn_pointcloud_v1}] with every default. *)
Definition if_dn_defaults : IfDnCfg :=
  {| dn_frame_name := None; dn_input_field := "samples"; dn_count_ref := "dn";
     brightness_mode := "none"; dn_start_field := "fa"; dn_end_field := "la";
     subtract_a000 := true; dn_scale_div := 64; dn_offset := 0;
     speed_field := "sp"; speed_div := 3840; dn_dist_mask := 16383;
     dn_include_frame_fields := [] |}.

Definition if_dn_angle (cfg : IfDnCfg) (raw : Z) : res float :=
  f ← PyNum.float_of_int (if subtract_a000 cfg then raw - 40960 else raw);
  q ← PyNum.fdiv f (dn_scale_div cfg);
  Ok (q + dn_offset cfg)%float.

(** The body of [for i in range(count)] of the IF/DN transform. *)
Definition if_dn_point (cfg : IfDnCfg) (unit_bytes : Z) (frame : record)
    (payload : list byte) (start_deg delta : float) (speed_rps : pyval) (i : Z)
    : res (option record) :=
  let base := i * unit_bytes in
  if Py.len payload <=? base + 1 then Ok None
  else
    let dist := Z.land (Py.from_bytes_le (Py.slice payload base (base + 2)))
                       (dn_dist_mask cfg) in
    brightness ←
      (if String.eqb (brightness_mode cfg) "u8" then
         if Py.len payload <=? base + 2 then Ok None
         else b ← Py.getitem payload (base + 2); Ok (Some (VInt b))
       else if String.eqb (brightness_mode cfg) "u16_le" then
         if Py.len payload <=? base + 3 then Ok None
         else Ok (Some (VInt (Py.from_bytes_le (Py.slice payload (base + 2) (base + 4)))))
       else Ok (Some VNone));
    match brightness with
    | None => Ok None
    | Some brightness =>
      angle ← point_angle start_deg delta i;
      let row : record :=
        <["speed_rps" := speed_rps]>
        (<["brightness" := brightness]>
        (<["distance_raw" := VInt dist]>
        (<["angle_deg" := VFloat angle]>
        (<["_point_idx" := VInt i]>
        (<["_frame_idx" := get frame "_frame_idx"]> ∅))))) in
      Ok (Some (copy_fields (dn_include_frame_fields cfg) frame row))
    end.

Definition if_dn_frame (cfg : IfDnCfg) (unit_bytes : Z) (frame : record)
    : res (list record) :=
  if other_frame (dn_frame_name cfg) frame then Ok []
  else
    let payload := _hex_to_bytes (get frame (dn_input_field cfg)) in
    c ← _as_int (get frame (dn_count_ref cfg));
    let count := match c with Some z => z | None => 0 end in
    match payload with
    | None => Ok []
    | Some payload =>
      if count <=? 0 then Ok []
      else
        start_raw ← _as_int (get frame (dn_start_field cfg));
        end_raw ← _as_int (get frame (dn_end_field cfg));
        match start_raw, end_raw with
        | Some start_raw, Some end_raw =>
          start_deg ← if_dn_angle cfg start_raw;
          end_deg ← if_dn_angle cfg end_raw;
          delta ← _wrap_delta start_deg end_deg count;
          speed_raw ← _as_int (get frame (speed_field cfg));
          speed_rps ←
            match speed_raw with
            | Some v => f ← PyNum.float_of_int v;
                        q ← PyNum.fdiv f (speed_div cfg);
                        Ok (VFloat q)
            | None => Ok VNone
            end;
          for_break (if_dn_point cfg unit_bytes frame payload start_deg delta speed_rps)
                    (Py.range 0 count 1)
        | _, _ => Ok []
        end
    end.

Definition _transform_if_dn_pointcloud_v1 (raw_records : list record) (cfg : IfDnCfg)
    : res SemanticResult :=
  let mode := brightness_mode cfg in
  if negb (String.eqb mode "none" || String.eqb mode "u8" || String.eqb mode "u16_le") then
    Ok {| records := []; applied := false;
          reason := "Invalid brightness_mode: " ++ mode |}
  else
    let unit_bytes :=
      if String.eqb mode "none" then 2 else if String.eqb mode "u8" then 3 else 4 in
    out_records ← over_frames (if_dn_frame cfg unit_bytes) raw_records;
    match out_records with
    | [] => Ok no_points
    | _ => Ok {| records := out_records; applied := true;
                 reason := "if_dn_pointcloud_v1 applied." |}
    end.

(** One entry of [telemetry["transforms"]]: something that is not a
    dictionary, or a dictionary with its ["type"] (as [str] gives it, if
    the key is there) and its settings as each transform reads them. *)
Inductive Transform : Type :=
| NotADict
| Rule (ttype : option string) (triplet : TripletCfg) (if_dn : IfDnCfg).

(** [commands]: the ["telemetry"] section, if it is a dictionary, with
    its ["transforms"], if that is a list. *)
Record Commands : Type := {
  telemetry : option (option (list Transform))
}.

Definition unapplied (raw_records : list record) (why : string) : SemanticResult :=
  {| records := raw_records; applied := false; reason := why |}.

Definition apply_semantics (raw_records : list record) (commands : Commands)
    : res SemanticResult :=
  match telemetry commands with
  | None => Ok (unapplied raw_records "No telemetry section in commands.")
  | Some transforms =>
    match transforms with
    | None | Some [] => Ok (unapplied raw_records "No telemetry.transforms rules.")
    | Some (t0 :: _) =>
      match t0 with
      | NotADict | Rule None _ _ =>
        Ok (unapplied raw_records "Invalid telemetry.transforms[0]")
      | Rule (Some ttype) triplet if_dn =>
        if String.eqb ttype "triplet_pointcloud_v1"
        then _transform_triplet_pointcloud_v1 raw_records triplet
        else if String.eqb ttype "if_dn_pointcloud_v1"
        then _transform_if_dn_pointcloud_v1 raw_records if_dn
        else Ok (unapplied raw_records
                   ("Unsupported telemetry transform type: " ++ ttype))
      end
    end
  end.

(** Sample data: a decoded frame with its raw start and end angles, its
    sample count and its samples in hexadecimal. *)
Definition frame_of (fsa lsa lsn : Z) (samples : string) : record :=
  <["samples" := VStr samples]>
  (<["lsn" := VInt lsn]>
  (<["lsa" := VInt lsa]>
  (<["fsa" := VInt fsa]>
  (<["_frame_idx" := VInt 0]> ∅)))).

(** The same for the IF/DN transform: first and last angle, sample
    count and samples. *)
Definition dn_frame_of (fa la dn : Z) (samples : string) : record :=
  <["samples" := VStr samples]>
  (<["dn" := VInt dn]>
  (<["la" := VInt la]>
  (<["fa" := VInt fa]>
  (<["_frame_idx" := VInt 0]> ∅)))).

(** The rows of a run that did not raise. *)
Definition rows_of (r : res (list record)) : list record :=
  match r with
  | Ok rows => rows
  | Raise _ => []
  end.

Definition returned {A : Type} (r : res A) : bool :=
  match r with
  | Ok _ => true
  | Raise _ => false
  end.

(** The values of ["angle_deg"] in a list of rows. *)
Definition angles (rows : list record) : list pyval :=
  map (fun row => get row "angle_deg") rows.

End Semantics.

(** ** The detector (dvk_detect_protocol.py) *)

Module Detect.

Record DetectionResult : Type := {
  protocol_id : option string;
  protocol_version : option string;
  model_id : option string;
  confidence : float;
  rule_id : string;
  method : string
}.

(** [method_rank.get(r.method, 0)] *)
Definition method_rank (m : string) : Z :=
  if String.eqb m "sniff" then 2
  else if String.eqb m "banner" then 1
  else 0.

(** [<] on the sort keys [(r.confidence, rank)], as tuples compare. *)
Definition key_lt (a b : DetectionResult) : bool :=
  if PrimFloat.eqb (confidence a) (confidence b)
  then method_rank (method a) <? method_rank (method b)
  else PrimFloat.ltb (confidence a) (confidence b).

(** [sorted(results, key=..., reverse=True)]: descending, and stable, so
    results with equal keys keep their order. [insert] puts a result
    after every one that is not smaller. *)
Fixpoint insert (r : DetectionResult) (sorted : list DetectionResult)
    : list DetectionResult :=
  match sorted with
  | [] => [r]
  | s :: sorted' => if key_lt s r then r :: s :: sorted' else s :: insert r sorted'
  end.

Definition results_sorted (results : list DetectionResult) : list DetectionResult :=
  fold_left (fun acc r => insert r acc) results [].

Definition choose_best (results : list DetectionResult) : option DetectionResult :=
  head (results_sorted results).

(** What a rule of rules.yaml gave when it was applied: for a [query]
    rule the fields [apply_query_rule] fills, for a [banner] rule those
    [match_banner] fills with the named groups of the match; [None]
    when the rule did not match. *)
Record Match : Type := {
  m_protocol_id : option string;
  m_protocol_version : option string;
  m_model_id : option string;
  m_confidence : float;
  m_rule_id : string;
  m_groups : gmap string string
}.

Record RuleRun : Type := {
  rule_method : string;
  outcome : option Match
}.

Definition result_of (m : Match) (how : string) : DetectionResult :=
  {| protocol_id := m_protocol_id m; protocol_version := m_protocol_version m;
     model_id := m_model_id m; confidence := m_confidence m;
     rule_id := m_rule_id m; method := how |}.

(** The loop [for rule in uart_rules] of [cmd_uart]: the results and
    the matched groups it collects. *)
Fixpoint run_rules (banner_text : string) (rules : list RuleRun)
    (results : list DetectionResult) (matched_groups : gmap string string)
    : list DetectionResult * gmap string string :=
  match rules with
  | [] => (results, matched_groups)
  | rule :: rules' =>
    if String.eqb (rule_method rule) "query" then
      match outcome rule with
      | Some m => run_rules banner_text rules' (results ++ [result_of m "query"]) matched_groups
      | None => run_rules banner_text rules' results matched_groups
      end
    else if String.eqb (rule_method rule) "banner" && negb (String.eqb banner_text "") then
      match outcome rule with
      | Some m => run_rules banner_text rules' (results ++ [result_of m "banner"])
                            (m_groups m ∪ matched_groups)
      | None => run_rules banner_text rules' results matched_groups
      end
    else run_rules banner_text rules' results matched_groups
  end.

(** [a or b] on optional strings: the first that is present and not empty. *)
Definition or_else (a b : option string) : option string :=
  match a with
  | Some s => if String.eqb s "" then b else a
  | None => b
  end.

(** What [pick_by_sniff] found best among the candidates, if any scored
    a frame. *)
Record SniffPick : Type := {
  sp_protocol_id : string;
  sp_protocol_version : string;
  sp_confidence : float;
  sp_ambiguous : bool
}.

Definition sniff_result (p : SniffPick) : DetectionResult :=
  {| protocol_id := Some (sp_protocol_id p);
     protocol_version := Some (sp_protocol_version p);
     model_id := None;
     confidence := sp_confidence p;
     rule_id := if sp_ambiguous p then "sniff_protocol_assets:ambiguous"
                else "sniff_protocol_assets";
     method := "sniff" |}.

(** The candidates a model file leaves: those whose id it lists, in
    the version it expects when it names one. *)
Definition restrict (refs : list (string * option string))
    (candidates : list (string * string)) : list (string * string) :=
  match refs with
  | [] => candidates
  | _ =>
    let allowed := List.filter (fun c => bool_decide (c.1 ∈ map fst refs)) candidates in
    let expected_by_id : gmap string string :=
      fold_left (fun m r => match r.2 with
                            | Some v => if String.eqb v "" then m else <[r.1 := v]> m
                            | None => m
                            end) refs ∅ in
    if bool_decide (expected_by_id = ∅) then allowed
    else List.filter (fun c => match expected_by_id !! c.1 with
                          | None => true
                          | Some v => String.eqb c.2 v
                          end) allowed
  end.

(** The part of [cmd_uart] that settles the detection, from the rules
    applied, the operator's [--model-id], the protocol candidates, the
    references of a model file ([protocol_refs_for_model] of
    [load_model_doc]) and the sniff ([pick_by_sniff] on the sample);
    [None] is the exit "Protocol not detected". *)
Definition detect_uart (banner_text : string) (rules : list RuleRun)
    (args_model_id : option string) (candidates : list (string * string))
    (model_refs : string -> list (string * option string))
    (pick_by_sniff : list (string * string) -> option SniffPick)
    : option DetectionResult :=
  let '(results, matched_groups) := run_rules banner_text rules [] ∅ in
  let best := choose_best (List.filter (fun r => String.eqb (method r) "query") results) in
  let model_id :=
    or_else args_model_id
      (or_else (matched_groups !! "model_id"%string)
               (match best with Some b => model_id b | None => None end)) in
  let '(candidates, best) :=
    match or_else model_id None with
    | Some mid =>
      match model_refs mid with
      | [] => (candidates, best)
      | refs =>
        let candidates := restrict refs candidates in
        match candidates, best with
        | [(pid, ver)], None =>
          (candidates,
           Some {| protocol_id := Some pid; protocol_version := Some ver;
                   model_id := Some mid; confidence := 0x1.ccccccccccccdp-1;
                   rule_id := "model_file_single"; method := "model_file" |})
        | _, _ => (candidates, best)
        end
      end
    | None => (candidates, best)
    end in
  match best with
  | Some b => Some b
  | None => sniff_result <$> pick_by_sniff candidates
  end.

(** The detector's own framer. *)

Definition parse_uint (value_bytes : list byte) (value_type : string) : res Z :=
  if String.eqb value_type "uint8" then Py.getitem value_bytes 0
  else if String.eqb value_type "uint16_le" then Ok (Py.from_bytes_le value_bytes)
  else if String.eqb value_type "uint16_be" then Ok (Py.from_bytes_be value_bytes)
  else if String.eqb value_type "uint32_le" then Ok (Py.from_bytes_le value_bytes)
  else if String.eqb value_type "uint32_be" then Ok (Py.from_bytes_be value_bytes)
  else Raise ValueError.

(** The total length [iter_frames] resolves on its buffer, -1 when it
    cannot tell. *)
Definition resolve_length (length : LengthDecl) (buf : list byte) : res Z :=
  let no_field := {| fd_offset := None; fd_length := None; fd_type := None |} in
  let from_field (field : FieldDecl) (unit : option Z) : res Z :=
    let off := default (-1) (fd_offset field) in
    let ln := default (-1) (fd_length field) in
    let tp := default ""%string (fd_type field) in
    let overhead := default 0 (ld_overhead_bytes length) in
    if (0 <=? off) && (0 <? ln) && (off + ln <=? Py.len buf) then
      v ← parse_uint (Py.slice buf off (off + ln)) tp;
      Ok (match unit with
          | Some unit_bytes => v * unit_bytes + overhead
          | None => v + overhead
          end)
    else Ok (-1) in
  if bool_decide (ld_mode length = Some "fixed"%string)
  then Ok (default (-1) (ld_value length))
  else if bool_decide (ld_mode length = Some "dynamic"%string)
  then from_field (default no_field (ld_field length)) None
  else if bool_decide (ld_mode length = Some "counted"%string)
  then from_field (default no_field (ld_count_field length))
                  (Some (default 0 (ld_unit_bytes length)))
  else Ok (-1).

(** The counters of [iter_frames] and its buffer. *)
Record Scan : Type := {
  ok : Z;
  bad : Z;
  resyncs : Z;
  buf : list byte
}.

Inductive Pass : Type :=
| Again (sc : Scan)
| Leave (sc : Scan).

(** One pass through the body of the [while True] of [iter_frames]. *)
Definition scan_step (header : list byte) (length : LengthDecl)
    (checksum_spec : option ChecksumSpec) (sc : Scan) : res Pass :=
  let idx := Py.find (buf sc) header in
  if idx <? 0 then Ok (Leave sc)
  else
    let sc :=
      if 0 <? idx
      then {| ok := ok sc; bad := bad sc; resyncs := resyncs sc + 1;
              buf := Py.del_prefix (buf sc) idx |}
      else sc in
    total_len ← resolve_length length (buf sc);
    if (total_len <=? 0) || (Py.len (buf sc) <? total_len) then Ok (Leave sc)
    else
      let frame := Py.slice (buf sc) 0 total_len in
      let rest := Py.del_prefix (buf sc) total_len in
      let counted_bad := {| ok := ok sc; bad := bad sc + 1; resyncs := resyncs sc;
                            buf := rest |} in
      let counted_ok := {| ok := ok sc + 1; bad := bad sc; resyncs := resyncs sc;
                           buf := rest |} in
      match checksum_spec with
      | Some spec =>
        if no_keys spec then Ok (Again counted_ok)
        else match verify_checksum frame spec with
             | Ok true => Ok (Again counted_ok)
             | Ok false => Ok (Again counted_bad)
             | Raise _ => Ok (Again counted_bad)
             end
      | None => Ok (Again counted_ok)
      end.

Fixpoint scan_loop (fuel : nat) (header : list byte) (length : LengthDecl)
    (checksum_spec : option ChecksumSpec) (sc : Scan) : run Scan :=
  match fuel with
  | O => OutOfFuel
  | S fuel' =>
    match scan_step header length checksum_spec sc with
    | Raise e => Raises e
    | Ok (Leave sc') => Returns sc'
    | Ok (Again sc') => scan_loop fuel' header length checksum_spec sc'
    end
  end.

(** [iter_frames(sample, frame_spec, enable_checksum)], for a frame
    specification whose length is a dictionary (the legacy form
    [length = "fixed"] is not part of [FrameSpec]). *)
Definition iter_frames (fuel : nat) (sample : list byte) (frame_spec : FrameSpec)
    (enable_checksum : bool) : run (Z * Z * Z) :=
  match fs_header frame_spec with
  | None | Some [] => Raises ValueError
  | Some header =>
    match fs_length frame_spec with
    | None => Raises ValueError
    | Some length =>
      let checksum_spec := if enable_checksum then fs_checksum frame_spec else None in
      match scan_loop fuel header length checksum_spec
                      {| ok := 0; bad := 0; resyncs := 0; buf := sample |} with
      | Returns sc => Returns (ok sc, bad sc, resyncs sc)
      | Raises e => Raises e
      | OutOfFuel => OutOfFuel
      end
    end
  end.

(** The sniff: scoring the protocol candidates on a sample. *)

(** A protocol candidate: its id and version, and the entries of
    ["frames"] of its protocol.json that are dictionaries. *)
Record Candidate : Type := {
  c_protocol_id : string;
  c_protocol_version : string;
  c_frames : list FrameSpec
}.

(** [sniff_score_protocol]: the counts of [iter_frames] added up over
    the frames of the candidate. The loop of [iter_frames] gets one pass
    more than the sample has bytes, which it cannot use up. *)
Fixpoint sniff_frames (frames : list FrameSpec) (sample : list byte) (acc : Z * Z * Z)
    : run (Z * Z * Z) :=
  match frames with
  | [] => Returns acc
  | f :: frames' =>
    match iter_frames (S (length sample)) sample f true with
    | Returns (f_ok, f_bad, f_resyncs) =>
      let '(ok, bad, resyncs) := acc in
      sniff_frames frames' sample (ok + f_ok, bad + f_bad, resyncs + f_resyncs)
    | Raises e => Raises e
    | OutOfFuel => OutOfFuel
    end
  end.

Definition sniff_score_protocol (frames : list FrameSpec) (sample : list byte)
    : run (Z * Z * Z) :=
  sniff_frames frames sample (0, 0, 0).

(** [score_to_confidence]; the constants are 0.2, 0.79, 1e-9 and 0.99
    as binary64 holds them. *)
Definition score_to_confidence (frames_ok frames_bad : Z) : res float :=
  let total := frames_ok + frames_bad in
  if total <=? 0 then Ok 0%float
  else
    t ← PyNum.float_of_int total;
    f_ok ← PyNum.float_of_int frames_ok;
    q ← PyNum.fdiv f_ok (t + 0x1.12e0be826d695p-30)%float;
    let x := (0x1.999999999999ap-3 + 0x1.947ae147ae148p-1 * q)%float in
    Ok (if PrimFloat.ltb x 0x1.fae147ae147aep-1 then x else 0x1.fae147ae147aep-1%float).

(** One entry of [scored]. *)
Record Scored : Type := {
  s_protocol_id : string;
  s_protocol_version : string;
  s_frames_ok : Z;
  s_frames_bad_checksum : Z;
  s_resyncs : Z;
  s_score : Z
}.

(** The loop of [pick_by_sniff] that scores every candidate. *)
Fixpoint score_all (candidates : list Candidate) (sample : list byte) : run (list Scored) :=
  match candidates with
  | [] => Returns []
  | c :: candidates' =>
    match sniff_score_protocol (c_frames c) sample with
    | Returns (f_ok, f_bad, f_resyncs) =>
      match score_all candidates' sample with
      | Returns scored =>
        Returns ({| s_protocol_id := c_protocol_id c;
                    s_protocol_version := c_protocol_version c;
                    s_frames_ok := f_ok;
                    s_frames_bad_checksum := f_bad;
                    s_resyncs := f_resyncs;
                    s_score := f_ok * 100 - f_bad * 50 - f_resyncs |} :: scored)
      | Raises e => Raises e
      | OutOfFuel => OutOfFuel
      end
    | Raises e => Raises e
    | OutOfFuel => OutOfFuel
    end
  end.

(** [scored.sort(key=lambda x: int(x["score"]), reverse=True)]:
    descending and stable. *)
Fixpoint insert_scored (x : Scored) (sorted : list Scored) : list Scored :=
  match sorted with
  | [] => [x]
  | s :: sorted' =>
    if s_score s <? s_score x then x :: s :: sorted' else s :: insert_scored x sorted'
  end.

Definition sort_scored (scored : list Scored) : list Scored :=
  fold_left (fun acc x => insert_scored x acc) scored [].

(** [pick_by_sniff(candidates, sample)] *)
Definition pick_by_sniff (candidates : list Candidate) (sample : list byte)
    : run (option DetectionResult * list Scored * bool) :=
  match score_all candidates sample with
  | Returns scored =>
    let scored := sort_scored scored in
    match scored with
    | [] => Returns (None, scored, false)
    | best :: rest =>
      if s_frames_ok best <=? 0 then Returns (None, scored, false)
      else
        let ambiguous :=
          match rest with
          | second :: _ =>
            (0 <? s_frames_ok second) && (s_score best - s_score second <? 50)
          | [] => false
          end in
        match score_to_confidence (s_frames_ok best) (s_frames_bad_checksum best) with
        | Ok conf =>
          Returns (Some {| protocol_id := Some (s_protocol_id best);
                           protocol_version := Some (s_protocol_version best);
                           model_id := None;
                           confidence := conf;
                           rule_id := if ambiguous then "sniff_protocol_assets:ambiguous"
                                      else "sniff_protocol_assets";
                           method := "sniff" |},
                   scored, ambiguous)
        | Raise e => Raises e
        end
    end
  | Raises e => Raises e
  | OutOfFuel => OutOfFuel
  end.

End Detect.

(** ** The encoder (dvk_encode.py) *)

Module Encode.

(** [n] bytes of [v], least significant first. *)
Fixpoint le_bytes (n : nat) (v : Z) : list byte :=
  match n with
  | O => []
  | S n' => Py.z2b v :: le_bytes n' (v / 256)
  end.

(** [struct.pack] of an unsigned or signed integer of [n] bytes:
    [struct.error] when the value does not fit. *)
Definition pack_uint (little : bool) (n : nat) (v : Z) : res (list byte) :=
  if (0 <=? v) && (v <? 256 ^ Z.of_nat n)
  then Ok (if little then le_bytes n v else rev (le_bytes n v))
  else Raise StructError.

Definition pack_int (little : bool) (n : nat) (v : Z) : res (list byte) :=
  let half := 256 ^ Z.of_nat n / 2 in
  if (- half <=? v) && (v <? half)
  then Ok (let u := v mod 256 ^ Z.of_nat n in
           if little then le_bytes n u else rev (le_bytes n u))
  else Raise StructError.

(** The 32 bits of a binary32 value. *)
Definition bits32 (f : SpecFloat.spec_float) : Z :=
  let sign (s : bool) := if s then 2 ^ 31 else 0 in
  match f with
  | SpecFloat.S754_zero s => sign s
  | SpecFloat.S754_infinity s => sign s + 2139095040
  | SpecFloat.S754_nan => 2143289344
  | SpecFloat.S754_finite s m e =>
    if Z.pos m <? 2 ^ 23 then sign s + Z.pos m
    else sign s + (e + 150) * 2 ^ 23 + (Z.pos m - 2 ^ 23)
  end.

(** [struct.pack("<f", float(v))] and [">f"] for an [int]: to binary64,
    then to binary32, each time to the nearest with ties to even;
    [OverflowError] when either step leaves the range. *)
Definition pack_float32 (little : bool) (v : Z) : res (list byte) :=
  match SpecFloat.binary_normalize 53 1024 v 0 false with
  | SpecFloat.S754_infinity _ => Raise OverflowError
  | d =>
    let single :=
      match d with
      | SpecFloat.S754_finite s m e =>
        SpecFloat.binary_normalize 24 128 (if s then Z.neg m else Z.pos m) e s
      | other => other
      end in
    match single with
    | SpecFloat.S754_infinity _ => Raise OverflowError
    | _ => Ok (if little then le_bytes 4 (bits32 single)
               else rev (le_bytes 4 (bits32 single)))
    end
  end.

(** [encode_value(value, value_type)] for an [int] value, the only kind
    [build_frame] passes. *)
Definition encode_value (value : Z) (value_type : string) : res (list byte) :=
  if String.eqb value_type "uint8" then pack_uint true 1 (Z.land value 255)
  else if String.eqb value_type "int8" then pack_int true 1 value
  else if String.eqb value_type "uint16_le" then pack_uint true 2 (Z.land value 65535)
  else if String.eqb value_type "uint16_be" then pack_uint false 2 (Z.land value 65535)
  else if String.eqb value_type "int16_le" then pack_int true 2 value
  else if String.eqb value_type "int16_be" then pack_int false 2 value
  else if String.eqb value_type "uint32_le" then pack_uint true 4 (Z.land value 4294967295)
  else if String.eqb value_type "uint32_be" then pack_uint false 4 (Z.land value 4294967295)
  else if String.eqb value_type "int32_le" then pack_int true 4 value
  else if String.eqb value_type "int32_be" then pack_int false 4 value
  else if String.eqb value_type "float32_le" then pack_float32 true value
  else if String.eqb value_type "float32_be" then pack_float32 false value
  else if String.eqb value_type "bytes" then
    if value <? 0 then Raise ValueError else Ok (replicate (Z.to_nat value) x00)
  else Raise ValueError.

Definition encode_checksum (checksum_val : Z) (store_format : string) : res (list byte) :=
  if String.eqb store_format "uint8" then pack_uint true 1 (Z.land checksum_val 255)
  else if String.eqb store_format "uint16_le" then pack_uint true 2 (Z.land checksum_val 65535)
  else if String.eqb store_format "uint16_be" then pack_uint false 2 (Z.land checksum_val 65535)
  else if String.eqb store_format "uint32_le"
  then pack_uint true 4 (Z.land checksum_val 4294967295)
  else if String.eqb store_format "uint32_be"
  then pack_uint false 4 (Z.land checksum_val 4294967295)
  else Raise ValueError.

(** The bytes [build_frame] assembles before the checksum:
    header, length field in dynamic mode, message id, payload. *)
Definition frame_body (header : list byte) (msg_id : Z) (payload : list byte)
    (frame_spec : FrameSpec) : res (list byte) :=
  let length_spec :=
    default {| ld_mode := None; ld_value := None; ld_field := None;
               ld_count_field := None; ld_unit_bytes := None;
               ld_overhead_bytes := None |} (fs_length frame_spec) in
  let mode := default "fixed"%string (ld_mode length_spec) in
  len_field ←
    (if String.eqb mode "dynamic" then
       let field_def := default {| fd_offset := None; fd_length := None; fd_type := None |}
                                (ld_field length_spec) in
       let ftype := default "uint8"%string (fd_type field_def) in
       encode_value (Py.len payload) ftype
     else Ok []);
  id_byte ← encode_value msg_id "uint8";
  Ok (header ++ len_field ++ id_byte ++ payload).

(** The checksum [build_frame] computes over the assembled bytes. *)
Definition frame_checksum (frame : list byte) (checksum_spec : ChecksumSpec)
    : res (Z * string) :=
  ctype ← require (cs_type checksum_spec);
  rng ← require (cs_range checksum_spec);
  let store_format := default "uint8"%string (cs_store_format checksum_spec) in
  let checksum_len :=
    if String.eqb store_format "uint8" then 1
    else if Py.contains store_format "16" then 2 else 4 in
  let total_len := Py.len frame + checksum_len in
  rfrom ← require (rng_from rng);
  let start := if 0 <=? rfrom then rfrom else total_len + rfrom in
  rto ← require (rng_to rng);
  let end_ := if 0 <=? rto then rto else total_len + rto in
  if String.eqb ctype "sum8" then
    Ok (checksum_sum8 frame start (Z.min end_ (Py.len frame - 1)), store_format)
  else if String.eqb ctype "crc16" || String.eqb ctype "crc32" then
    let params := cs_params checksum_spec in
    let width := if String.eqb ctype "crc16" then 16 else 32 in
    let get {A : Type} (f : Params -> option A) (d : A) : A :=
      match params with
      | Some p => default d (f p)
      | None => d
      end in
    Ok (crc_compute (Py.slice frame start (Z.min (end_ + 1) (Py.len frame)))
                    width (get crc_poly 0) (get crc_init 0) (get crc_xorout 0)
                    (get crc_refin false) (get crc_refout false),
        store_format)
  else Raise ValueError.

(** [build_frame(header, msg_id, payload, frame_spec)], the header
    given as its bytes. *)
Definition build_frame (header : list byte) (msg_id : Z) (payload : list byte)
    (frame_spec : FrameSpec) : res (list byte) :=
  frame ← frame_body header msg_id payload frame_spec;
  match fs_checksum frame_spec with
  | None => Ok frame
  | Some checksum_spec =>
    if no_keys checksum_spec then Ok frame
    else
      '(checksum_val, store_format) ← frame_checksum frame checksum_spec;
      stored ← encode_checksum checksum_val store_format;
      Ok (frame ++ stored)
  end.

(** The store formats: byte order and number of bytes. *)
Inductive store_fmt : string -> bool -> nat -> Prop :=
| fmt_uint8 : store_fmt "uint8" true 1
| fmt_uint16_le : store_fmt "uint16_le" true 2
| fmt_uint16_be : store_fmt "uint16_be" false 2
| fmt_uint32_le : store_fmt "uint32_le" true 4
| fmt_uint32_be : store_fmt "uint32_be" false 4.

(** The CRC parameters are all present in [params]. *)
Definition crc_params_given (cs : ChecksumSpec) : Prop :=
  exists p poly init xorout refin refout,
    cs_params cs = Some p /\ crc_poly p = Some poly /\ crc_init p = Some init /\
    crc_xorout p = Some xorout /\ crc_refin p = Some refin /\
    crc_refout p = Some refout.

(** A checksum specification in the shape the round trip needs: one of
    the types the encoder computes, a store format [sf] of [n] bytes that
    holds the whole value, and CRC parameters spelled out. *)
Definition encodable (cs : ChecksumSpec) (sf : string) (n : nat) : Prop :=
  exists ctype little,
    cs_type cs = Some ctype /\
    store_fmt sf little n /\
    (cs_store_format cs = Some sf \/
     ctype = "sum8"%string /\ cs_store_format cs = None /\ sf = "uint8"%string) /\
    (ctype = "sum8"%string \/
     ctype = "crc16"%string /\ (2 <= n)%nat /\ crc_params_given cs \/
     ctype = "crc32"%string /\ (4 <= n)%nat /\ crc_params_given cs).

(** The checksum field is the last [n] bytes of the frame and the range
    lies in the bytes before it. *)
Definition placed_at_end (cs : ChecksumSpec) (n : nat) (total_len : Z) : Prop :=
  exists store_at rfrom rto,
    cs_store_at cs = Some store_at /\
    cs_range cs = Some {| rng_from := Some rfrom; rng_to := Some rto |} /\
    resolve_index store_at total_len = total_len - Z.of_nat n /\
    0 <= resolve_index rfrom total_len /\
    resolve_index rfrom total_len <= resolve_index rto total_len /\
    resolve_index rto total_len < total_len - Z.of_nat n.

(** The specification's [place], which has no counterpart in the source:
    the frame with the bytes of its checksum field, at [store_at],
    overwritten by the stored value. *)
Definition place (frame : list byte) (store_at : Z) (stored : list byte) : list byte :=
  let start := Z.to_nat (resolve_index store_at (Py.len frame)) in
  take start frame ++ stored ++ drop (start + length stored) frame.

(** The number of bits of the value each checksum type computes. *)
Definition value_bits (ctype : string) : Z :=
  if String.eqb ctype "sum8" then 8
  else if String.eqb ctype "cs15" then 15
  else if String.eqb ctype "crc32" then 32
  else 16.

(** The store format [verify_checksum] settles on. *)
Definition format_used (cs : ChecksumSpec) (ctype sf : string) : Prop :=
  cs_store_format cs = Some sf \/
  cs_store_format cs = None /\
  (ctype = "sum8"%string /\ sf = "uint8"%string \/
   (ctype = "cs15"%string \/ ctype = "xor16_slices"%string) /\ sf = "uint16_le"%string).

(** The checksum does not depend on the bytes of the checksum field. *)
Definition field_free (cs : ChecksumSpec) (frame : list byte) (store_at : Z) (n : nat)
    : Prop :=
  forall stored, length stored = n ->
    compute_checksum (place frame store_at stored) cs = compute_checksum frame cs.


(** A frame specification that describes frames as [build_frame] lays
    them out: a dynamic length whose field, of the unsigned type [ty] of
    [n_len] bytes, follows the header and counts the payload, the
    overhead covering header, length field, message id and the [n_cs]
    bytes of the checksum [cs]. *)
Definition framed_as_built (frame_spec : FrameSpec) (header : list byte)
    (ty : string) (little : bool) (n_len : nat)
    (cs : ChecksumSpec) (sf : string) (n_cs : nat) : Prop :=
  fs_header frame_spec = Some header /\ header <> [] /\
  (exists length field,
     fs_length frame_spec = Some length /\
     ld_mode length = Some "dynamic"%string /\
     ld_field length = Some field /\
     fd_offset field = Some (Py.len header) /\
     fd_length field = Some (Z.of_nat n_len) /\
     fd_type field = Some ty /\
     ld_overhead_bytes length
     = Some (Py.len header + Z.of_nat n_len + 1 + Z.of_nat n_cs)) /\
  store_fmt ty little n_len /\
  fs_checksum frame_spec = Some cs /\
  encodable cs sf n_cs.

(** A frame that [build_frame] returned for a payload its length field
    can count, the checksum declared where [build_frame] puts it. *)
Definition built (frame_spec : FrameSpec) (header : list byte) (n_len : nat)
    (cs : ChecksumSpec) (n_cs : nat) (frame : list byte) : Prop :=
  exists msg_id payload,
    build_frame header msg_id payload frame_spec = Ok frame /\
    Py.len payload < 256 ^ Z.of_nat n_len /\
    placed_at_end cs n_cs (Py.len frame).

(** Sample specifications: CRC-16/MODBUS in a dynamic frame, and a
    CS15 checksum, which the encoder does not compute. *)
Definition modbus_params : Params :=
  {| crc_poly := Some 40961; crc_init := Some 65535; crc_xorout := Some 0;
     crc_refin := Some true; crc_refout := Some false;
     seed_low_offsets := []; seed_up_offsets := []; data_slices := [] |}.

Definition checksummed (ctype sf : string) (rto store_at : Z) : FrameSpec :=
  {| fs_header := Some [x55; xaa];
     fs_length := Some {| ld_mode := Some "dynamic"%string; ld_value := None;
                          ld_field := Some {| fd_offset := Some 2; fd_length := Some 1;
                                              fd_type := Some "uint8"%string |};
                          ld_count_field := None; ld_unit_bytes := None;
                          ld_overhead_bytes := Some 6 |};
     fs_checksum := Some {| cs_type := Some ctype;
                            cs_range := Some {| rng_from := Some 0; rng_to := Some rto |};
                            cs_store_at := Some store_at;
                            cs_store_format := Some sf;
                            cs_params := Some modbus_params |} |}.

End Encode.

(** ** The decoder (dvk_decode.py) *)

Module Decode.

(** One hexadecimal digit, lower case, as [bytes.hex] writes it. *)
Definition hex_char (n : Z) : ascii :=
  ascii_of_N (Z.to_N (if n <? 10 then 48 + n else 87 + n)).

(** [data.hex()] *)
Fixpoint hex (data : list byte) : string :=
  match data with
  | [] => EmptyString
  | b :: data' =>
    String (hex_char (Py.b2z b / 16)) (String (hex_char (Py.b2z b mod 16)) (hex data'))
  end.

(** [struct.unpack] of an unsigned and of a signed integer, the bytes
    in little or big endian order. *)
Definition unpack_uint (little : bool) (raw : list byte) : Z :=
  if little then Py.from_bytes_le raw else Py.from_bytes_be raw.

Definition unpack_int (little : bool) (raw : list byte) : Z :=
  let u := unpack_uint little raw in
  let m := 256 ^ Py.len raw in
  if u <? m / 2 then u else u - m.

(** The binary32 value with the given 32 bits, as the [float] that
    [struct.unpack("<f", ...)] returns: every binary32 value is a
    binary64 value. *)
Definition float_of_bits32 (bits : Z) : float :=
  let sign := negb (bits / 2 ^ 31 =? 0) in
  let e := (bits / 2 ^ 23) mod 256 in
  let m := bits mod 2 ^ 23 in
  SF2Prim
    (if e =? 255 then
       if m =? 0 then SpecFloat.S754_infinity sign else SpecFloat.S754_nan
     else if e =? 0 then
       if m =? 0 then SpecFloat.S754_zero sign
       else SpecFloat.S754_finite sign (Z.to_pos m) (-149)
     else SpecFloat.S754_finite sign (Z.to_pos (m + 2 ^ 23)) (e - 150)).

(** [parse_value(data, value_type)]: [None] when the data is too short
    for the type, the hexadecimal text of the data for the type "bytes"
    and for any type the function does not know. *)
Definition parse_value (data : list byte) (value_type : string) : pyval :=
  let sized (n : Z) (value : list byte -> pyval) : pyval :=
    if n <=? Py.len data then value (Py.slice data 0 n) else VNone in
  if String.eqb value_type "uint8" then
    match data with
    | b :: _ => VInt (Py.b2z b)
    | [] => VNone
    end
  else if String.eqb value_type "int8" then
    sized 1 (fun raw => VInt (unpack_int true raw))
  else if String.eqb value_type "uint16_le" then
    sized 2 (fun raw => VInt (unpack_uint true raw))
  else if String.eqb value_type "uint16_be" then
    sized 2 (fun raw => VInt (unpack_uint false raw))
  else if String.eqb value_type "int16_le" then
    sized 2 (fun raw => VInt (unpack_int true raw))
  else if String.eqb value_type "int16_be" then
    sized 2 (fun raw => VInt (unpack_int false raw))
  else if String.eqb value_type "uint32_le" then
    sized 4 (fun raw => VInt (unpack_uint true raw))
  else if String.eqb value_type "uint32_be" then
    sized 4 (fun raw => VInt (unpack_uint false raw))
  else if String.eqb value_type "int32_le" then
    sized 4 (fun raw => VInt (unpack_int true raw))
  else if String.eqb value_type "int32_be" then
    sized 4 (fun raw => VInt (unpack_int false raw))
  else if String.eqb value_type "float32_le" then
    sized 4 (fun raw => VFloat (float_of_bits32 (unpack_uint true raw)))
  else if String.eqb value_type "float32_be" then
    sized 4 (fun raw => VFloat (float_of_bits32 (unpack_uint false raw)))
  else VStr (hex data).

(** The integer types of a protocol field: signedness, byte order and size. *)
Inductive int_type : string -> bool -> bool -> nat -> Prop :=
| ty_uint8 : int_type "uint8" false true 1
| ty_int8 : int_type "int8" true true 1
| ty_uint16_le : int_type "uint16_le" false true 2
| ty_uint16_be : int_type "uint16_be" false false 2
| ty_int16_le : int_type "int16_le" true true 2
| ty_int16_be : int_type "int16_be" true false 2
| ty_uint32_le : int_type "uint32_le" false true 4
| ty_uint32_be : int_type "uint32_be" false false 4
| ty_int32_le : int_type "int32_le" true true 4
| ty_int32_be : int_type "int32_be" true false 4.

End Decode.

(** * Properties *)

(** [lia] also decides goals with division and remainder by constants. *)
Ltac Zify.zify_post_hook ::= Z.to_euclidean_division_equations.

(** ** Bytes and Python sequences *)

Lemma b2z_bound (b : byte) : 0 <= Py.b2z b < 256.
Proof.
  unfold Py.b2z. pose proof (Byte.to_N_bounded b). lia.
Qed.

Lemma b2z_z2b (z : Z) : Py.b2z (Py.z2b z) = z mod 256.
Proof.
  unfold Py.b2z, Py.z2b.
  assert (Hr : 0 <= z mod 256 < 256) by (apply Z.mod_pos_bound; lia).
  destruct (Byte.of_N (Z.to_N (z mod 256))) as [b|] eqn:E.
  - apply Byte.to_of_N in E. rewrite E. lia.
  - apply Byte.of_N_None_iff in E. lia.
Qed.

Lemma z2b_b2z (b : byte) : Py.z2b (Py.b2z b) = b.
Proof.
  unfold Py.z2b, Py.b2z. pose proof (Byte.to_N_bounded b).
  rewrite Z.mod_small by lia. rewrite N2Z.id. now rewrite Byte.of_to_N.
Qed.

Lemma lor_shiftl_8 (lo hi : Z) :
  0 <= lo < 256 -> 0 <= hi -> Z.lor lo (Z.shiftl hi 8) = lo + 256 * hi.
Proof.
  intros Hlo Hhi.
  assert (Hdisj : Z.land lo (Z.shiftl hi 8) = 0).
  { apply Z.bits_inj'. intros n Hn. rewrite Z.land_spec, Z.bits_0.
    destruct (Z.lt_ge_cases n 8).
    - rewrite (Z.shiftl_spec_low hi 8 n) by lia. apply andb_false_r.
    - rewrite (Z.bits_above_log2 lo n); [reflexivity | lia |].
      destruct (Z.eq_dec lo 0) as [->|]; [simpl; lia |].
      apply Z.log2_lt_pow2; [lia |].
      apply Z.lt_le_trans with (2 ^ 8); [lia | apply Z.pow_le_mono_r; lia]. }
  rewrite <- Z.lxor_lor by exact Hdisj.
  rewrite <- Z.add_nocarry_lxor by exact Hdisj.
  rewrite Z.shiftl_mul_pow2 by lia. lia.
Qed.

Lemma getitem_lookup (l : list byte) (i : nat) (b : byte) :
  l !! i = Some b -> Py.getitem l (Z.of_nat i) = Ok (Py.b2z b).
Proof.
  intros H. unfold Py.getitem, Py.len.
  pose proof (lookup_lt_Some _ _ _ H).
  destruct (Z.ltb_spec (Z.of_nat i) 0); [lia |].
  destruct (Z.leb_spec 0 (Z.of_nat i)); [| lia].
  destruct (Z.ltb_spec (Z.of_nat i) (Z.of_nat (length l))); [| lia].
  simpl. now rewrite Nat2Z.id, H.
Qed.

(** ** C9: CS15 *)

Lemma cs15_step_eval (data : list byte) (chk32 : Z) (i : nat) (lo hi : byte) :
  data !! i = Some lo -> data !! S i = Some hi ->
  cs15_step data chk32 (Z.of_nat i) = Ok (2 * chk32 + (Py.b2z lo + 256 * Py.b2z hi)).
Proof.
  intros Hlo Hhi. unfold cs15_step.
  rewrite (getitem_lookup _ _ _ Hlo).
  replace (Z.of_nat i + 1) with (Z.of_nat (S i)) by lia.
  rewrite (getitem_lookup _ _ _ Hhi).
  cbn [mbind res_bind mret res_ret].
  rewrite lor_shiftl_8 by (pose proof (b2z_bound lo); pose proof (b2z_bound hi); lia).
  rewrite Z.shiftl_mul_pow2 by lia. f_equal. lia.
Qed.

Lemma cs15_loop (rest pre : list byte) (acc : Z) (m : nat) :
  length rest = (2 * m)%nat ->
  foldM (cs15_step (pre ++ rest)) acc
        (map (fun k => Py.len pre + 2 * Z.of_nat k) (seq 0 m))
  = Ok (fold_left (fun chk32 w => 2 * chk32 + w) (Cs15Spec.words rest) acc).
Proof.
  revert rest pre acc. induction m as [|m IH]; intros rest pre acc Hlen.
  - destruct rest; [reflexivity | discriminate].
  - destruct rest as [|lo [|hi rest]]; try (simpl in Hlen; lia).
    rewrite <- cons_seq, <- fmap_S_seq. cbn [map foldM].
    replace (Py.len pre + 2 * Z.of_nat 0) with (Z.of_nat (length pre))
      by (unfold Py.len; lia).
    rewrite (cs15_step_eval _ _ _ lo hi).
    + cbn [mbind res_bind].
      specialize (IH rest (pre ++ [lo; hi])
                    (2 * acc + (Py.b2z lo + 256 * Py.b2z hi))).
      rewrite <- app_assoc in IH. cbn [app] in IH.
      cbn [Cs15Spec.words fold_left].
      rewrite <- IH by (simpl in Hlen; lia).
      f_equal. rewrite <- list_fmap_compose. apply list_fmap_ext.
      intros _ k _. cbn. unfold Py.len. rewrite length_app. simpl. lia.
    + rewrite lookup_app_r, Nat.sub_diag by lia. reflexivity.
    + rewrite lookup_app_r by lia.
      replace (S (length pre) - length pre)%nat with 1%nat by lia. reflexivity.
Qed.

(** C9. [checksum_cs15] never raises and computes the declared algorithm:
    the input is padded with one zero byte when its length is odd, each
    2-byte group is read as a little-endian 16-bit word, [chk32] is
    accumulated as [(chk32 << 1) + word] on unbounded integers, and the
    result is [((chk32 & 0x7FFF) + (chk32 >> 15)) & 0x7FFF]; on the two
    bytes 01 02 the checksum is 0x0201. *)
Theorem checksum_cs15_meets_spec :
  (forall data : list byte, checksum_cs15 data = Ok (Cs15Spec.cs15 data)) /\
  checksum_cs15 [x01; x02] = Ok 513.
Proof.
  split; [| reflexivity].
  intros data. unfold checksum_cs15, Cs15Spec.cs15.
  set (padded := if Py.len data mod 2 =? 1 then data ++ [x00] else data).
  assert (Hpad : padded = Cs15Spec.pad data).
  { unfold padded, Cs15Spec.pad, Py.len.
    destruct (Nat.even (length data)) eqn:E.
    - apply Nat.even_spec in E as [k Hk].
      destruct (Z.eqb_spec (Z.of_nat (length data) mod 2) 1) as [H|H]; [| reflexivity].
      exfalso. rewrite Hk in H. lia.
    - destruct (Z.eqb_spec (Z.of_nat (length data) mod 2) 1) as [H|H]; [reflexivity |].
      rewrite <- Nat.negb_odd in E. apply negb_false_iff, Nat.odd_spec in E as [k Hk].
      exfalso. rewrite Hk in H. lia. }
  assert (Heven : exists m, length padded = (2 * m)%nat).
  { rewrite Hpad. unfold Cs15Spec.pad.
    destruct (Nat.even (length data)) eqn:E.
    - apply Nat.even_spec in E as [k Hk]. eauto.
    - rewrite <- Nat.negb_odd in E. apply negb_false_iff, Nat.odd_spec in E as [k Hk].
      exists (S k). rewrite length_app. simpl. lia. }
  destruct Heven as [m Hm].
  assert (Hrange : Py.range 0 (Py.len padded) 2
                   = map (fun k => Py.len (@nil byte) + 2 * Z.of_nat k) (seq 0 m)).
  { unfold Py.range, Py.len. rewrite Hm.
    replace (Z.to_nat ((Z.of_nat (2 * m) - 0 + 2 - 1) / 2)) with m; [reflexivity |].
    replace (Z.of_nat (2 * m) - 0 + 2 - 1) with (1 + Z.of_nat m * 2) by lia.
    rewrite Z.div_add by lia. simpl. lia. }
  rewrite Hrange.
  pose proof (cs15_loop padded [] 0 m Hm) as Hloop. cbn [app] in Hloop.
  rewrite Hloop. cbn [mbind res_bind mret res_ret].
  rewrite <- Hpad. unfold Cs15Spec.accumulate.
  change 32767 with (Z.ones 15).
  rewrite !Z.land_ones, Z.shiftr_div_pow2 by lia. reflexivity.
Qed.

(** ** C4, C6: the shared-memory ring *)

Lemma slice_drop {A : Type} (l : list A) (a : Z) :
  0 <= a <= Z.of_nat (length l) ->
  Py.slice l a (Z.of_nat (length l)) = drop (Z.to_nat a) l.
Proof.
  intros Ha. unfold Py.slice, Py.clamp, Py.len in *.
  destruct (Z.ltb_spec a 0); [lia |].
  destruct (Z.ltb_spec (Z.of_nat (length l)) 0); [lia |].
  rewrite !Z.min_l by lia.
  apply take_ge. rewrite length_drop. lia.
Qed.

Lemma slice_take {A : Type} (l : list A) (b : Z) :
  0 <= b <= Z.of_nat (length l) -> Py.slice l 0 b = take (Z.to_nat b) l.
Proof.
  intros Hb. unfold Py.slice, Py.clamp, Py.len in *.
  destruct (Z.ltb_spec b 0); [lia |]. simpl.
  rewrite !Z.min_l by lia.
  now rewrite Z.sub_0_r, drop_0.
Qed.

Lemma slice_last {A : Type} (l : list A) (k : Z) :
  0 < k <= Z.of_nat (length l) ->
  Py.slice l (- k) (Z.of_nat (length l)) = drop (Z.to_nat (Z.of_nat (length l) - k)) l.
Proof.
  intros Hk. unfold Py.slice, Py.clamp, Py.len in *.
  destruct (Z.ltb_spec (- k) 0); [| lia].
  destruct (Z.ltb_spec (Z.of_nat (length l)) 0); [lia |].
  rewrite Z.max_r, Z.min_l by lia.
  replace (- k + Z.of_nat (length l)) with (Z.of_nat (length l) - k) by lia.
  apply take_ge. rewrite length_drop. lia.
Qed.

Lemma np_assign_exact (arr rows : list Shm.Point) (a b : Z) :
  0 <= a <= b -> b <= Z.of_nat (length arr) -> Z.of_nat (length rows) = b - a ->
  Shm.np_assign arr a b rows
  = Ok (take (Z.to_nat a) arr ++ rows ++ drop (Z.to_nat b) arr).
Proof.
  intros Hab Hb Hrows. unfold Shm.np_assign, Py.clamp, Py.len in *.
  destruct (Z.ltb_spec a 0); [lia |]. destruct (Z.ltb_spec b 0); [lia |].
  rewrite !Z.min_l by lia.
  replace (length rows =? Z.to_nat (b - a))%nat with true
    by (symmetry; apply Nat.eqb_eq; lia).
  replace (Z.to_nat a + Z.to_nat (b - a))%nat with (Z.to_nat b) by lia.
  reflexivity.
Qed.

Lemma store_uint_ok (bits v : Z) :
  0 <= v < 2 ^ bits -> Shm.store_uint bits v = Ok v.
Proof.
  intros Hv. unfold Shm.store_uint.
  destruct (Z.leb_spec 0 v); [| lia].
  destruct (Z.ltb_spec v (2 ^ bits)); [reflexivity | lia].
Qed.

Lemma mod_shift (j w cap : Z) :
  0 <= j < cap -> 0 <= w < cap ->
  (j - w) mod cap = if j <? w then j - w + cap else j - w.
Proof.
  intros Hj Hw. destruct (Z.ltb_spec j w).
  - symmetry. apply (Z.mod_unique_pos _ _ (-1)); lia.
  - apply Z.mod_small. lia.
Qed.

(** The ring after a batch shorter than the capacity: slot [j] holds
    row [(j - w) mod cap] of the batch when that index is below [n],
    and its old content otherwise. *)
Lemma write_points_short (h : Shm.ShmHandles) (rows : list Shm.Point) (now : Z) :
  Shm.wf h -> 0 < Py.len rows < Shm.capacity (Shm.ctrl h) ->
  0 <= Shm.seq (Shm.ctrl h) + 1 < 2 ^ 64 -> 0 <= now < 2 ^ 64 ->
  exists d,
    Shm.write_points h rows now
    = Ok {| Shm.ctrl :=
              {| Shm.version := Shm.version (Shm.ctrl h);
                 Shm.capacity := Shm.capacity (Shm.ctrl h);
                 Shm.write_index :=
                   (Shm.write_index (Shm.ctrl h) + Py.len rows) mod Shm.capacity (Shm.ctrl h);
                 Shm.seq := Shm.seq (Shm.ctrl h) + 1;
                 Shm.last_write_ns := now |};
            Shm.data := d |} /\
    length d = length (Shm.data h) /\
    forall j : Z, 0 <= j < Shm.capacity (Shm.ctrl h) ->
      d !! Z.to_nat j =
      if (j - Shm.write_index (Shm.ctrl h)) mod Shm.capacity (Shm.ctrl h) <? Py.len rows
      then rows !! Z.to_nat ((j - Shm.write_index (Shm.ctrl h)) mod Shm.capacity (Shm.ctrl h))
      else Shm.data h !! Z.to_nat j.
Proof.
  destruct h as [[ver cap w sq ts] dat]. unfold Shm.wf. cbn [Shm.ctrl Shm.data
    Shm.capacity Shm.write_index Shm.seq Shm.version].
  intros (Hlen & Hcap & Hw) Hn Hsq Hnow.
  unfold Shm.write_points. cbn [Shm.ctrl Shm.data Shm.capacity Shm.write_index
    Shm.seq Shm.version].
  set (n := Py.len rows) in *.
  destruct (Z.leb_spec n 0); [lia |].
  destruct (Z.leb_spec cap n); [lia |].
  assert (Hmod : Shm.py_mod (w + n) cap = Ok ((w + n) mod cap)).
  { unfold Shm.py_mod. destruct (Z.eqb_spec cap 0); [lia | reflexivity]. }
  assert (Hwi : 0 <= (w + n) mod cap < 2 ^ 32).
  { pose proof (Z.mod_pos_bound (w + n) cap). lia. }
  unfold Py.len in Hlen. subst n. unfold Py.len in *.
  destruct (Z.leb_spec (w + Z.of_nat (length rows)) cap) as [Hfit|Hwrap].
  - rewrite np_assign_exact by (unfold Py.len; lia).
    cbn [mbind res_bind]. rewrite Hmod. cbn [mbind res_bind].
    rewrite !store_uint_ok by assumption. cbn [mbind res_bind].
    eexists. split; [reflexivity |]. split.
    { rewrite !length_app, length_take, length_drop. lia. }
    intros j Hj. rewrite mod_shift by lia.
    destruct (Z.ltb_spec j w) as [Hlo|Hhi].
    + destruct (Z.ltb_spec (j - w + cap) (Z.of_nat (length rows))); [lia |].
      rewrite lookup_app_l by (rewrite length_take; lia).
      apply lookup_take_lt. lia.
    + rewrite lookup_app_r by (rewrite length_take; lia).
      rewrite length_take.
      replace (Z.to_nat j - Z.to_nat w `min` length dat)%nat with (Z.to_nat (j - w)) by lia.
      destruct (Z.ltb_spec (j - w) (Z.of_nat (length rows))).
      * apply lookup_app_l. lia.
      * rewrite lookup_app_r by lia. rewrite lookup_drop. f_equal. lia.
  - rewrite slice_take by (unfold Py.len; lia).
    rewrite (np_assign_exact dat _ w cap) by
      (unfold Py.len; rewrite ?length_take; lia).
    cbn [mbind res_bind].
    rewrite slice_drop by (unfold Py.len; lia).
    rewrite np_assign_exact by
      (unfold Py.len; rewrite ?length_app, ?length_take, ?length_drop; lia).
    cbn [mbind res_bind]. rewrite Hmod. cbn [mbind res_bind].
    rewrite !store_uint_ok by assumption. cbn [mbind res_bind].
    eexists. split; [reflexivity |]. split.
    { rewrite !length_app, !length_take, !length_drop, !length_app,
        !length_take, !length_drop. lia. }
    intros j Hj. change (Z.to_nat 0) with 0%nat. rewrite take_0. cbn [app].
    rewrite (drop_ge dat (Z.to_nat cap)) by lia. rewrite app_nil_r.
    rewrite mod_shift by lia.
    destruct (Z.ltb_spec j w) as [Hlo|Hhi].
    + destruct (Z.ltb_spec (j - w + cap) (Z.of_nat (length rows))).
      * rewrite lookup_app_l by (rewrite length_drop; lia).
        rewrite lookup_drop. f_equal. lia.
      * rewrite lookup_app_r by (rewrite length_drop; lia).
        rewrite lookup_drop, length_drop.
        rewrite lookup_app_l by (rewrite length_take; lia).
        rewrite lookup_take_lt by lia. f_equal. lia.
    + destruct (Z.ltb_spec (j - w) (Z.of_nat (length rows))); [| lia].
      rewrite lookup_app_r by (rewrite length_drop; lia).
      rewrite lookup_drop, length_drop.
      rewrite lookup_app_r by (rewrite length_take; lia).
      rewrite length_take. rewrite lookup_take_lt by lia. f_equal. lia.
Qed.

(** The ring after a batch at least as long as the capacity. *)
Lemma write_points_long (h : Shm.ShmHandles) (rows : list Shm.Point) (now : Z) :
  Shm.wf h -> Shm.capacity (Shm.ctrl h) <= Py.len rows ->
  0 <= Shm.seq (Shm.ctrl h) + 1 < 2 ^ 64 -> 0 <= now < 2 ^ 64 ->
  Shm.write_points h rows now
  = Ok {| Shm.ctrl :=
            {| Shm.version := Shm.version (Shm.ctrl h);
               Shm.capacity := Shm.capacity (Shm.ctrl h);
               Shm.write_index := 0;
               Shm.seq := Shm.seq (Shm.ctrl h) + 1;
               Shm.last_write_ns := now |};
          Shm.data := drop (Z.to_nat (Py.len rows - Shm.capacity (Shm.ctrl h))) rows |}.
Proof.
  destruct h as [[ver cap w sq ts] dat]. unfold Shm.wf. cbn [Shm.ctrl Shm.data
    Shm.capacity Shm.write_index Shm.seq Shm.version].
  intros (Hlen & Hcap & Hw) Hn Hsq Hnow.
  unfold Shm.write_points. cbn [Shm.ctrl Shm.data Shm.capacity Shm.write_index
    Shm.seq Shm.version].
  unfold Py.len in *.
  destruct (Z.leb_spec (Z.of_nat (length rows)) 0); [lia |].
  destruct (Z.leb_spec cap (Z.of_nat (length rows))); [| lia].
  rewrite slice_last by lia.
  destruct (Z.leb_spec (0 + cap) cap); [| lia].
  rewrite np_assign_exact by (rewrite ?length_drop; lia).
  cbn [mbind res_bind]. unfold Shm.py_mod.
  destruct (Z.eqb_spec cap 0); [lia |]. cbn [mbind res_bind].
  replace ((0 + cap) mod cap) with 0 by (rewrite Z.add_0_l, Z.mod_same; lia).
  rewrite !store_uint_ok by lia. cbn [mbind res_bind]. do 2 f_equal.
  change (Z.to_nat 0) with 0%nat. rewrite take_0. cbn [app].
  rewrite (drop_ge dat) by lia. apply app_nil_r.
Qed.

(** C4. For a well-formed ring of capacity [cap] and a non-empty batch of
    [n] rows, [write_points] succeeds; if [n >= cap] the data region holds
    exactly the last [cap] rows of the batch in order and [write_index]
    is 0; otherwise row [i] of the batch lands in slot
    [(write_index + i) mod cap], the new [write_index] is
    [(write_index + n) mod cap], and every other slot keeps its content. *)
Theorem write_points_policy (h : Shm.ShmHandles) (rows : list Shm.Point) (now : Z) :
  Shm.wf h -> 0 < Py.len rows ->
  0 <= Shm.seq (Shm.ctrl h) + 1 < 2 ^ 64 -> 0 <= now < 2 ^ 64 ->
  let cap := Shm.capacity (Shm.ctrl h) in
  let w := Shm.write_index (Shm.ctrl h) in
  let n := Py.len rows in
  exists h',
    Shm.write_points h rows now = Ok h' /\
    Shm.capacity (Shm.ctrl h') = cap /\
    length (Shm.data h') = length (Shm.data h) /\
    (cap <= n ->
       Shm.data h' = drop (Z.to_nat (n - cap)) rows /\
       Shm.write_index (Shm.ctrl h') = 0) /\
    (n < cap ->
       Shm.write_index (Shm.ctrl h') = (w + n) mod cap /\
       (forall i, 0 <= i < n ->
          Shm.data h' !! Z.to_nat ((w + i) mod cap) = rows !! Z.to_nat i) /\
       (forall j, 0 <= j < cap ->
          (forall i, 0 <= i < n -> j <> (w + i) mod cap) ->
          Shm.data h' !! Z.to_nat j = Shm.data h !! Z.to_nat j)).
Proof.
  intros Hwf Hn Hsq Hnow cap w n.
  destruct (Z.le_gt_cases cap n) as [Hlong|Hshort].
  - eexists. split; [apply write_points_long; assumption |].
    cbn [Shm.ctrl Shm.data Shm.capacity Shm.write_index].
    destruct Hwf as (Hlen & Hcap & Hw). unfold Py.len in *.
    repeat split; try reflexivity; try (intros; subst cap n; unfold Py.len in *; lia).
    rewrite length_drop. subst cap n. unfold Py.len in *. lia.
  - destruct (write_points_short h rows now Hwf) as (d & Hrun & Hd & Hslots);
      [subst cap n; lia | assumption | assumption |].
    eexists. split; [exact Hrun |].
    cbn [Shm.ctrl Shm.data Shm.capacity Shm.write_index].
    destruct Hwf as (Hlen & Hcap & Hw). fold cap w n in Hslots, Hcap, Hw.
    repeat split; try reflexivity; try assumption; try (intros; lia).
    + intros i Hi.
      assert (Hj : 0 <= (w + i) mod cap < cap) by (apply Z.mod_pos_bound; lia).
      rewrite (Hslots _ Hj).
      rewrite Zminus_mod_idemp_l.
      replace (w + i - w) with i by lia. rewrite Z.mod_small by lia.
      destruct (Z.ltb_spec i n); [reflexivity | lia].
    + intros j Hj Hfree. rewrite (Hslots _ Hj).
      destruct (Z.ltb_spec ((j - w) mod cap) n) as [Hin|]; [| reflexivity].
      exfalso. apply (Hfree ((j - w) mod cap)).
      * pose proof (Z.mod_pos_bound (j - w) cap). lia.
      * rewrite Zplus_mod_idemp_r. replace (w + (j - w)) with j by lia.
        symmetry. apply Z.mod_small. lia.
Qed.

(** Scenario 6 of the specification: capacity 4, six rows. *)
Lemma write_points_policy_witness :
  Shm.create_ring 4 = Ok Shm.ring4 /\
  exists h',
    Shm.write_points Shm.ring4 (map Shm.row [0; 1; 2; 3; 4; 5]) 1000 = Ok h' /\
    Shm.data h' = map Shm.row [2; 3; 4; 5] /\
    Shm.write_index (Shm.ctrl h') = 0.
Proof.
  split; [reflexivity |].
  destruct (write_points_policy Shm.ring4 (map Shm.row [0; 1; 2; 3; 4; 5]) 1000)
    as (h' & Hrun & _ & _ & Hlong & _).
  - unfold Shm.wf. vm_compute. repeat split; congruence.
  - reflexivity.
  - vm_compute. split; congruence.
  - vm_compute. split; congruence.
  - exists h'. split; [exact Hrun |]. apply Hlong. vm_compute. congruence.
Defined.

(** One call: an empty batch changes nothing; any other batch bumps
    [seq] by one and stamps the clock reading. *)
Lemma write_points_step (h : Shm.ShmHandles) (rows : list Shm.Point) (now : Z) :
  Shm.wf h ->
  0 <= Shm.seq (Shm.ctrl h) + 1 < 2 ^ 64 -> 0 <= now < 2 ^ 64 ->
  exists h',
    Shm.write_points h rows now = Ok h' /\ Shm.wf h' /\
    ((rows = [] /\ h' = h) \/
     (rows <> [] /\
      Shm.seq (Shm.ctrl h') = Shm.seq (Shm.ctrl h) + 1 /\
      Shm.last_write_ns (Shm.ctrl h') = now)).
Proof.
  intros Hwf Hsq Hnow.
  destruct rows as [|r rows].
  { exists h. repeat split; try apply Hwf. now left. }
  set (batch := r :: rows).
  assert (Hpos : 0 < Py.len batch) by (unfold Py.len, batch; simpl; lia).
  destruct (Z.le_gt_cases (Shm.capacity (Shm.ctrl h)) (Py.len batch)) as [Hc|Hc].
  - eexists. split; [apply write_points_long; assumption |].
    split; [| right; repeat split; discriminate].
    destruct Hwf as (Hl & Hcap & Hw). unfold Shm.wf, Py.len in *.
    cbn [Shm.ctrl Shm.data Shm.capacity Shm.write_index].
    rewrite length_drop. lia.
  - destruct (write_points_short h batch now Hwf) as (d & Hrun & Hd & _);
      [lia | assumption | assumption |].
    eexists. split; [exact Hrun |].
    split; [| right; repeat split; discriminate].
    destruct Hwf as (Hl & Hcap & Hw). unfold Shm.wf, Py.len in *.
    cbn [Shm.ctrl Shm.data Shm.capacity Shm.write_index].
    rewrite Hd.
    pose proof (Z.mod_pos_bound
                  (Shm.write_index (Shm.ctrl h) + Z.of_nat (length batch))
                  (Shm.capacity (Shm.ctrl h))).
    lia.
Qed.

(** C6 (amended). Over any sequence of calls to [write_points] on a
    well-formed ring, [seq] grows by exactly one at every call that
    carries rows and is left alone by a call with an empty batch: it
    never decreases, and it is strictly increasing along a sequence of
    non-empty batches. [last_write_ns] is the clock reading of the
    latest call that carried rows, whatever that reading is: it is
    non-decreasing when the successive readings are. The calls succeed
    as long as the 64-bit fields can hold the values. *)
Theorem write_points_monotone (h : Shm.ShmHandles) (calls : list (list Shm.Point * Z)) :
  Shm.wf h ->
  0 <= Shm.seq (Shm.ctrl h) ->
  Shm.seq (Shm.ctrl h) + Py.len calls < 2 ^ 64 ->
  Forall (fun c => 0 <= c.2 < 2 ^ 64) calls ->
  exists hs,
    Shm.write_all h calls = Ok hs /\
    length hs = length calls /\
    map (fun s => Shm.seq (Shm.ctrl s)) hs = Shm.seqs (Shm.seq (Shm.ctrl h)) calls /\
    StronglySorted Z.le (map (fun s => Shm.seq (Shm.ctrl s)) (h :: hs)) /\
    (Forall (fun c => c.1 <> []) calls ->
     StronglySorted Z.lt (map (fun s => Shm.seq (Shm.ctrl s)) (h :: hs))) /\
    map (fun s => Shm.last_write_ns (Shm.ctrl s)) hs
    = Shm.stamps (Shm.last_write_ns (Shm.ctrl h)) calls /\
    (StronglySorted Z.le (Shm.last_write_ns (Shm.ctrl h) :: map snd calls) ->
     StronglySorted Z.le (map (fun s => Shm.last_write_ns (Shm.ctrl s)) (h :: hs))).
Proof.
  revert h. induction calls as [|[rows now] calls IH]; intros h Hwf Hsq0 Hsq Hclk.
  { exists []. cbn. repeat split; intros; repeat constructor. }
  unfold Py.len in Hsq. cbn [length] in Hsq.
  apply Forall_cons in Hclk as [Hnow Hclk]. cbn [snd] in Hnow.
  destruct (write_points_step h rows now Hwf) as (h' & Hrun & Hwf' & Hcase);
    [lia | assumption |].
  assert (Hseq' : Shm.seq (Shm.ctrl h) <= Shm.seq (Shm.ctrl h') <= Shm.seq (Shm.ctrl h) + 1).
  { destruct Hcase as [[_ ->]|(_ & -> & _)]; lia. }
  destruct (IH h' Hwf') as (hs & Hall & Hlen & Hseqs & Hs1 & Hs3 & Hstamps & Hs2);
    [lia | unfold Py.len; lia | assumption |].
  exists (h' :: hs). cbn [Shm.write_all]. rewrite Hrun. cbn [mbind res_bind].
  rewrite Hall. cbn [mbind res_bind]. split; [reflexivity |].
  split; [cbn; lia |].
  assert (Hext : forall (R : Z -> Z -> Prop) (f : Shm.ShmHandles -> Z),
             Transitive R -> R (f h) (f h') ->
             StronglySorted R (map f (h' :: hs)) ->
             StronglySorted R (map f (h :: h' :: hs))).
  { intros R f HR Hhd Hss. cbn [map] in *. constructor; [exact Hss |].
    constructor; [exact Hhd |].
    apply StronglySorted_inv in Hss as [_ Hall'].
    eapply Forall_impl; [exact Hall' |]. intros z Hz. cbv beta. now transitivity (f h'). }
  split; [| split; [| split; [| split]]].
  - cbn [map Shm.seqs]. rewrite Hseqs.
    destruct Hcase as [[-> ->]|(Hne & -> & _)]; [reflexivity |].
    destruct rows; [congruence | reflexivity].
  - apply Hext; [exact Z.le_trans | lia | exact Hs1].
  - intros Hne. apply Forall_cons in Hne as [Hne1 Hne].
    apply Hext; [exact Z.lt_trans | | exact (Hs3 Hne)].
    destruct Hcase as [[-> _]|(_ & -> & _)]; [now cbn in Hne1 | lia].
  - cbn [map Shm.stamps]. rewrite Hstamps.
    destruct Hcase as [[-> ->]|(Hne & _ & ->)]; [reflexivity |].
    destruct rows; [congruence | reflexivity].
  - intros Hsorted. cbn [map snd] in Hsorted.
    apply StronglySorted_inv in Hsorted as [Hsorted Hfirst].
    apply Forall_cons in Hfirst as [Hle Hrest].
    apply Hext; [exact Z.le_trans | |].
    + destruct Hcase as [[_ ->]|(_ & _ & ->)]; lia.
    + apply Hs2. destruct Hcase as [[_ ->]|(_ & _ & ->)]; [| assumption].
      constructor; [now apply StronglySorted_inv in Hsorted as [? _] | assumption].
Qed.

Lemma write_points_monotone_witness :
  exists hs,
    Shm.write_all Shm.ring4
      [(map Shm.row [0; 1; 2; 3; 4; 5], 1000); ([], 1001); ([Shm.row 6], 1002)]
    = Ok hs /\
    map (fun s => Shm.seq (Shm.ctrl s)) hs = [1; 1; 2] /\
    map (fun s => Shm.last_write_ns (Shm.ctrl s)) hs = [1000; 1000; 1002] /\
    StronglySorted Z.le (map (fun s => Shm.last_write_ns (Shm.ctrl s)) (Shm.ring4 :: hs)).
Proof.
  destruct (write_points_monotone Shm.ring4
              [(map Shm.row [0; 1; 2; 3; 4; 5], 1000); ([], 1001); ([Shm.row 6], 1002)])
    as (hs & Hrun & _ & Hseqs & _ & _ & Hstamps & Hsorted).
  - unfold Shm.wf. vm_compute. repeat split; congruence.
  - vm_compute. congruence.
  - reflexivity.
  - repeat constructor; vm_compute; congruence.
  - exists hs. split; [exact Hrun |].
    split; [exact Hseqs |]. split; [exact Hstamps |].
    apply Hsorted. repeat constructor; vm_compute; congruence.
Defined.

(** C6 (counterexample). The clock is the wall clock, which can be set
    back: two writes, the second at a reading below the first, leave
    [last_write_ns] at 1000 and then at 999, while [seq] goes from 1
    to 2. *)
Lemma write_points_clock_steps_back :
  exists hs,
    Shm.write_all Shm.ring4 [([Shm.row 0], 1000); ([Shm.row 1], 999)] = Ok hs /\
    map (fun s => Shm.seq (Shm.ctrl s)) hs = [1; 2] /\
    map (fun s => Shm.last_write_ns (Shm.ctrl s)) hs = [1000; 999] /\
    ~ StronglySorted Z.le
        (map (fun s => Shm.last_write_ns (Shm.ctrl s)) (Shm.ring4 :: hs)).
Proof.
  eexists. split; [vm_compute; reflexivity |].
  split; [reflexivity |]. split; [reflexivity |].
  intros Hsorted. cbn [map] in Hsorted.
  apply StronglySorted_inv in Hsorted as [Hsorted _].
  apply StronglySorted_inv in Hsorted as [_ Hfirst].
  apply Forall_cons in Hfirst as [Hle _].
  vm_compute in Hle. congruence.
Qed.

(** ** C1, C2, C10: the framer *)

Lemma starts_with_iff (sub buf : list byte) :
  Py.starts_with sub buf = true <-> exists r, buf = sub ++ r.
Proof.
  revert buf. induction sub as [|s sub IH]; intros buf; simpl.
  - split; eauto.
  - destruct buf as [|b buf].
    + split; [discriminate | intros [r Hr]; discriminate].
    + rewrite andb_true_iff, IH. split.
      * intros [Hb [r ->]]. exists r. f_equal.
        apply Byte.byte_dec_bl in Hb. now subst.
      * intros [r Hr]. injection Hr as -> ->. split; [| eauto].
        apply Byte.byte_dec_lb. reflexivity.
Qed.

Lemma find_hit (sub buf : list byte) :
  Py.starts_with sub buf = true -> Py.find buf sub = 0.
Proof.
  intros H. unfold Py.find. destruct buf; simpl; now rewrite H.
Qed.

Lemma find_short (sub buf : list byte) (i : Z) :
  (length buf < length sub)%nat -> Py.find_from sub buf i = -1.
Proof.
  revert i. induction buf as [|b buf IH]; intros i Hlen.
  - destruct sub; [simpl in Hlen; lia | reflexivity].
  - simpl.
    destruct (Py.starts_with sub (b :: buf)) eqn:E.
    + apply starts_with_iff in E as [r Hr].
      apply (f_equal length) in Hr. rewrite length_app in Hr. simpl in *. lia.
    + apply IH. simpl in Hlen. lia.
Qed.

(** Two buffers that are prefixes of one stream agree where both reach. *)
Lemma take_common {A : Type} (l1 l2 r1 r2 : list A) (n : nat) :
  l1 ++ r1 = l2 ++ r2 -> (n <= length l1)%nat -> (n <= length l2)%nat ->
  take n l1 = take n l2.
Proof.
  intros Heq H1 H2.
  rewrite <- (take_app_le l1 r1 n H1), <- (take_app_le l2 r2 n H2).
  now rewrite Heq.
Qed.

Lemma slice_inner {A : Type} (l : list A) (a b : Z) :
  0 <= a -> a <= b -> b <= Z.of_nat (length l) ->
  Py.slice l a b = drop (Z.to_nat a) (take (Z.to_nat b) l).
Proof.
  intros Ha Hab Hb. unfold Py.slice, Py.clamp, Py.len.
  destruct (Z.ltb_spec a 0); [lia |]. destruct (Z.ltb_spec b 0); [lia |].
  rewrite !Z.min_l by lia.
  rewrite take_drop_commute. f_equal. f_equal. lia.
Qed.

Lemma slice_common (l1 l2 r1 r2 : list byte) (a b : Z) :
  l1 ++ r1 = l2 ++ r2 -> 0 <= a -> a <= b ->
  b <= Z.of_nat (length l1) -> b <= Z.of_nat (length l2) ->
  Py.slice l1 a b = Py.slice l2 a b.
Proof.
  intros Heq Ha Hab H1 H2.
  rewrite !slice_inner by lia. f_equal.
  apply (take_common _ _ _ _ _ Heq); lia.
Qed.

(** On a buffer that shares its start with a valid message, the length
    rule either asks for more bytes or gives the length of the message. *)
Lemma total_length_prefix (ls : Transport.LengthSpec) (m buf r1 r2 : list byte) :
  Transport.length_field_sane ls ->
  Transport.total_length ls m = Ok (Py.len m) ->
  buf ++ r1 = m ++ r2 ->
  (Transport.total_length ls buf = Ok (-1) /\ Py.len buf < Py.len m) \/
  Transport.total_length ls buf = Ok (Py.len m).
Proof.
  intros Hsane Hm Heq. unfold Transport.total_length in *.
  destruct (String.eqb (Transport.mode ls) "fixed") eqn:Hfixed; [now right |].
  destruct Hsane as [Hmode|(off & flen & Hoff & Hflen & Hoff0 & Hflen0)].
  { rewrite Hmode in Hfixed. discriminate. }
  rewrite Hoff, Hflen in *. cbn [Transport.assert_some mbind res_bind] in *.
  assert (Hcore : forall (k : Z -> Z) (ty : string),
    (if Py.len m <? off + flen then Ok (-1)
     else Transport.parse_uint (Py.slice m off (off + flen)) ty ≫= (fun v => Ok (k v)))
    = Ok (Py.len m) ->
    ((if Py.len buf <? off + flen then Ok (-1)
      else Transport.parse_uint (Py.slice buf off (off + flen)) ty ≫= (fun v => Ok (k v)))
     = Ok (-1) /\ Py.len buf < Py.len m) \/
    (if Py.len buf <? off + flen then Ok (-1)
     else Transport.parse_uint (Py.slice buf off (off + flen)) ty ≫= (fun v => Ok (k v)))
    = Ok (Py.len m)).
  { intros k ty H. unfold Py.len in *.
    destruct (Z.ltb_spec (Z.of_nat (length m)) (off + flen)) as [|Hfits].
    { injection H as H. lia. }
    destruct (Z.ltb_spec (Z.of_nat (length buf)) (off + flen)) as [Hshort|Hlong].
    - left. split; [reflexivity | lia].
    - right. rewrite (slice_common buf m r1 r2) by (try assumption; lia). exact H. }
  destruct (String.eqb (Transport.mode ls) "counted").
  - destruct (Transport.field_type ls) as [ty|]; [| discriminate].
    destruct (Transport.unit_bytes ls) as [ub|]; [| discriminate].
    destruct (Transport.overhead_bytes ls) as [ov|]; [| discriminate].
    cbn [Transport.assert_some mbind res_bind] in *.
    exact (Hcore (fun count => count * ub + ov) ty Hm).
  - destruct (Transport.field_type ls) as [ty|]; [| discriminate].
    destruct (Transport.overhead_bytes ls) as [ov|]; [| discriminate].
    cbn [Transport.assert_some mbind res_bind] in *.
    exact (Hcore (fun payload_len => payload_len + ov) ty Hm).
Qed.

Section FramerCompleteness.

Variables (header : list byte) (ls : Transport.LengthSpec).
Variables (cs : option ChecksumSpec) (enable : bool).
Hypothesis header_nonempty : header <> [].
Hypothesis ls_sane : Transport.length_field_sane ls.

Let valid := Transport.valid_frame header ls cs enable.

Lemma valid_frame_length (m : list byte) :
  valid m -> (length header <= length m)%nat /\ (0 < length m)%nat.
Proof.
  intros (Hh & _). apply starts_with_iff in Hh as [r ->].
  rewrite length_app. destruct header; [congruence | simpl; lia].
Qed.

(** The inner loop on a buffer that begins the messages [ms]: it emits
    the first [k] of them, as many as the buffer holds whole, and stops
    on the first one that is not complete yet. *)
Lemma inner_loop_frames (ms : list (list byte)) :
  Forall valid ms ->
  forall (st : Transport.State) (fut : list byte) (fuel : nat),
  Transport.buf st ++ fut = concat ms ->
  (length ms < fuel)%nat ->
  exists (k : nat) (st' : Transport.State),
    (k <= length ms)%nat /\
    Transport.inner_loop fuel header ls cs enable st = Returns st' /\
    Transport.written st' = Transport.written st ++ take k ms /\
    Transport.stats st' = Nat.iter k Transport.add_ok (Transport.stats st) /\
    Transport.buf st' ++ fut = concat (drop k ms) /\
    (forall m rest, drop k ms = m :: rest ->
       (length (Transport.buf st') < length m)%nat).
Proof.
  induction 1 as [|m ms Hm Hms IH]; intros st fut fuel Hbuf Hfuel;
    (destruct fuel as [|fuel]; [simpl in Hfuel; lia |]).
  - simpl in Hbuf. apply app_eq_nil in Hbuf as [Hb Hf].
    assert (Hstep : Transport.inner_step header ls cs enable st = Ok (Transport.Break st)).
    { unfold Transport.inner_step, Py.find. rewrite Hb.
      rewrite find_short by (destruct header; [congruence | simpl; lia]).
      change (-1 <? 0) with true. cbv iota.
      destruct (Z.ltb_spec (Py.len header) (Py.len (@nil byte))) as [E|_];
        [unfold Py.len in E; simpl in E; lia | reflexivity]. }
    exists 0%nat, st. cbn [Transport.inner_loop]. rewrite Hstep.
    cbn. rewrite app_nil_r, Hb, Hf.
    repeat split; try reflexivity; try lia. intros ? ? ?. discriminate.
  - pose proof (valid_frame_length m Hm) as [Hhm Hmpos].
    destruct Hm as (Hstart & Htotal & Hsum).
    cbn [concat] in Hbuf.
    (* the answer when the loop leaves at once *)
    assert (Hstop : forall st0,
      st0 = st -> (length (Transport.buf st) < length m)%nat ->
      Transport.inner_step header ls cs enable st = Ok (Transport.Break st0) ->
      exists (k : nat) (st' : Transport.State),
        (k <= length (m :: ms))%nat /\
        Transport.inner_loop (S fuel) header ls cs enable st = Returns st' /\
        Transport.written st' = Transport.written st ++ take k (m :: ms) /\
        Transport.stats st' = Nat.iter k Transport.add_ok (Transport.stats st) /\
        Transport.buf st' ++ fut = concat (drop k (m :: ms)) /\
        (forall m0 rest, drop k (m :: ms) = m0 :: rest ->
           (length (Transport.buf st') < length m0)%nat)).
    { intros st0 -> Hlt Hstep. exists 0%nat, st.
      cbn [Transport.inner_loop]. rewrite Hstep. cbn.
      rewrite app_nil_r. repeat split; try reflexivity; try lia; try assumption.
      intros m0 rest [= <- <-]. exact Hlt. }
    destruct (Nat.lt_ge_cases (length (Transport.buf st)) (length header)) as [Hshort|Hlong].
    { apply (Hstop st eq_refl); [lia |].
      unfold Transport.inner_step, Py.find. rewrite find_short by assumption.
      cbn. destruct (Z.ltb_spec (Py.len header) (Py.len (Transport.buf st)));
        [unfold Py.len in *; lia | reflexivity]. }
    assert (Hhit : Py.starts_with header (Transport.buf st) = true).
    { apply starts_with_iff in Hstart as [r Hr].
      apply starts_with_iff. exists (drop (length header) (Transport.buf st)).
      rewrite <- (take_drop (length header) (Transport.buf st)) at 1. f_equal.
      rewrite (take_common _ m fut (concat ms) _ Hbuf) by lia.
      rewrite Hr. now rewrite take_app_length. }
    assert (Hstep0 : Transport.inner_step header ls cs enable st =
      (total_len ← Transport.total_length ls (Transport.buf st);
       if total_len <? 0 then Ok (Transport.Break st)
       else if Py.len (Transport.buf st) <? total_len then Ok (Transport.Break st)
       else
         let frame := Py.slice (Transport.buf st) 0 total_len in
         let st1 := {| Transport.stats := Transport.stats st;
                       Transport.buf := Py.del_prefix (Transport.buf st) total_len;
                       Transport.written := Transport.written st |} in
         match (if enable then cs else None) with
         | Some spec =>
           match verify_checksum frame spec with
           | Ok true => Ok (Transport.Continue
                 {| Transport.stats := Transport.add_ok (Transport.stats st1);
                    Transport.buf := Transport.buf st1;
                    Transport.written := Transport.written st1 ++ [frame] |})
           | _ => Ok (Transport.Continue
                 {| Transport.stats := Transport.add_bad (Transport.stats st1);
                    Transport.buf := Transport.buf st1;
                    Transport.written := Transport.written st1 |})
           end
         | None => Ok (Transport.Continue
                 {| Transport.stats := Transport.add_ok (Transport.stats st1);
                    Transport.buf := Transport.buf st1;
                    Transport.written := Transport.written st1 ++ [frame] |})
         end)).
    { unfold Transport.inner_step. rewrite (find_hit _ _ Hhit).
      change (0 <? 0) with false. cbv beta iota zeta.
      destruct (Transport.total_length ls (Transport.buf st)) as [t|]; [| reflexivity].
      cbn [mbind res_bind]. destruct (t <? 0); [reflexivity |].
      destruct (Py.len (Transport.buf st) <? t); [reflexivity |].
      destruct (if enable then cs else None) as [spec|]; [| reflexivity].
      destruct (verify_checksum (Py.slice (Transport.buf st) 0 t) spec) as [[|]|];
        reflexivity. }
    destruct (total_length_prefix ls m (Transport.buf st) fut (concat ms) ls_sane Htotal Hbuf)
      as [[Hneg Hlt]|Hlen].
    { apply (Hstop st eq_refl); [unfold Py.len in Hlt; lia |].
      rewrite Hstep0, Hneg. reflexivity. }
    rewrite Hlen in Hstep0. cbn [mbind res_bind] in Hstep0.
    destruct (Z.ltb_spec (Py.len m) 0) as [Hbad|_]; [unfold Py.len in Hbad; lia |].
    destruct (Z.ltb_spec (Py.len (Transport.buf st)) (Py.len m)) as [Hlt|Hge].
    { apply (Hstop st eq_refl); [unfold Py.len in Hlt; lia | exact Hstep0]. }
    unfold Py.len in Hge.
    assert (Hframe : Py.slice (Transport.buf st) 0 (Py.len m) = m).
    { unfold Py.len. rewrite slice_take by lia. rewrite Nat2Z.id.
      rewrite (take_common _ m fut (concat ms) _ Hbuf) by lia.
      now rewrite firstn_all. }
    assert (Hrest : Py.del_prefix (Transport.buf st) (Py.len m) ++ fut = concat ms).
    { unfold Py.del_prefix, Py.clamp, Py.len.
      destruct (Z.ltb_spec (Z.of_nat (length m)) 0); [lia |].
      rewrite Z.min_l, Nat2Z.id by lia.
      rewrite <- (drop_app_length m (concat ms)), <- Hbuf.
      now rewrite drop_app_le by lia. }
    cbv zeta in Hstep0. rewrite Hframe in Hstep0.
    assert (Hstep : Transport.inner_step header ls cs enable st =
      Ok (Transport.Continue
            {| Transport.stats := Transport.add_ok (Transport.stats st);
               Transport.buf := Py.del_prefix (Transport.buf st) (Py.len m);
               Transport.written := Transport.written st ++ [m] |})).
    { rewrite Hstep0. destruct (if enable then cs else None); [| reflexivity].
      now rewrite Hsum. }
    destruct (IH {| Transport.stats := Transport.add_ok (Transport.stats st);
                    Transport.buf := Py.del_prefix (Transport.buf st) (Py.len m);
                    Transport.written := Transport.written st ++ [m] |} fut fuel)
      as (k & st' & Hk & Hrun & Hw & Hs & Hb & Hp); [exact Hrest | simpl in Hfuel; lia |].
    exists (S k), st'. cbn [Transport.inner_loop]. rewrite Hstep.
    cbn [Transport.written Transport.stats Transport.buf] in *.
    repeat split; try assumption.
    + simpl. lia.
    + rewrite Hw, <- app_assoc. reflexivity.
    + rewrite Hs. now rewrite Nat.iter_succ_r.
Qed.

Lemma iter_add_ok (k : nat) (s : Transport.FramingStats) :
  Nat.iter k Transport.add_ok s
  = {| Transport.total_bytes := Transport.total_bytes s;
       Transport.frames_ok := Transport.frames_ok s + Z.of_nat k;
       Transport.frames_bad_checksum := Transport.frames_bad_checksum s;
       Transport.resyncs := Transport.resyncs s |}.
Proof.
  induction k as [|k IH].
  - destruct s. cbn. f_equal. lia.
  - rewrite Nat.iter_succ, IH. unfold Transport.add_ok. cbn. f_equal. lia.
Qed.

(** The outer loop over any way of cutting the stream into reads. *)
Lemma outer_loop_frames (reads : list (list byte)) :
  Forall (fun chunk => chunk <> []) reads ->
  forall (ms : list (list byte)) (st : Transport.State) (fuel : nat),
  Forall valid ms ->
  Transport.buf st ++ concat reads = concat ms ->
  (forall m rest, ms = m :: rest -> (length (Transport.buf st) < length m)%nat) ->
  (length ms < fuel)%nat ->
  exists st',
    Transport.outer_loop fuel header ls cs enable reads st = Returns st' /\
    Transport.written st' = Transport.written st ++ ms /\
    Transport.stats st'
    = {| Transport.total_bytes :=
           Transport.total_bytes (Transport.stats st) + Py.len (concat reads);
         Transport.frames_ok := Transport.frames_ok (Transport.stats st) + Py.len ms;
         Transport.frames_bad_checksum := Transport.frames_bad_checksum (Transport.stats st);
         Transport.resyncs := Transport.resyncs (Transport.stats st) |}.
Proof.
  induction 1 as [|chunk reads Hchunk Hreads IH]; intros ms st fuel Hms Hbuf Hpend Hfuel.
  - exists st. cbn [Transport.outer_loop concat] in *. rewrite app_nil_r in Hbuf.
    assert (ms = []) as ->.
    { destruct ms as [|m rest]; [reflexivity |].
      specialize (Hpend m rest eq_refl). rewrite Hbuf in Hpend.
      cbn [concat] in Hpend. rewrite length_app in Hpend. lia. }
    rewrite app_nil_r. repeat split. destruct st as [[tb ok bad rs] b w].
    unfold Py.len. cbn. f_equal; lia.
  - destruct chunk as [|c chunk]; [congruence |].
    cbn [Transport.outer_loop].
    set (st1 := {| Transport.stats :=
                     Transport.add_bytes (Py.len (c :: chunk)) (Transport.stats st);
                   Transport.buf := Transport.buf st ++ c :: chunk;
                   Transport.written := Transport.written st |}).
    destruct (inner_loop_frames ms Hms st1 (concat reads) fuel)
      as (k & st2 & Hk & Hrun & Hw & Hs & Hb & Hp).
    { cbn [st1 Transport.buf]. rewrite <- app_assoc. exact Hbuf. }
    { exact Hfuel. }
    rewrite Hrun.
    destruct (IH (drop k ms) st2 fuel) as (st' & Hrun' & Hw' & Hs').
    + apply Forall_drop. exact Hms.
    + exact Hb.
    + exact Hp.
    + rewrite length_drop. lia.
    + exists st'. split; [exact Hrun' |]. split.
      * rewrite Hw', Hw. cbn [st1 Transport.written].
        rewrite <- app_assoc. now rewrite take_drop.
      * rewrite Hs', Hs, iter_add_ok. cbn [st1 Transport.stats Transport.add_bytes
          Transport.total_bytes Transport.frames_ok Transport.frames_bad_checksum
          Transport.resyncs].
        unfold Py.len. cbn [concat]. rewrite length_app, length_drop.
        f_equal; lia.
Qed.

End FramerCompleteness.

(** C1. For a frame specification whose length field, if any, sits at a
    non-negative offset with a positive length, and a stream that is the
    concatenation of [N] validly-framed messages, read in any sequence of
    non-empty chunks, [frame_stream] returns (given fuel for [N + 1]
    passes of its inner loop) having written exactly those messages in
    order, with [frames_ok = N], [frames_bad_checksum = 0], [resyncs = 0]
    and [total_bytes] the length of the stream. *)
Theorem frame_stream_complete (frame_spec : FrameSpec) (header : list byte)
    (ls : Transport.LengthSpec) (enable_checksum : bool)
    (msgs reads : list (list byte)) (fuel : nat) :
  Transport.extract_header frame_spec = Ok header ->
  Transport.from_frame frame_spec = Ok ls ->
  Transport.length_field_sane ls ->
  Forall (Transport.valid_frame header ls (fs_checksum frame_spec) enable_checksum) msgs ->
  Forall (fun chunk => chunk <> []) reads ->
  concat reads = concat msgs ->
  (length msgs < fuel)%nat ->
  Transport.frame_stream fuel reads frame_spec enable_checksum
  = Returns ({| Transport.total_bytes := Py.len (concat msgs);
                Transport.frames_ok := Py.len msgs;
                Transport.frames_bad_checksum := 0;
                Transport.resyncs := 0 |}, msgs).
Proof.
  intros Hhdr Hls Hsane Hvalid Hreads Hcat Hfuel.
  assert (Hne : header <> []).
  { unfold Transport.extract_header in Hhdr.
    destruct (fs_header frame_spec) as [[|b h]|]; try discriminate.
    injection Hhdr as <-. discriminate. }
  unfold Transport.frame_stream. rewrite Hhdr, Hls.
  destruct (outer_loop_frames header ls (fs_checksum frame_spec) enable_checksum
              Hne Hsane reads Hreads msgs Transport.initial fuel)
    as (st' & Hrun & Hw & Hs); try assumption.
  - intros m rest ->. apply Forall_cons in Hvalid as [Hm _].
    destruct (valid_frame_length header ls (fs_checksum frame_spec) enable_checksum
                Hne m Hm) as [_ Hpos].
    exact Hpos.
  - rewrite Hrun, Hw, Hs, Hcat. reflexivity.
Qed.

Lemma frame_stream_complete_witness :
  Transport.frame_stream 3
    [[xaa; x55; x01]; [x02; x03; x05; xaa]; [x55; x01; x02; x03; x05]]
    Scenarios.fixed6_sum8 true
  = Returns ({| Transport.total_bytes := 12; Transport.frames_ok := 2;
                Transport.frames_bad_checksum := 0; Transport.resyncs := 0 |},
             [[xaa; x55; x01; x02; x03; x05]; [xaa; x55; x01; x02; x03; x05]]).
Proof.
  apply (frame_stream_complete Scenarios.fixed6_sum8 [xaa; x55]
           {| Transport.mode := "fixed"; Transport.value := Some 6;
              Transport.field_offset := None; Transport.field_length := None;
              Transport.field_type := None; Transport.unit_bytes := None;
              Transport.overhead_bytes := None |}
           true
           [[xaa; x55; x01; x02; x03; x05]; [xaa; x55; x01; x02; x03; x05]]).
  - reflexivity.
  - reflexivity.
  - left. reflexivity.
  - repeat constructor; vm_compute; reflexivity.
  - repeat constructor; discriminate.
  - reflexivity.
  - simpl. lia.
Defined.

(** A header at the front of the buffer whose length resolves to 0: the
    pass takes an empty frame, leaves the buffer as it is and goes round
    again, whatever the checksum setting. *)
Lemma inner_step_zero_length (header : list byte) (ls : Transport.LengthSpec)
    (cs : option ChecksumSpec) (enable : bool) (st : Transport.State) :
  Py.find (Transport.buf st) header = 0 ->
  Transport.total_length ls (Transport.buf st) = Ok 0 ->
  exists st',
    Transport.inner_step header ls cs enable st = Ok (Transport.Continue st') /\
    Transport.buf st' = Transport.buf st.
Proof.
  intros Hfind Hzero. unfold Transport.inner_step. rewrite Hfind.
  change (0 <? 0) with false. cbv beta iota zeta. rewrite Hzero.
  cbn [mbind res_bind]. change (0 <? 0) with false. cbv iota.
  destruct (Z.ltb_spec (Py.len (Transport.buf st)) 0) as [Hneg|_];
    [unfold Py.len in Hneg; lia |].
  assert (Hdel : Py.del_prefix (Transport.buf st) 0 = Transport.buf st).
  { unfold Py.del_prefix, Py.clamp. change (0 <? 0) with false. cbv iota.
    rewrite Z.min_l by (unfold Py.len; lia). reflexivity. }
  destruct (if enable then cs else None) as [spec|].
  - destruct (verify_checksum _ spec) as [[|]|]; eexists; (split; [reflexivity |]);
      cbn [Transport.buf]; exact Hdel.
  - eexists. split; [reflexivity |]. cbn [Transport.buf]. exact Hdel.
Qed.

Lemma inner_loop_zero_length (header : list byte) (ls : Transport.LengthSpec)
    (cs : option ChecksumSpec) (enable : bool) (b : list byte) :
  Py.find b header = 0 ->
  Transport.total_length ls b = Ok 0 ->
  forall (fuel : nat) (st : Transport.State),
    Transport.buf st = b ->
    Transport.inner_loop fuel header ls cs enable st = OutOfFuel.
Proof.
  intros Hfind Hzero. induction fuel as [|fuel IH]; intros st Hb; [reflexivity |].
  cbn [Transport.inner_loop].
  destruct (inner_step_zero_length header ls cs enable st) as (st' & Hstep & Hb');
    [now rewrite Hb | now rewrite Hb |].
  rewrite Hstep. apply IH. congruence.
Qed.

(** C10 (failing input). With a length field that counts the whole
    frame, the three bytes AA 55 00 resolve to a total length of 0:
    [frame_stream] never leaves its inner loop, whatever the fuel. *)
Theorem frame_stream_zero_length_diverges :
  forall fuel : nat,
    Transport.frame_stream fuel [[xaa; x55; x00]] Scenarios.whole_frame_u8 false
    = OutOfFuel.
Proof.
  intros fuel. unfold Transport.frame_stream.
  change (Transport.extract_header Scenarios.whole_frame_u8) with (Ok [xaa; x55]).
  cbv iota.
  set (ls := {| Transport.mode := "dynamic"; Transport.value := None;
                Transport.field_offset := Some 2; Transport.field_length := Some 1;
                Transport.field_type := Some "uint8"%string;
                Transport.unit_bytes := None; Transport.overhead_bytes := Some 0 |}).
  change (Transport.from_frame Scenarios.whole_frame_u8) with (Ok ls).
  cbv iota. cbn [Transport.outer_loop].
  rewrite (inner_loop_zero_length [xaa; x55] ls _ false [xaa; x55; x00]);
    reflexivity.
Qed.

Lemma find_from_bound (sub buf : list byte) (i : Z) :
  Py.find_from sub buf i = -1 \/
  i <= Py.find_from sub buf i <= i + Py.len buf.
Proof.
  revert i. induction buf as [|b buf IH]; intros i; unfold Py.len in *.
  - destruct sub; simpl; [right; lia | now left].
  - cbn [Py.find_from]. destruct (Py.starts_with sub (b :: buf)).
    + right. cbn [length]. lia.
    + destruct (IH (i + 1)) as [->|H]; [now left | right; cbn [length]; lia].
Qed.

(** C2 (amended). [frame_stream] has no maximum frame size. When the
    length resolved at a header exceeds the bytes buffered, whatever its
    value, the pass leaves the loop with that header still at the front
    of the buffer: no byte of it is consumed and no resync is counted
    for it (only for bytes skipped before the header). When the buffer
    holds that many bytes, whatever their number, they leave the buffer
    together as one frame: it is written and counted in [frames_ok]
    when no checksum is verified or the checksum passes, and counted in
    [frames_bad_checksum] and dropped whole otherwise; no resync is
    counted for it either way. *)
Theorem inner_step_no_size_cap (header : list byte) (ls : Transport.LengthSpec)
    (cs : option ChecksumSpec) (enable : bool) (st : Transport.State)
    (total_len : Z) :
  let idx := Py.find (Transport.buf st) header in
  let found :=
    {| Transport.stats := if 0 <? idx then Transport.add_resync (Transport.stats st)
                          else Transport.stats st;
       Transport.buf := drop (Z.to_nat idx) (Transport.buf st);
       Transport.written := Transport.written st |} in
  0 <= idx ->
  Transport.total_length ls (Transport.buf found) = Ok total_len ->
  (Py.len (Transport.buf found) < total_len ->
     Transport.inner_step header ls cs enable st = Ok (Transport.Break found)) /\
  (0 <= total_len <= Py.len (Transport.buf found) ->
     let frame := take (Z.to_nat total_len) (Transport.buf found) in
     let rest := drop (Z.to_nat total_len) (Transport.buf found) in
     let passes :=
       match (if enable then cs else None) with
       | Some spec =>
         match verify_checksum frame spec with
         | Ok true => true
         | _ => false
         end
       | None => true
       end in
     Transport.inner_step header ls cs enable st
     = Ok (Transport.Continue
             (if passes
              then {| Transport.stats := Transport.add_ok (Transport.stats found);
                      Transport.buf := rest;
                      Transport.written := Transport.written st ++ [frame] |}
              else {| Transport.stats := Transport.add_bad (Transport.stats found);
                      Transport.buf := rest;
                      Transport.written := Transport.written st |}))).
Proof.
  intros idx found Hidx0 Htotal.
  assert (Hidx : 0 <= idx <= Py.len (Transport.buf st)).
  { destruct (find_from_bound header (Transport.buf st) 0) as [H|H];
      fold (Py.find (Transport.buf st) header) in H; fold idx in H; lia. }
  assert (Hfound :
    (if 0 <? idx
     then {| Transport.stats := Transport.add_resync (Transport.stats st);
             Transport.buf := Py.del_prefix (Transport.buf st) idx;
             Transport.written := Transport.written st |}
     else st) = found).
  { unfold found. destruct (Z.ltb_spec 0 idx) as [Hpos|Hzero].
    - f_equal. unfold Py.del_prefix, Py.clamp.
      destruct (Z.ltb_spec idx 0); [lia |]. now rewrite Z.min_l by lia.
    - replace idx with 0 by lia. destruct st. reflexivity. }
  assert (Hstep : Transport.inner_step header ls cs enable st =
    (if total_len <? 0 then Ok (Transport.Break found)
     else if Py.len (Transport.buf found) <? total_len then Ok (Transport.Break found)
     else
       let frame := Py.slice (Transport.buf found) 0 total_len in
       let st1 := {| Transport.stats := Transport.stats found;
                     Transport.buf := Py.del_prefix (Transport.buf found) total_len;
                     Transport.written := Transport.written found |} in
       match (if enable then cs else None) with
       | Some spec =>
         match verify_checksum frame spec with
         | Ok true => Ok (Transport.Continue
               {| Transport.stats := Transport.add_ok (Transport.stats st1);
                  Transport.buf := Transport.buf st1;
                  Transport.written := Transport.written st1 ++ [frame] |})
         | _ => Ok (Transport.Continue
               {| Transport.stats := Transport.add_bad (Transport.stats st1);
                  Transport.buf := Transport.buf st1;
                  Transport.written := Transport.written st1 |})
         end
       | None => Ok (Transport.Continue
               {| Transport.stats := Transport.add_ok (Transport.stats st1);
                  Transport.buf := Transport.buf st1;
                  Transport.written := Transport.written st1 ++ [frame] |})
       end)).
  { unfold Transport.inner_step. fold idx.
    destruct (Z.ltb_spec idx 0) as [Hneg|_]; [lia |].
    cbv beta zeta. rewrite Hfound, Htotal. cbn [mbind res_bind].
    destruct (total_len <? 0); [reflexivity |].
    destruct (Py.len (Transport.buf found) <? total_len); [reflexivity |].
    destruct (if enable then cs else None) as [spec|]; [| reflexivity].
    destruct (verify_checksum (Py.slice (Transport.buf found) 0 total_len) spec)
      as [[|]|]; reflexivity. }
  split.
  - intros Hbig. rewrite Hstep.
    destruct (Z.ltb_spec total_len 0); [reflexivity |].
    destruct (Z.ltb_spec (Py.len (Transport.buf found)) total_len); [reflexivity | lia].
  - intros Hfits frame rest passes. rewrite Hstep.
    destruct (Z.ltb_spec total_len 0); [lia |].
    destruct (Z.ltb_spec (Py.len (Transport.buf found)) total_len); [lia |].
    cbv zeta. cbn [Transport.stats Transport.buf Transport.written].
    unfold Py.len in Hfits.
    rewrite slice_take by lia.
    assert (Hdel : Py.del_prefix (Transport.buf found) total_len = rest).
    { unfold Py.del_prefix, Py.clamp.
      destruct (Z.ltb_spec total_len 0); [lia |].
      rewrite Z.min_l by (unfold Py.len; lia). reflexivity. }
    rewrite Hdel. unfold passes. fold frame.
    destruct (if enable then cs else None) as [spec|]; [| reflexivity].
    destruct (verify_checksum frame spec) as [[|]|]; reflexivity.
Qed.

Lemma inner_step_no_size_cap_witness :
  Transport.inner_step [xaa; x55]
    {| Transport.mode := "dynamic"; Transport.value := None;
       Transport.field_offset := Some 2; Transport.field_length := Some 4;
       Transport.field_type := Some "uint32_le"%string;
       Transport.unit_bytes := None; Transport.overhead_bytes := Some 6 |}
    None false
    {| Transport.stats := Transport.stats Transport.initial;
       Transport.buf := [x00; xaa; x55; xff; xff; xff; xff; xaa; x55; x00; x00; x00; x00];
       Transport.written := [] |}
  = Ok (Transport.Break
          {| Transport.stats := Transport.add_resync (Transport.stats Transport.initial);
             Transport.buf := [xaa; x55; xff; xff; xff; xff; xaa; x55; x00; x00; x00; x00];
             Transport.written := [] |}) /\
  65535 + Py.len [xaa; x55]
  < Py.len ([xaa; x55; x70; x11; x01; x00] ++ replicate (Z.to_nat 70000) x00 ++ [x81]) /\
  Transport.inner_step [xaa; x55]
    {| Transport.mode := "dynamic"; Transport.value := None;
       Transport.field_offset := Some 2; Transport.field_length := Some 4;
       Transport.field_type := Some "uint32_le"%string;
       Transport.unit_bytes := None; Transport.overhead_bytes := Some 7 |}
    (Some {| cs_type := Some "sum8"%string;
             cs_range := Some {| rng_from := Some 0; rng_to := Some (-2) |};
             cs_store_at := Some (-1);
             cs_store_format := None;
             cs_params := None |})
    true
    {| Transport.stats := Transport.stats Transport.initial;
       Transport.buf := ([xaa; x55; x70; x11; x01; x00]
                         ++ replicate (Z.to_nat 70000) x00 ++ [x81]) ++ [xaa];
       Transport.written := [] |}
  = Ok (Transport.Continue
          {| Transport.stats := Transport.add_ok (Transport.stats Transport.initial);
             Transport.buf := [xaa];
             Transport.written :=
               [[xaa; x55; x70; x11; x01; x00] ++ replicate (Z.to_nat 70000) x00 ++ [x81]] |}).
Proof.
  split.
  { destruct (inner_step_no_size_cap [xaa; x55]
      {| Transport.mode := "dynamic"; Transport.value := None;
         Transport.field_offset := Some 2; Transport.field_length := Some 4;
         Transport.field_type := Some "uint32_le"%string;
         Transport.unit_bytes := None; Transport.overhead_bytes := Some 6 |}
      None false
      {| Transport.stats := Transport.stats Transport.initial;
         Transport.buf := [x00; xaa; x55; xff; xff; xff; xff; xaa; x55; x00; x00; x00; x00];
         Transport.written := [] |}
      4294967301) as [Hstall _].
    - vm_compute. congruence.
    - reflexivity.
    - apply Hstall. reflexivity. }
  set (frame := [xaa; x55; x70; x11; x01; x00] ++ replicate (Z.to_nat 70000) x00 ++ [x81]).
  assert (Hlen : length frame = Z.to_nat 70007).
  { unfold frame. rewrite !length_app, length_replicate.
    change (length [xaa; x55; x70; x11; x01; x00]) with 6%nat.
    change (length [x81]) with 1%nat. lia. }
  split; [unfold Py.len; rewrite Hlen; change (length [xaa; x55]) with 2%nat; lia |].
  assert (Hfind : Py.find (frame ++ [xaa]) [xaa; x55] = 0) by (vm_compute; reflexivity).
  assert (Hok : verify_checksum frame
                  {| cs_type := Some "sum8"%string;
                     cs_range := Some {| rng_from := Some 0; rng_to := Some (-2) |};
                     cs_store_at := Some (-1);
                     cs_store_format := None;
                     cs_params := None |} = Ok true) by (vm_compute; reflexivity).
  pose proof (inner_step_no_size_cap [xaa; x55]
      {| Transport.mode := "dynamic"; Transport.value := None;
         Transport.field_offset := Some 2; Transport.field_length := Some 4;
         Transport.field_type := Some "uint32_le"%string;
         Transport.unit_bytes := None; Transport.overhead_bytes := Some 7 |}
      (Some {| cs_type := Some "sum8"%string;
               cs_range := Some {| rng_from := Some 0; rng_to := Some (-2) |};
               cs_store_at := Some (-1);
               cs_store_format := None;
               cs_params := None |})
      true
      {| Transport.stats := Transport.stats Transport.initial;
         Transport.buf := frame ++ [xaa];
         Transport.written := [] |}
      70007) as H.
  cbv zeta in H. cbn [Transport.buf Transport.stats Transport.written] in H.
  rewrite Hfind in H.
  change (0 <? 0) with false in H. cbv iota in H.
  change (Z.to_nat 0) with 0%nat in H. rewrite !drop_0 in H.
  rewrite <- Hlen, take_app_length, drop_app_length, Hok in H.
  destruct H as [_ Htaken]; [lia | vm_compute; reflexivity |].
  apply Htaken. unfold Py.len. rewrite length_app, Hlen.
  change (length [xaa]) with 1%nat. lia.
Defined.

(** C2 (counterexample). A header followed by the length FF FF FF FF
    resolves to 4294967301 bytes, above 65535 plus the header length; a
    well-formed empty frame follows it. The framer counts no resync,
    consumes nothing and writes no frame. *)
Lemma frame_stream_oversize_counterexample :
  Transport.total_length
    {| Transport.mode := "dynamic"; Transport.value := None;
       Transport.field_offset := Some 2; Transport.field_length := Some 4;
       Transport.field_type := Some "uint32_le"%string;
       Transport.unit_bytes := None; Transport.overhead_bytes := Some 6 |}
    [xaa; x55; xff; xff; xff; xff; xaa; x55; x00; x00; x00; x00]
  = Ok 4294967301 /\
  65535 + Py.len [xaa; x55] < 4294967301 /\
  Transport.valid_frame [xaa; x55]
    {| Transport.mode := "dynamic"; Transport.value := None;
       Transport.field_offset := Some 2; Transport.field_length := Some 4;
       Transport.field_type := Some "uint32_le"%string;
       Transport.unit_bytes := None; Transport.overhead_bytes := Some 6 |}
    None false [xaa; x55; x00; x00; x00; x00] /\
  Transport.frame_stream 8
    [[xaa; x55; xff; xff; xff; xff; xaa; x55; x00; x00; x00; x00]]
    Scenarios.payload_u32 false
  = Returns ({| Transport.total_bytes := 12; Transport.frames_ok := 0;
                Transport.frames_bad_checksum := 0; Transport.resyncs := 0 |}, []).
Proof.
  repeat split; vm_compute; reflexivity.
Qed.

(** ** C5, C8: semantic transforms *)

Lemma triplet_point_break (cfg : Semantics.TripletCfg) (frame : Semantics.record)
    (payload : list byte) (start_deg delta : float) (i : Z) :
  (Semantics.triplet_point cfg frame payload start_deg delta i = Ok None ->
   Py.len payload <= i * 3 + 2) /\
  (forall row, Semantics.triplet_point cfg frame payload start_deg delta i = Ok (Some row) ->
   i * 3 + 2 < Py.len payload).
Proof.
  unfold Semantics.triplet_point.
  destruct (Z.leb_spec (Py.len payload) (i * 3 + 2)) as [Hle|Hgt].
  - split; [intros _; exact Hle | intros row H; discriminate].
  - split; [| intros; exact Hgt].
    intros H. exfalso.
    repeat match type of H with
           | (?m ≫= _) = _ => destruct m; cbn [mbind res_bind] in H; [| discriminate]
           end.
    discriminate.
Qed.

(** A loop over [a, a + 1, ...] whose body breaks exactly from [limit]
    on yields the rows below [limit]. *)
Lemma for_break_count (body : Z -> res (option Semantics.record)) (limit : Z) :
  (forall i, body i = Ok None -> limit <= i) ->
  (forall i row, body i = Ok (Some row) -> i < limit) ->
  forall (n a : nat) (rows : list Semantics.record),
    Semantics.for_break body (map (fun k => 0 + 1 * Z.of_nat k) (seq a n)) = Ok rows ->
    Py.len rows = Z.max 0 (Z.min (Z.of_nat (a + n)) limit - Z.of_nat a).
Proof.
  intros Hnone Hsome. unfold Py.len.
  induction n as [|n IH]; intros a rows Hrun.
  - cbn in Hrun. injection Hrun as <-. cbn [length]. lia.
  - cbn [seq map Semantics.for_break] in Hrun.
    destruct (body (0 + 1 * Z.of_nat a)) as [[row|]|] eqn:Hbody;
      cbn [mbind res_bind] in Hrun; [| | discriminate].
    + apply Hsome in Hbody.
      destruct (Semantics.for_break body _) as [rows'|] eqn:Hrest;
        cbn [mbind res_bind] in Hrun; [| discriminate].
      injection Hrun as <-. apply IH in Hrest. cbn [length]. lia.
    + apply Hnone in Hbody. injection Hrun as <-. cbn [length]. lia.
Qed.

(** X1 (the count half of C5). A frame that passes the guards of the
    triplet transform, and on which it does not raise, yields
    [min(count, len(payload) // 3)] rows. *)
Theorem triplet_frame_row_count (cfg : Semantics.TripletCfg) (frame : Semantics.record)
    (payload : list byte) (count start_raw end_raw : Z) (rows : list Semantics.record) :
  Semantics.other_frame (Semantics.frame_name cfg) frame = false ->
  Semantics._hex_to_bytes (Semantics.get frame (Semantics.input_field cfg)) = Some payload ->
  Semantics._as_int (Semantics.get frame (Semantics.count_ref cfg)) = Ok (Some count) ->
  0 < count ->
  Semantics._as_int (Semantics.get frame (Semantics.start_field cfg)) = Ok (Some start_raw) ->
  Semantics._as_int (Semantics.get frame (Semantics.end_field cfg)) = Ok (Some end_raw) ->
  Semantics.triplet_frame cfg frame = Ok rows ->
  Py.len rows = Z.min count (Py.len payload / 3).
Proof.
  intros Hname Hpayload Hcount Hpos Hstart Hend Hrun.
  unfold Semantics.triplet_frame in Hrun.
  rewrite Hname, Hpayload, Hcount in Hrun. cbn [mbind res_bind] in Hrun.
  destruct (Z.leb_spec count 0); [lia |].
  rewrite Hstart, Hend in Hrun. cbn [mbind res_bind] in Hrun.
  repeat match type of Hrun with
         | (?m ≫= _) = _ => destruct m; cbn [mbind res_bind] in Hrun; [| discriminate]
         end.
  unfold Py.range in Hrun.
  replace (Z.to_nat ((count - 0 + 1 - 1) / 1)) with (Z.to_nat count) in Hrun
    by (rewrite Z.div_1_r; lia).
  eapply (for_break_count _ (Py.len payload / 3)) in Hrun.
  - rewrite Hrun. unfold Py.len. lia.
  - intros i Hi. apply triplet_point_break in Hi. unfold Py.len in *. lia.
  - intros i row Hi. apply triplet_point_break in Hi. unfold Py.len in *. lia.
Qed.

Lemma rows_of_returned (r : res (list Semantics.record)) :
  Semantics.returned r = true -> r = Ok (Semantics.rows_of r).
Proof.
  destruct r; [reflexivity | discriminate].
Qed.

Lemma triplet_frame_row_count_witness :
  Py.len (Semantics.rows_of
            (Semantics.triplet_frame Semantics.triplet_defaults
               (Semantics.frame_of 0 64 5 "0102030405060708")))
  = Z.min 5 (Py.len [x01; x02; x03; x04; x05; x06; x07; x08] / 3).
Proof.
  apply (triplet_frame_row_count Semantics.triplet_defaults
           (Semantics.frame_of 0 64 5 "0102030405060708")
           [x01; x02; x03; x04; x05; x06; x07; x08] 5 0 64);
    [vm_compute; reflexivity .. | apply rows_of_returned; vm_compute; reflexivity].
Defined.

(** C5 (failing input). Raw angles 51200 and 49920 decode to 400 and
    390 degrees; the second of the two points gets
    [400 + 350 = 750], from which 360 is taken once: 390, not below 360. *)
Theorem triplet_angle_not_below_360 :
  Semantics.angles
    (Semantics.rows_of
       (Semantics.triplet_frame Semantics.triplet_defaults
          (Semantics.frame_of 51200 49920 2 "000000000000")))
  = [VFloat 40; VFloat 390] /\
  PrimFloat.ltb 390 360 = false.
Proof.
  split; vm_compute; reflexivity.
Qed.

(** C8 (amended). [apply_semantics] looks at the first entry of the
    transforms list only: the entries after it never change the result;
    a first entry of type [triplet_pointcloud_v1] or
    [if_dn_pointcloud_v1] is the transform run, and with any other first
    entry no transform is applied and the records are returned as they
    came. *)
Theorem apply_semantics_first_entry_only (raw_records : list Semantics.record)
    (t0 : Semantics.Transform) (rest rest' : list Semantics.Transform) :
  Semantics.apply_semantics raw_records
    {| Semantics.telemetry := Some (Some (t0 :: rest)) |}
  = Semantics.apply_semantics raw_records
      {| Semantics.telemetry := Some (Some (t0 :: rest')) |} /\
  match t0 with
  | Semantics.NotADict | Semantics.Rule None _ _ =>
    Semantics.apply_semantics raw_records
      {| Semantics.telemetry := Some (Some (t0 :: rest)) |}
    = Ok (Semantics.unapplied raw_records "Invalid telemetry.transforms[0]")
  | Semantics.Rule (Some ttype) triplet if_dn =>
    Semantics.apply_semantics raw_records
      {| Semantics.telemetry := Some (Some (t0 :: rest)) |}
    = if String.eqb ttype "triplet_pointcloud_v1"
      then Semantics._transform_triplet_pointcloud_v1 raw_records triplet
      else if String.eqb ttype "if_dn_pointcloud_v1"
      then Semantics._transform_if_dn_pointcloud_v1 raw_records if_dn
      else Ok (Semantics.unapplied raw_records
                 ("Unsupported telemetry transform type: " ++ ttype))
  end.
Proof.
  split; [reflexivity |].
  destruct t0 as [|[ttype|] triplet if_dn]; reflexivity.
Qed.

(** C8 (counterexample). The second entry is a triplet rule that
    applies to the record, the first has a type no transform handles:
    nothing is applied. *)
Lemma apply_semantics_skips_later_entries :
  let raw := [Semantics.frame_of 0 64 2 "000000000000"] in
  let triplet :=
    Semantics.Rule (Some "triplet_pointcloud_v1"%string)
                   Semantics.triplet_defaults Semantics.if_dn_defaults in
  let other :=
    Semantics.Rule (Some "custom_v0"%string)
                   Semantics.triplet_defaults Semantics.if_dn_defaults in
  Semantics.apply_semantics raw {| Semantics.telemetry := Some (Some [other; triplet]) |}
  = Ok (Semantics.unapplied raw "Unsupported telemetry transform type: custom_v0") /\
  Semantics.applied <$>
    match Semantics.apply_semantics raw
            {| Semantics.telemetry := Some (Some [triplet]) |} with
    | Ok r => Some r
    | Raise _ => None
    end
  = Some true.
Proof.
  split; vm_compute; reflexivity.
Qed.

(** ** C7: the detector *)

Lemma insert_In (r x : Detect.DetectionResult) (l : list Detect.DetectionResult) :
  In x (Detect.insert r l) <-> x = r \/ In x l.
Proof.
  induction l as [|s l IH]; cbn [Detect.insert In].
  - intuition.
  - destruct (Detect.key_lt s r); cbn [In]; rewrite ?IH; intuition.
Qed.

Lemma results_sorted_In (x : Detect.DetectionResult) (l : list Detect.DetectionResult) :
  In x (Detect.results_sorted l) <-> In x l.
Proof.
  unfold Detect.results_sorted.
  assert (H : forall acc, In x (fold_left (fun acc r => Detect.insert r acc) l acc)
                          <-> In x l \/ In x acc).
  { induction l as [|r l IH]; intros acc; cbn [fold_left In].
    - intuition.
    - rewrite IH, insert_In. intuition. }
  rewrite H. cbn [In]. intuition.
Qed.

(** [choose_best] answers with one of the results it is given, and with
    nothing only when it is given none. *)
Lemma choose_best_In (l : list Detect.DetectionResult) :
  l <> [] -> exists r, Detect.choose_best l = Some r /\ In r l.
Proof.
  intros Hne. unfold Detect.choose_best.
  destruct (Detect.results_sorted l) as [|r sorted] eqn:E.
  - destruct l as [|x l]; [congruence |].
    assert (Hx : In x (Detect.results_sorted (x :: l)))
      by (apply results_sorted_In; now left).
    rewrite E in Hx. destruct Hx.
  - exists r. split; [reflexivity |].
    apply results_sorted_In. rewrite E. now left.
Qed.

(** With a query result in hand, neither the model file nor the sniff
    is consulted for the answer. *)
Lemma detect_uart_with_best (banner_text : string) (rules : list Detect.RuleRun)
    (args_model_id : option string) (candidates : list (string * string))
    (model_refs : string -> list (string * option string))
    (pick_by_sniff : list (string * string) -> option Detect.SniffPick)
    (b : Detect.DetectionResult) :
  Detect.choose_best
    (List.filter (fun r => String.eqb (Detect.method r) "query")
                 (Detect.run_rules banner_text rules [] ∅).1) = Some b ->
  Detect.detect_uart banner_text rules args_model_id candidates model_refs pick_by_sniff
  = Some b.
Proof.
  intros Hbest. unfold Detect.detect_uart.
  destruct (Detect.run_rules banner_text rules [] ∅) as [results groups].
  cbn [fst] in Hbest. rewrite Hbest.
  destruct (Detect.or_else _ None) as [mid|]; [| reflexivity].
  destruct (model_refs mid) as [|ref refs]; [reflexivity |].
  destruct (Detect.restrict (ref :: refs) candidates) as [|[pid ver] [|c cs]]; reflexivity.
Qed.

(** C7 (amended). When a query rule matched, [cmd_uart] settles on a
    query result, the one [choose_best] picks among the query results,
    whatever the banner rules matched and whatever a sniff would give.
    When no query rule matched, the answer never is a banner result: it
    comes from the model file or from the sniff, or there is none. *)
Theorem detect_uart_query_first (banner_text : string) (rules : list Detect.RuleRun)
    (args_model_id : option string) (candidates : list (string * string))
    (model_refs : string -> list (string * option string))
    (pick_by_sniff : list (string * string) -> option Detect.SniffPick) :
  let queries :=
    List.filter (fun r => String.eqb (Detect.method r) "query")
                (Detect.run_rules banner_text rules [] ∅).1 in
  let answer :=
    Detect.detect_uart banner_text rules args_model_id candidates model_refs
                       pick_by_sniff in
  (queries <> [] ->
   exists r, answer = Some r /\ Detect.choose_best queries = Some r /\
             In r queries /\ Detect.method r = "query"%string) /\
  (queries = [] ->
   forall r, answer = Some r ->
             Detect.method r = "model_file"%string \/ Detect.method r = "sniff"%string).
Proof.
  intros queries answer. split.
  - intros Hne. destruct (choose_best_In queries Hne) as (r & Hbest & Hin).
    exists r. split; [| split; [exact Hbest | split; [exact Hin |]]].
    + apply detect_uart_with_best. exact Hbest.
    + apply filter_In in Hin as [_ Hq]. now apply String.eqb_eq in Hq.
  - intros Hnone r. subst answer. unfold Detect.detect_uart.
    subst queries.
    destruct (Detect.run_rules banner_text rules [] ∅) as [results groups].
    cbn [fst] in Hnone. rewrite Hnone.
    change (Detect.choose_best []) with (@None Detect.DetectionResult).
    assert (Hsniff : forall cands,
              Detect.sniff_result <$> pick_by_sniff cands = Some r ->
              Detect.method r = "model_file"%string \/ Detect.method r = "sniff"%string).
    { intros cands H. destruct (pick_by_sniff cands); [| discriminate].
      injection H as <-. now right. }
    destruct (Detect.or_else _ None) as [mid|]; [| apply Hsniff].
    destruct (model_refs mid) as [|ref refs]; [apply Hsniff |].
    destruct (Detect.restrict (ref :: refs) candidates) as [|[pid ver] [|c cs]];
      try apply Hsniff.
    intros [= <-]. now left.
Qed.

(** C7 (counterexample). A banner rule matched and named protocol
    [proto_b]; no query rule did. The answer is the sniff's. *)
Lemma detect_uart_banner_not_preferred :
  let banner :=
    {| Detect.m_protocol_id := Some "proto_b"%string;
       Detect.m_protocol_version := Some "1"%string;
       Detect.m_model_id := None; Detect.m_confidence := 0.5;
       Detect.m_rule_id := "banner_rule"; Detect.m_groups := ∅ |} in
  let rules := [{| Detect.rule_method := "banner"; Detect.outcome := Some banner |}] in
  let pick :=
    {| Detect.sp_protocol_id := "proto_s"; Detect.sp_protocol_version := "2";
       Detect.sp_confidence := 0.5; Detect.sp_ambiguous := false |} in
  (Detect.run_rules "boot banner" rules [] ∅).1 = [Detect.result_of banner "banner"] /\
  Detect.detect_uart "boot banner" rules None [("proto_s", "2")%string]
    (fun _ => []) (fun _ => Some pick)
  = Some (Detect.sniff_result pick).
Proof.
  split; reflexivity.
Qed.

(** ** Checksums through the encoder *)

Lemma le_bytes_length (n : nat) (v : Z) : length (Encode.le_bytes n v) = n.
Proof.
  revert v. induction n as [|n IH]; intros v; cbn; [reflexivity | now rewrite IH].
Qed.

Lemma from_le_bytes (n : nat) (v : Z) :
  Py.from_bytes_le (Encode.le_bytes n v) = v mod 256 ^ Z.of_nat n.
Proof.
  revert v. induction n as [|n IH]; intros v.
  - cbn. now rewrite Z.mod_1_r.
  - cbn [Encode.le_bytes Py.from_bytes_le]. rewrite IH, b2z_z2b.
    rewrite Nat2Z.inj_succ, Z.pow_succ_r by lia.
    rewrite Z.rem_mul_r by lia. reflexivity.
Qed.

Lemma from_stored (little : bool) (n : nat) (v : Z) :
  0 <= v < 256 ^ Z.of_nat n ->
  (if little then Py.from_bytes_le (Encode.le_bytes n v)
   else Py.from_bytes_be (rev (Encode.le_bytes n v))) = v.
Proof.
  intros Hv. unfold Py.from_bytes_be. rewrite rev_involutive.
  destruct little; rewrite from_le_bytes; apply Z.mod_small; exact Hv.
Qed.

Lemma pack_uint_ok (little : bool) (n : nat) (v : Z) :
  0 <= v < 256 ^ Z.of_nat n ->
  Encode.pack_uint little n v
  = Ok (if little then Encode.le_bytes n v else rev (Encode.le_bytes n v)).
Proof.
  intros Hv. unfold Encode.pack_uint.
  destruct (Z.leb_spec 0 v); [| lia].
  destruct (Z.ltb_spec v (256 ^ Z.of_nat n)); [reflexivity | lia].
Qed.

Lemma encode_checksum_fmt (sf : string) (little : bool) (n : nat) (v : Z) :
  Encode.store_fmt sf little n -> 0 <= v < 256 ^ Z.of_nat n ->
  Encode.encode_checksum v sf
  = Ok (if little then Encode.le_bytes n v else rev (Encode.le_bytes n v)).
Proof.
  intros Hfmt Hv.
  assert (Hmask : forall k, 0 <= k -> v < 2 ^ k -> Z.land v (Z.ones k) = v)
    by (intros k Hk Hlt; rewrite Z.land_ones by lia; apply Z.mod_small; lia).
  destruct Hfmt.
  - change (Encode.encode_checksum v "uint8")
      with (Encode.pack_uint true 1 (Z.land v (Z.ones 8))).
    rewrite Hmask by (change (256 ^ Z.of_nat 1) with (2 ^ 8) in Hv; lia).
    now apply pack_uint_ok.
  - change (Encode.encode_checksum v "uint16_le")
      with (Encode.pack_uint true 2 (Z.land v (Z.ones 16))).
    rewrite Hmask by (change (256 ^ Z.of_nat 2) with (2 ^ 16) in Hv; lia).
    now apply pack_uint_ok.
  - change (Encode.encode_checksum v "uint16_be")
      with (Encode.pack_uint false 2 (Z.land v (Z.ones 16))).
    rewrite Hmask by (change (256 ^ Z.of_nat 2) with (2 ^ 16) in Hv; lia).
    now apply pack_uint_ok.
  - change (Encode.encode_checksum v "uint32_le")
      with (Encode.pack_uint true 4 (Z.land v (Z.ones 32))).
    rewrite Hmask by (change (256 ^ Z.of_nat 4) with (2 ^ 32) in Hv; lia).
    now apply pack_uint_ok.
  - change (Encode.encode_checksum v "uint32_be")
      with (Encode.pack_uint false 4 (Z.land v (Z.ones 32))).
    rewrite Hmask by (change (256 ^ Z.of_nat 4) with (2 ^ 32) in Hv; lia).
    now apply pack_uint_ok.
Qed.

Lemma slice_app_l (l1 l2 : list byte) (a b : Z) :
  0 <= a -> a <= b -> b <= Z.of_nat (length l1) ->
  Py.slice (l1 ++ l2) a b = Py.slice l1 a b.
Proof.
  intros Ha Hab Hb.
  apply (slice_common (l1 ++ l2) l1 [] l2); try assumption.
  - now rewrite app_nil_r.
  - rewrite length_app. lia.
Qed.

Lemma slice_app_r (l1 l2 : list byte) :
  Py.slice (l1 ++ l2) (Z.of_nat (length l1))
           (Z.of_nat (length l1) + Z.of_nat (length l2)) = l2.
Proof.
  rewrite slice_inner by (rewrite ?length_app; lia).
  rewrite Nat2Z.id. rewrite take_ge by (rewrite length_app; lia).
  apply drop_app_length.
Qed.

(** Reading back what [encode_checksum] stored at the end of a frame. *)
Lemma read_expected_fmt (sf : string) (little : bool) (n : nat) (v store_at : Z)
    (body : list byte) :
  Encode.store_fmt sf little n -> 0 <= v < 256 ^ Z.of_nat n ->
  let stored := if little then Encode.le_bytes n v else rev (Encode.le_bytes n v) in
  resolve_index store_at (Py.len (body ++ stored)) = Py.len body ->
  read_expected_checksum (body ++ stored) store_at sf = Ok v.
Proof.
  intros Hfmt Hv stored Hat.
  assert (Hlen : length stored = n).
  { unfold stored. destruct little; rewrite ?length_rev; apply le_bytes_length. }
  assert (Hread : read_expected_checksum (body ++ stored) store_at sf =
    (let start := resolve_index store_at (Py.len (body ++ stored)) in
     let end_ := start + Z.of_nat n in
     if (start <? 0) || (Py.len (body ++ stored) <? end_) then Raise ValueError
     else
       let raw := Py.slice (body ++ stored) start end_ in
       match n with
       | 1%nat => Py.getitem raw 0
       | _ => Ok (if little then Py.from_bytes_le raw else Py.from_bytes_be raw)
       end)).
  { destruct Hfmt; reflexivity. }
  rewrite Hread, Hat. cbv zeta. unfold Py.len. rewrite length_app, Hlen.
  destruct (Z.ltb_spec (Z.of_nat (length body)) 0); [lia |].
  destruct (Z.ltb_spec (Z.of_nat (length body + n))
                       (Z.of_nat (length body) + Z.of_nat n)); [lia |].
  cbn [orb].
  assert (Hsl : Py.slice (body ++ stored) (Z.of_nat (length body))
                  (Z.of_nat (length body) + Z.of_nat n) = stored)
    by (rewrite <- Hlen; apply slice_app_r).
  rewrite !Hsl.
  pose proof (from_stored little n v Hv) as Hback. subst stored.
  destruct Hfmt; try (f_equal; exact Hback).
  cbn [Encode.le_bytes].
  rewrite (getitem_lookup [Py.z2b v] 0 (Py.z2b v) eq_refl
           : Py.getitem [Py.z2b v] 0 = _).
  rewrite b2z_z2b. f_equal. apply Z.mod_small.
  change (256 ^ Z.of_nat 1) with 256 in Hv. exact Hv.
Qed.

Lemma checksum_sum8_bound (frame : list byte) (a b : Z) :
  0 <= checksum_sum8 frame a b < 256.
Proof.
  unfold checksum_sum8. change 255 with (Z.ones 8).
  rewrite Z.land_ones by lia. apply Z.mod_pos_bound. lia.
Qed.

Lemma crc_compute_bound (data : list byte) (width poly init xorout : Z)
    (refin refout : bool) :
  0 <= width ->
  0 <= crc_compute data width poly init xorout refin refout < 2 ^ width.
Proof.
  intros Hw. unfold crc_compute.
  replace (Z.shiftl 1 width - 1) with (Z.ones width)
    by (rewrite Z.ones_equiv, Z.shiftl_1_l; lia).
  cbv zeta. rewrite (Z.land_ones _ width) by lia.
  apply Z.mod_pos_bound. lia.
Qed.

(** What the encoder computes is what [compute_checksum] finds on the
    finished frame, and it fits the store format. *)
Lemma frame_checksum_value (cs : ChecksumSpec) (sf sf' : string) (n : nat)
    (body stored : list byte) (val : Z) :
  Encode.encodable cs sf n ->
  length stored = n ->
  Encode.placed_at_end cs n (Py.len (body ++ stored)) ->
  Encode.frame_checksum body cs = Ok (val, sf') ->
  sf' = sf /\ 0 <= val < 256 ^ Z.of_nat n /\
  compute_checksum (body ++ stored) cs = Ok val.
Proof.
  intros (ctype & little & Htype & Hfmt & Hsf & Hkind) Hstored
         (store_at & rfrom & rto & Hat & Hrng & Hres & Hs0 & Hse & Hend) Hck.
  assert (Hlen : Py.len (body ++ stored) = Py.len body + Z.of_nat n)
    by (unfold Py.len; rewrite length_app; lia).
  rewrite Hlen in *.
  set (total := Py.len body + Z.of_nat n) in *.
  set (start := resolve_index rfrom total) in *.
  set (end_ := resolve_index rto total) in *.
  replace (total - Z.of_nat n) with (Py.len body) in * by (unfold total; lia).
  assert (Hn : (1 <= n)%nat) by (destruct Hfmt; lia).
  assert (Hdef : default "uint8"%string (cs_store_format cs) = sf).
  { destruct Hsf as [->|(_ & -> & ->)]; reflexivity. }
  assert (Hclen : (if String.eqb sf "uint8" then 1
                   else if Py.contains sf "16" then 2 else 4) = Z.of_nat n)
    by (destruct Hfmt; reflexivity).
  unfold Encode.frame_checksum in Hck. rewrite Htype, Hrng in Hck.
  cbn [require mbind res_bind rng_from rng_to] in Hck.
  rewrite Hdef, Hclen in Hck.
  change (if 0 <=? rfrom then rfrom else Py.len body + Z.of_nat n + rfrom)
    with start in Hck.
  change (if 0 <=? rto then rto else Py.len body + Z.of_nat n + rto)
    with end_ in Hck.
  assert (Hdata : Py.slice (body ++ stored) start (end_ + 1)
                  = Py.slice body start (end_ + 1))
    by (apply slice_app_l; unfold Py.len in *; lia).
  assert (Hguard : (start <? 0) || (end_ <? 0) || (total <=? start)
                   || (total <=? end_) || (end_ <? start) = false).
  { unfold total, Py.len in *.
    destruct (Z.ltb_spec start 0); [lia |]. destruct (Z.ltb_spec end_ 0); [lia |].
    destruct (Z.leb_spec (Z.of_nat (length body) + Z.of_nat n) start); [lia |].
    destruct (Z.leb_spec (Z.of_nat (length body) + Z.of_nat n) end_); [lia |].
    destruct (Z.ltb_spec end_ start); [lia | reflexivity]. }
  assert (Hcompute : forall ty, String.eqb ty "xor16_slices" = false ->
    cs_type cs = Some ty ->
    compute_checksum (body ++ stored) cs =
    (let data := Py.slice body start (end_ + 1) in
     if String.eqb ty "sum8" then Ok (checksum_sum8 (body ++ stored) start end_)
     else if String.eqb ty "cs15" then checksum_cs15 data
     else if String.eqb ty "crc16" || String.eqb ty "crc32" then
       if falsy (cs_store_format cs) then Raise ValueError
       else
         match cs_params cs with
         | None => Raise ValueError
         | Some params =>
           let width := if String.eqb ty "crc16" then 16 else 32 in
           poly ← require (crc_poly params);
           init ← require (crc_init params);
           xorout ← require (crc_xorout params);
           refin ← require (crc_refin params);
           refout ← require (crc_refout params);
           Ok (crc_compute data width poly init xorout refin refout)
         end
     else Raise ValueError)).
  { intros ty Hxor Hty. unfold compute_checksum. rewrite Hty.
    cbn [require mbind res_bind]. rewrite Hxor, Hrng.
    cbn [require mbind res_bind rng_from rng_to]. rewrite Hlen.
    fold total. fold start. fold end_. rewrite Hguard, Hdata. reflexivity. }
  assert (Hpow : forall k : nat, (k <= n)%nat -> 256 ^ Z.of_nat k <= 256 ^ Z.of_nat n)
    by (intros k Hk; apply Z.pow_le_mono_r; lia).
  assert (Hfalsy : forall little' n', Encode.store_fmt sf little' n' ->
                                      String.eqb sf "" = false)
    by (intros little' n' H; destruct H; reflexivity).
  destruct Hkind as [->|[(-> & Hw & Hp)|(-> & Hw & Hp)]].
  - change (String.eqb "sum8" "sum8") with true in Hck. cbv iota in Hck.
    injection Hck as <- <-. split; [reflexivity |]. split.
    + pose proof (checksum_sum8_bound body start (Z.min end_ (Py.len body - 1))).
      specialize (Hpow 1%nat Hn). change (256 ^ Z.of_nat 1) with 256 in Hpow. lia.
    + rewrite (Hcompute "sum8"%string eq_refl Htype).
      change (String.eqb "sum8" "sum8") with true. cbv iota zeta.
      unfold checksum_sum8. rewrite Hdata. rewrite Z.min_l by lia. reflexivity.
  - destruct Hp as (p & poly & init & xorout & refin & refout
                    & Hp & Hpoly & Hinit & Hxor & Hrefin & Hrefout).
    change (String.eqb "crc16" "sum8") with false in Hck.
    change (String.eqb "crc16" "crc16" || String.eqb "crc16" "crc32") with true in Hck.
    change (String.eqb "crc16" "crc16") with true in Hck.
    cbv iota zeta in Hck. rewrite Hp, Hpoly, Hinit, Hxor, Hrefin, Hrefout in Hck.
    cbn [default] in Hck. rewrite Z.min_l in Hck by lia.
    injection Hck as <- <-. split; [reflexivity |]. split.
    + pose proof (crc_compute_bound (Py.slice body start (end_ + 1)) 16 poly init
                    xorout refin refout ltac:(lia)).
      specialize (Hpow 2%nat Hw). change (256 ^ Z.of_nat 2) with (2 ^ 16) in Hpow. lia.
    + rewrite (Hcompute "crc16"%string eq_refl Htype).
      destruct Hsf as [Hsome|(Habs & _)]; [| discriminate].
      rewrite Hsome. cbn [falsy]. rewrite (Hfalsy _ _ Hfmt).
      rewrite Hp, Hpoly, Hinit, Hxor, Hrefin, Hrefout. reflexivity.
  - destruct Hp as (p & poly & init & xorout & refin & refout
                    & Hp & Hpoly & Hinit & Hxor & Hrefin & Hrefout).
    change (String.eqb "crc32" "sum8") with false in Hck.
    change (String.eqb "crc32" "crc16" || String.eqb "crc32" "crc32") with true in Hck.
    change (String.eqb "crc32" "crc16") with false in Hck.
    cbv iota zeta in Hck. rewrite Hp, Hpoly, Hinit, Hxor, Hrefin, Hrefout in Hck.
    cbn [default] in Hck. rewrite Z.min_l in Hck by lia.
    injection Hck as <- <-. split; [reflexivity |]. split.
    + pose proof (crc_compute_bound (Py.slice body start (end_ + 1)) 32 poly init
                    xorout refin refout ltac:(lia)).
      specialize (Hpow 4%nat Hw). change (256 ^ Z.of_nat 4) with (2 ^ 32) in Hpow. lia.
    + rewrite (Hcompute "crc32"%string eq_refl Htype).
      destruct Hsf as [Hsome|(Habs & _)]; [| discriminate].
      rewrite Hsome. cbn [falsy]. rewrite (Hfalsy _ _ Hfmt).
      rewrite Hp, Hpoly, Hinit, Hxor, Hrefin, Hrefout. reflexivity.
Qed.

Lemma pack_uint_length (little : bool) (n : nat) (v : Z) (stored : list byte) :
  Encode.pack_uint little n v = Ok stored -> length stored = n.
Proof.
  unfold Encode.pack_uint. destruct (_ && _); [| discriminate].
  intros [= <-]. destruct little; rewrite ?length_rev; apply le_bytes_length.
Qed.

Lemma encode_checksum_length (sf : string) (little : bool) (n : nat) (v : Z)
    (stored : list byte) :
  Encode.store_fmt sf little n ->
  Encode.encode_checksum v sf = Ok stored -> length stored = n.
Proof.
  intros Hfmt. destruct Hfmt; apply pack_uint_length.
Qed.

Lemma frame_checksum_format (body : list byte) (cs : ChecksumSpec) (val : Z)
    (sf' : string) :
  Encode.frame_checksum body cs = Ok (val, sf') ->
  sf' = default "uint8"%string (cs_store_format cs).
Proof.
  unfold Encode.frame_checksum.
  destruct (cs_type cs) as [ctype|]; [| discriminate].
  destruct (cs_range cs) as [[[rfrom|] [rto|]]|]; try discriminate.
  cbn [require mbind res_bind rng_from rng_to].
  destruct (String.eqb ctype "sum8"); [now intros [= _ <-] |].
  destruct (_ || _); [now intros [= _ <-] | discriminate].
Qed.


(** The encoder computes three of the five types. For a CS15 or XOR16
    specification [build_frame] raises "Unsupported checksum type";
    [compute_checksum] and [verify_checksum] know both types, and the
    frame with the CS15 value in its last two bytes is accepted. *)
Lemma build_frame_rejects_cs15 :
  Encode.build_frame [x55; xaa] 16 [xde; xad; xbe; xef]
    (Encode.checksummed "cs15" "uint16_le" (-3) (-2)) = Raise ValueError /\
  Encode.build_frame [x55; xaa] 16 [xde; xad; xbe; xef]
    (Encode.checksummed "xor16_slices" "uint16_le" (-3) (-2)) = Raise ValueError /\
  (forall cs, fs_checksum (Encode.checksummed "cs15" "uint16_le" (-3) (-2)) = Some cs ->
     compute_checksum [x55; xaa; x04; x10; xde; xad; xbe; xef; x00; x00] cs = Ok 24129 /\
     verify_checksum [x55; xaa; x04; x10; xde; xad; xbe; xef; x41; x5e] cs = Ok true).
Proof.
  split; [vm_compute; reflexivity |]. split; [vm_compute; reflexivity |].
  intros cs [= <-]. split; vm_compute; reflexivity.
Qed.

(** ** Termination of the framer when no length resolves to zero *)

Lemma del_prefix_length {A : Type} (l : list A) (k : Z) :
  (length (Py.del_prefix l k) <= length l)%nat /\
  (0 < k -> (length (Py.del_prefix l k) < length l)%nat \/ l = []).
Proof.
  unfold Py.del_prefix, Py.clamp, Py.len. rewrite length_drop.
  split; [lia |]. intros Hk.
  destruct (Z.ltb_spec k 0); [lia |].
  destruct l as [|a l]; [now right | left]. cbn [length]. lia.
Qed.

(** A pass that goes round again has shortened the buffer; a pass that
    leaves the loop has not lengthened it. *)
Lemma inner_step_buf (header : list byte) (ls : Transport.LengthSpec)
    (cs : option ChecksumSpec) (enable : bool) (st : Transport.State) :
  (forall b, Transport.total_length ls b <> Ok 0) ->
  match Transport.inner_step header ls cs enable st with
  | Ok (Transport.Continue st') =>
    (length (Transport.buf st') < length (Transport.buf st))%nat
  | Ok (Transport.Break st') =>
    (length (Transport.buf st') <= length (Transport.buf st))%nat
  | Raise _ => True
  end.
Proof.
  intros Hnz. unfold Transport.inner_step.
  destruct (Py.find (Transport.buf st) header <? 0).
  { destruct (Py.len header <? Py.len (Transport.buf st)); cbn [Transport.buf];
      [apply del_prefix_length | lia]. }
  set (st1 := if 0 <? Py.find (Transport.buf st) header then _ else st).
  assert (H1 : (length (Transport.buf st1) <= length (Transport.buf st))%nat).
  { subst st1. destruct (0 <? Py.find (Transport.buf st) header); cbn [Transport.buf];
      [apply del_prefix_length | lia]. }
  specialize (Hnz (Transport.buf st1)).
  destruct (Transport.total_length ls (Transport.buf st1)) as [t|]; [| exact I].
  cbn [mbind res_bind].
  destruct (Z.ltb_spec t 0); [exact H1 |].
  destruct (Z.ltb_spec (Py.len (Transport.buf st1)) t) as [|Hfit]; [exact H1 |].
  assert (Ht : 0 < t) by (destruct (Z.eq_dec t 0); [congruence | lia]).
  assert (Hlt : (length (Py.del_prefix (Transport.buf st1) t)
                 < length (Transport.buf st))%nat).
  { destruct (del_prefix_length (Transport.buf st1) t) as [_ Hd].
    destruct (Hd Ht) as [Hd'|Hnil]; [lia |].
    rewrite Hnil in Hfit. unfold Py.len in Hfit. cbn in Hfit. lia. }
  cbv zeta.
  destruct (if enable then cs else None) as [spec|]; [| exact Hlt].
  destruct (verify_checksum _ spec) as [[|]|]; exact Hlt.
Qed.

Lemma inner_loop_terminates (header : list byte) (ls : Transport.LengthSpec)
    (cs : option ChecksumSpec) (enable : bool) :
  (forall b, Transport.total_length ls b <> Ok 0) ->
  forall (fuel : nat) (st : Transport.State),
    (length (Transport.buf st) < fuel)%nat ->
    match Transport.inner_loop fuel header ls cs enable st with
    | Returns st' => (length (Transport.buf st') <= length (Transport.buf st))%nat
    | Raises _ => True
    | OutOfFuel => False
    end.
Proof.
  intros Hnz. induction fuel as [|fuel IH]; intros st Hfuel; [lia |].
  cbn [Transport.inner_loop].
  pose proof (inner_step_buf header ls cs enable st Hnz) as Hstep.
  destruct (Transport.inner_step header ls cs enable st) as [[st'|st']|];
    [| exact Hstep | exact I].
  specialize (IH st' ltac:(lia)).
  destruct (Transport.inner_loop fuel header ls cs enable st'); [lia | exact I | exact IH].
Qed.

Lemma outer_loop_terminates (header : list byte) (ls : Transport.LengthSpec)
    (cs : option ChecksumSpec) (enable : bool) :
  (forall b, Transport.total_length ls b <> Ok 0) ->
  forall (reads : list (list byte)) (fuel : nat) (st : Transport.State),
    (length (Transport.buf st) + length (concat reads) < fuel)%nat ->
    Transport.outer_loop fuel header ls cs enable reads st <> OutOfFuel.
Proof.
  intros Hnz. induction reads as [|chunk reads IH]; intros fuel st Hfuel;
    [discriminate |].
  destruct chunk as [|c chunk]; [discriminate |].
  cbn [Transport.outer_loop].
  set (st1 := {| Transport.stats := _; Transport.buf := _; Transport.written := _ |}).
  cbn [concat] in Hfuel. rewrite length_app in Hfuel.
  pose proof (inner_loop_terminates header ls cs enable Hnz fuel st1) as Hin.
  assert (Hst1 : length (Transport.buf st1) = (length (Transport.buf st) + length (c :: chunk))%nat)
    by (subst st1; cbn [Transport.buf]; apply length_app).
  destruct (Transport.inner_loop fuel header ls cs enable st1) as [st2| |].
  - apply IH. specialize (Hin ltac:(lia)). lia.
  - discriminate.
  - exfalso. apply Hin. lia.
Qed.

(** X2. When the length rule never resolves to 0, [frame_stream] leaves
    its loops on every finite stream: with fuel above the number of bytes
    read it returns its stats or raises, and never runs out of fuel. *)
Theorem frame_stream_terminates (frame_spec : FrameSpec) (ls : Transport.LengthSpec)
    (reads : list (list byte)) (enable_checksum : bool) (fuel : nat) :
  Transport.from_frame frame_spec = Ok ls ->
  (forall b, Transport.total_length ls b <> Ok 0) ->
  (length (concat reads) < fuel)%nat ->
  Transport.frame_stream fuel reads frame_spec enable_checksum <> OutOfFuel.
Proof.
  intros Hls Hnz Hfuel. unfold Transport.frame_stream.
  destruct (Transport.extract_header frame_spec) as [header|]; [| discriminate].
  rewrite Hls.
  pose proof (outer_loop_terminates header ls (fs_checksum frame_spec) enable_checksum
                Hnz reads fuel Transport.initial Hfuel) as Hout.
  destruct (Transport.outer_loop fuel header ls (fs_checksum frame_spec)
              enable_checksum reads Transport.initial);
    [discriminate | discriminate | congruence].
Qed.

Lemma frame_stream_terminates_witness :
  Transport.frame_stream 7 [[x00; xaa; x55]; [x01; x02; x03]] Scenarios.fixed6_sum8 true
  <> OutOfFuel.
Proof.
  apply (frame_stream_terminates Scenarios.fixed6_sum8
           {| Transport.mode := "fixed"; Transport.value := Some 6;
              Transport.field_offset := None; Transport.field_length := None;
              Transport.field_type := None; Transport.unit_bytes := None;
              Transport.overhead_bytes := None |}).
  - reflexivity.
  - intros b. vm_compute. congruence.
  - vm_compute. lia.
Defined.

(** ** The detector's framer always leaves its loop *)

Lemma scan_step_buf (header : list byte) (length : LengthDecl)
    (cs : option ChecksumSpec) (sc : Detect.Scan) :
  match Detect.scan_step header length cs sc with
  | Ok (Detect.Again sc') =>
    (List.length (Detect.buf sc') < List.length (Detect.buf sc))%nat
  | _ => True
  end.
Proof.
  unfold Detect.scan_step.
  destruct (Py.find (Detect.buf sc) header <? 0); [exact I |].
  set (sc1 := if 0 <? Py.find (Detect.buf sc) header then _ else sc).
  assert (H1 : (List.length (Detect.buf sc1) <= List.length (Detect.buf sc))%nat).
  { subst sc1. destruct (0 <? Py.find (Detect.buf sc) header); cbn [Detect.buf];
      [apply del_prefix_length | lia]. }
  destruct (Detect.resolve_length length (Detect.buf sc1)) as [t|]; [| exact I].
  cbn [mbind res_bind].
  destruct (Z.leb_spec t 0) as [|Ht]; [exact I |].
  destruct (Z.ltb_spec (Py.len (Detect.buf sc1)) t) as [|Hfit]; [exact I |].
  cbn [orb]. cbv zeta.
  assert (Hlt : (List.length (Py.del_prefix (Detect.buf sc1) t)
                 < List.length (Detect.buf sc))%nat).
  { destruct (del_prefix_length (Detect.buf sc1) t) as [_ Hd].
    destruct (Hd Ht) as [Hd'|Hnil]; [lia |].
    rewrite Hnil in Hfit. unfold Py.len in Hfit. cbn in Hfit. lia. }
  destruct cs as [spec|]; [| exact Hlt].
  destruct (no_keys spec); [exact Hlt |].
  destruct (verify_checksum _ spec) as [[|]|]; exact Hlt.
Qed.

Lemma scan_loop_terminates (header : list byte) (length : LengthDecl)
    (cs : option ChecksumSpec) (fuel : nat) (sc : Detect.Scan) :
  (List.length (Detect.buf sc) < fuel)%nat ->
  Detect.scan_loop fuel header length cs sc <> OutOfFuel.
Proof.
  revert sc. induction fuel as [|fuel IH]; intros sc Hfuel; [lia |].
  cbn [Detect.scan_loop].
  pose proof (scan_step_buf header length cs sc) as Hstep.
  destruct (Detect.scan_step header length cs sc) as [[sc'|sc']|];
    [| discriminate | discriminate].
  apply IH. lia.
Qed.

(** X3. Unlike [frame_stream], [iter_frames] stops on a total length of
    0 as on a negative one: with fuel above the length of the sample it
    returns its counts or raises, for every frame specification. *)
Theorem iter_frames_terminates (fuel : nat) (sample : list byte)
    (frame_spec : FrameSpec) (enable_checksum : bool) :
  (List.length sample < fuel)%nat ->
  Detect.iter_frames fuel sample frame_spec enable_checksum <> OutOfFuel.
Proof.
  intros Hfuel. unfold Detect.iter_frames.
  destruct (fs_header frame_spec) as [[|b header]|]; try discriminate.
  destruct (fs_length frame_spec) as [length|]; [| discriminate].
  pose proof (scan_loop_terminates (b :: header) length
                (if enable_checksum then fs_checksum frame_spec else None) fuel
                {| Detect.ok := 0; Detect.bad := 0; Detect.resyncs := 0;
                   Detect.buf := sample |} Hfuel) as Hloop.
  destruct (Detect.scan_loop _ _ _ _ _); [discriminate | discriminate | congruence].
Qed.

(** On the input that hangs [frame_stream], [iter_frames] returns. *)
Lemma iter_frames_terminates_witness :
  Detect.iter_frames 4 [xaa; x55; x00] Scenarios.whole_frame_u8 false <> OutOfFuel /\
  Detect.iter_frames 4 [xaa; x55; x00] Scenarios.whole_frame_u8 false
  = Returns (0, 0, 0).
Proof.
  split; [| reflexivity].
  apply (iter_frames_terminates 4 [xaa; x55; x00] Scenarios.whole_frame_u8 false).
  vm_compute. lia.
Defined.

(** ** The round trip at the checksum kernels, for the five types *)

Lemma compute_checksum_bound (cs : ChecksumSpec) (ctype : string)
    (frame : list byte) (val : Z) :
  cs_type cs = Some ctype ->
  compute_checksum frame cs = Ok val ->
  0 <= val < 2 ^ Encode.value_bits ctype.
Proof.
  intros Htype. unfold compute_checksum. rewrite Htype.
  cbn [require mbind res_bind].
  assert (Hland : forall x k, 0 <= k -> 0 <= Z.land x (Z.ones k) < 2 ^ k)
    by (intros x k Hk; rewrite Z.land_ones by lia; apply Z.mod_pos_bound; lia).
  destruct (String.eqb_spec ctype "xor16_slices") as [->|_].
  { destruct (cs_params cs); [| discriminate]. intros [= <-].
    unfold checksum_xor16_slices.
    destruct (fold_left _ _ _) as [lo up].
    change (Encode.value_bits "xor16_slices") with 16. apply (Hland _ 16). lia. }
  destruct (cs_range cs) as [[[rfrom|] [rto|]]|]; try discriminate.
  cbn [require mbind res_bind rng_from rng_to].
  destruct (_ || _); [discriminate |].
  destruct (String.eqb_spec ctype "sum8") as [->|_].
  { intros [= <-]. change (2 ^ Encode.value_bits "sum8") with 256.
    apply checksum_sum8_bound. }
  destruct (String.eqb_spec ctype "cs15") as [->|_].
  { unfold checksum_cs15. destruct (foldM _ _ _) as [chk32|]; [| discriminate].
    cbn [mbind res_bind mret res_ret]. intros [= <-].
    change (Encode.value_bits "cs15") with 15. apply (Hland _ 15). lia. }
  destruct (String.eqb_spec ctype "crc16") as [->|_].
  { cbn [orb]. destruct (falsy _); [discriminate |].
    destruct (cs_params cs) as [p|]; [| discriminate].
    destruct (crc_poly p), (crc_init p), (crc_xorout p), (crc_refin p), (crc_refout p);
      try discriminate.
    cbn [require mbind res_bind]. intros [= <-].
    change (Encode.value_bits "crc16") with 16.
    apply crc_compute_bound. lia. }
  destruct (String.eqb_spec ctype "crc32") as [->|_]; [| discriminate].
  cbn [orb]. destruct (falsy _); [discriminate |].
  destruct (cs_params cs) as [p|]; [| discriminate].
  destruct (crc_poly p), (crc_init p), (crc_xorout p), (crc_refin p), (crc_refout p);
    try discriminate.
  cbn [require mbind res_bind]. intros [= <-].
  change (Encode.value_bits "crc32") with 32.
  apply crc_compute_bound. lia.
Qed.

Lemma place_length (frame stored : list byte) (store_at : Z) :
  0 <= resolve_index store_at (Py.len frame) ->
  resolve_index store_at (Py.len frame) + Z.of_nat (length stored) <= Py.len frame ->
  length (Encode.place frame store_at stored) = length frame.
Proof.
  intros H0 H1. unfold Encode.place, Py.len in *.
  rewrite !length_app, length_take, length_drop. lia.
Qed.

(** Reading the checksum field back after [place]. *)
Lemma read_expected_place (sf : string) (little : bool) (n : nat) (v store_at : Z)
    (frame : list byte) :
  Encode.store_fmt sf little n -> 0 <= v < 256 ^ Z.of_nat n ->
  0 <= resolve_index store_at (Py.len frame) ->
  resolve_index store_at (Py.len frame) + Z.of_nat n <= Py.len frame ->
  let stored := if little then Encode.le_bytes n v else rev (Encode.le_bytes n v) in
  read_expected_checksum (Encode.place frame store_at stored) store_at sf = Ok v.
Proof.
  intros Hfmt Hv H0 H1 stored.
  assert (Hlen : length stored = n).
  { unfold stored. destruct little; rewrite ?length_rev; apply le_bytes_length. }
  assert (Hplen : length (Encode.place frame store_at stored) = length frame)
    by (apply place_length; rewrite ?Hlen; assumption).
  assert (Hread : read_expected_checksum (Encode.place frame store_at stored) store_at sf =
    (let start := resolve_index store_at (Py.len (Encode.place frame store_at stored)) in
     let end_ := start + Z.of_nat n in
     if (start <? 0) || (Py.len (Encode.place frame store_at stored) <? end_)
     then Raise ValueError
     else
       let raw := Py.slice (Encode.place frame store_at stored) start end_ in
       match n with
       | 1%nat => Py.getitem raw 0
       | _ => Ok (if little then Py.from_bytes_le raw else Py.from_bytes_be raw)
       end)).
  { destruct Hfmt; reflexivity. }
  rewrite Hread. cbv zeta. unfold Py.len in *. rewrite Hplen.
  set (at_ := resolve_index store_at (Z.of_nat (length frame))) in *.
  destruct (Z.ltb_spec at_ 0); [lia |].
  destruct (Z.ltb_spec (Z.of_nat (length frame)) (at_ + Z.of_nat n)); [lia |].
  cbn [orb].
  assert (Hsl : Py.slice (Encode.place frame store_at stored) at_ (at_ + Z.of_nat n)
                = stored).
  { rewrite slice_inner by (rewrite ?Hplen; lia).
    unfold Encode.place, Py.len. fold at_. rewrite Hlen.
    rewrite app_assoc.
    rewrite take_app_le by (rewrite length_app, length_take; lia).
    rewrite take_ge by (rewrite length_app, length_take; lia).
    rewrite drop_app_le by (rewrite length_take; lia).
    rewrite drop_ge by (rewrite length_take; lia). reflexivity. }
  rewrite !Hsl.
  pose proof (from_stored little n v Hv) as Hback. subst stored.
  destruct Hfmt; try (f_equal; exact Hback).
  cbn [Encode.le_bytes].
  rewrite (getitem_lookup [Py.z2b v] 0 (Py.z2b v) eq_refl
           : Py.getitem [Py.z2b v] 0 = _).
  rewrite b2z_z2b. f_equal. apply Z.mod_small.
  change (256 ^ Z.of_nat 1) with 256 in Hv. exact Hv.
Qed.

(** Computing, placing and verifying: the stored value is read back
    as the checksum computed, when the format holds it and the bytes of
    the field do not enter the checksum. *)
Lemma place_compute_verified (cs : ChecksumSpec) (ctype sf : string) (little : bool)
    (n : nat) (frame : list byte) (store_at val : Z) :
  cs_type cs = Some ctype ->
  In ctype ["sum8"; "cs15"; "xor16_slices"; "crc16"; "crc32"]%string ->
  Encode.store_fmt sf little n ->
  Encode.format_used cs ctype sf ->
  Encode.value_bits ctype <= 8 * Z.of_nat n ->
  cs_store_at cs = Some store_at ->
  0 <= resolve_index store_at (Py.len frame) ->
  resolve_index store_at (Py.len frame) + Z.of_nat n <= Py.len frame ->
  compute_checksum frame cs = Ok val ->
  Encode.field_free cs frame store_at n ->
  exists stored,
    Encode.encode_checksum val sf = Ok stored /\
    verify_checksum (Encode.place frame store_at stored) cs = Ok true.
Proof.
  intros Htype Hin Hfmt Hused Hbits Hat H0 H1 Hval Hfree.
  assert (Hbound : 0 <= val < 256 ^ Z.of_nat n).
  { pose proof (compute_checksum_bound cs ctype frame val Htype Hval) as Hb.
    replace (256 ^ Z.of_nat n) with (2 ^ (8 * Z.of_nat n))
      by (rewrite Z.pow_mul_r by lia; reflexivity).
    split; [lia |]. apply Z.lt_le_trans with (2 ^ Encode.value_bits ctype); [lia |].
    apply Z.pow_le_mono_r; lia. }
  eexists. split; [exact (encode_checksum_fmt sf little n val Hfmt Hbound) |].
  unfold verify_checksum. rewrite Htype. cbn [require mbind res_bind].
  assert (Hformat :
    (if falsy (cs_store_format cs)
     then if String.eqb ctype "sum8" then Ok "uint8"%string
          else if String.eqb ctype "cs15" || String.eqb ctype "xor16_slices"
               then Ok "uint16_le"%string
               else Raise ValueError
     else Ok (default ""%string (cs_store_format cs))) = Ok sf).
  { destruct Hused as [->|(-> & [(-> & ->)|([->| ->] & ->)])]; try reflexivity.
    cbn [falsy default]. destruct Hfmt; reflexivity. }
  rewrite Hformat, Hat. cbn [require mbind res_bind].
  rewrite (read_expected_place sf little n val store_at frame Hfmt Hbound H0 H1).
  cbn [mbind res_bind].
  rewrite Hfree by (destruct little; rewrite ?length_rev; apply le_bytes_length).
  rewrite Hval. cbn [mbind res_bind mret res_ret]. now rewrite Z.eqb_refl.
Qed.

(** X4. For each of the five checksum types: take a frame, compute its
    checksum, and put it in the checksum field in a store format wide
    enough for the type; if the checksum does not depend on the bytes of
    that field, [verify_checksum] accepts the result. *)
Theorem verify_place_compute (cs : ChecksumSpec) (ctype sf : string) (little : bool)
    (n : nat) (frame : list byte) (store_at val : Z) :
  cs_type cs = Some ctype ->
  In ctype ["sum8"; "cs15"; "xor16_slices"; "crc16"; "crc32"]%string ->
  Encode.store_fmt sf little n ->
  Encode.format_used cs ctype sf ->
  Encode.value_bits ctype <= 8 * Z.of_nat n ->
  cs_store_at cs = Some store_at ->
  0 <= resolve_index store_at (Py.len frame) ->
  resolve_index store_at (Py.len frame) + Z.of_nat n <= Py.len frame ->
  compute_checksum frame cs = Ok val ->
  Encode.field_free cs frame store_at n ->
  exists stored,
    Encode.encode_checksum val sf = Ok stored /\
    verify_checksum (Encode.place frame store_at stored) cs = Ok true.
Proof.
  exact (place_compute_verified cs ctype sf little n frame store_at val).
Qed.

Lemma slice_place_outside (frame stored : list byte) (store_at a b : Z) :
  let at_ := resolve_index store_at (Py.len frame) in
  0 <= at_ -> at_ + Z.of_nat (length stored) <= Py.len frame ->
  0 <= a -> a <= b -> b <= Py.len frame ->
  b <= at_ \/ at_ + Z.of_nat (length stored) <= a ->
  Py.slice (Encode.place frame store_at stored) a b = Py.slice frame a b.
Proof.
  intros at_ H0 H1 Ha Hab Hb Hout.
  assert (Hplen : length (Encode.place frame store_at stored) = length frame)
    by (apply place_length; assumption).
  unfold Py.len in *.
  rewrite !slice_inner by (rewrite ?Hplen; lia).
  unfold Encode.place, Py.len. fold at_.
  destruct Hout as [Hbefore|Hafter].
  - rewrite take_app_le by (rewrite length_take; lia).
    rewrite take_take. f_equal. f_equal. lia.
  - replace (Z.to_nat b) with (Z.to_nat a + Z.to_nat (b - a))%nat by lia.
    rewrite <- !take_drop_commute. f_equal.
    rewrite (app_assoc (take _ frame)).
    rewrite drop_app_ge by (rewrite length_app, length_take; lia).
    rewrite length_app, length_take, drop_drop. f_equal. lia.
Qed.

(** For the types with a range: a range that does not meet the
    checksum field makes the checksum independent of it. *)
Lemma range_field_free (cs : ChecksumSpec) (ctype : string) (frame : list byte)
    (store_at rfrom rto : Z) (n : nat) :
  cs_type cs = Some ctype -> ctype <> "xor16_slices"%string ->
  cs_range cs = Some {| rng_from := Some rfrom; rng_to := Some rto |} ->
  let at_ := resolve_index store_at (Py.len frame) in
  let start := resolve_index rfrom (Py.len frame) in
  let end_ := resolve_index rto (Py.len frame) in
  0 <= at_ -> at_ + Z.of_nat n <= Py.len frame ->
  0 <= start -> start <= end_ -> end_ < Py.len frame ->
  end_ < at_ \/ at_ + Z.of_nat n <= start ->
  Encode.field_free cs frame store_at n.
Proof.
  intros Htype Hxor Hrng at_ start end_ H0 H1 Hs Hse He Hout stored Hlen.
  assert (Hplen : Py.len (Encode.place frame store_at stored) = Py.len frame)
    by (unfold Py.len; f_equal; apply place_length; rewrite ?Hlen; assumption).
  assert (Hslice : Py.slice (Encode.place frame store_at stored) start (end_ + 1)
                   = Py.slice frame start (end_ + 1)).
  { apply slice_place_outside; rewrite ?Hlen; fold at_; fold end_; lia. }
  unfold compute_checksum. rewrite Htype. cbn [require mbind res_bind].
  destruct (String.eqb_spec ctype "xor16_slices"); [congruence |].
  rewrite Hrng. cbn [require mbind res_bind rng_from rng_to].
  rewrite Hplen. fold start. fold end_. unfold checksum_sum8. rewrite Hslice.
  reflexivity.
Qed.

(** A CS15 frame: the checksum of bytes 0..7 goes in the last two
    bytes, a round trip the encoder does not offer. *)
Lemma verify_place_compute_witness :
  exists stored,
    Encode.encode_checksum 24129 "uint16_le" = Ok stored /\
    forall cs,
      fs_checksum (Encode.checksummed "cs15" "uint16_le" (-3) (-2)) = Some cs ->
      verify_checksum
        (Encode.place [x55; xaa; x04; x10; xde; xad; xbe; xef; x00; x00] (-2) stored) cs
      = Ok true.
Proof.
  destruct (verify_place_compute
              {| cs_type := Some "cs15"%string;
                 cs_range := Some {| rng_from := Some 0; rng_to := Some (-3) |};
                 cs_store_at := Some (-2);
                 cs_store_format := Some "uint16_le"%string;
                 cs_params := Some Encode.modbus_params |}
              "cs15" "uint16_le" true 2
              [x55; xaa; x04; x10; xde; xad; xbe; xef; x00; x00] (-2) 24129)
    as (stored & Henc & Hverify).
  - reflexivity.
  - right. left. reflexivity.
  - constructor.
  - left. reflexivity.
  - vm_compute. congruence.
  - reflexivity.
  - vm_compute. congruence.
  - vm_compute. congruence.
  - vm_compute. reflexivity.
  - apply (range_field_free _ "cs15" _ (-2) 0 (-3) 2); try reflexivity;
      try (vm_compute; congruence).
    left. vm_compute. reflexivity.
  - exists stored. split; [exact Henc |]. intros cs [= <-]. exact Hverify.
Defined.

(** ** C3: the checksum round trip *)





(** ** Reading the ring back *)

Lemma oldest_first_length (h : Shm.ShmHandles) :
  length (Shm.oldest_first h) = length (Shm.data h).
Proof.
  unfold Shm.oldest_first. rewrite length_app, length_drop, length_take. lia.
Qed.

Lemma read_latest_oldest_first (h : Shm.ShmHandles) (k : Z) :
  Shm.wf h -> 0 < k ->
  Shm.read_latest h k
  = Ok (Shm.lastn (Z.to_nat (Z.min k (Shm.capacity (Shm.ctrl h)))) (Shm.oldest_first h)).
Proof.
  destruct h as [[ver cap w sq ts] dat]. unfold Shm.wf, Shm.read_latest, Shm.lastn.
  rewrite oldest_first_length. unfold Shm.oldest_first.
  cbn [Shm.ctrl Shm.data Shm.capacity Shm.write_index].
  intros (Hlen & Hcap & Hw) Hk. unfold Py.len in Hlen.
  destruct (Z.leb_spec k 0); [lia |].
  set (m := Z.min k cap). assert (Hm : 0 < m <= cap) by (unfold m; lia).
  unfold Shm.py_mod. destruct (Z.eqb_spec cap 0); [lia |]. cbn [mbind res_bind].
  destruct (Z.le_gt_cases m w) as [Hmw|Hmw].
  - rewrite (Z.mod_small (w - m) cap) by lia.
    destruct (Z.ltb_spec (w - m) w); [| lia].
    rewrite slice_inner by lia. f_equal.
    rewrite drop_app_ge by (rewrite length_drop; lia).
    rewrite length_drop. f_equal. lia.
  - replace ((w - m) mod cap) with (w - m + cap)
      by (apply (Z.mod_unique_pos _ _ (-1)); lia).
    destruct (Z.ltb_spec (w - m + cap) w); [lia |].
    rewrite <- Hlen at 2. rewrite slice_drop by lia.
    rewrite slice_take by lia. f_equal.
    rewrite drop_app_le by (rewrite length_drop; lia).
    rewrite drop_drop. do 2 f_equal. lia.
Qed.

Lemma oldest_first_lookup (h : Shm.ShmHandles) (i : nat) :
  Shm.wf h -> (i < length (Shm.data h))%nat ->
  Shm.oldest_first h !! i
  = Shm.data h !! Z.to_nat ((Shm.write_index (Shm.ctrl h) + Z.of_nat i)
                            mod Shm.capacity (Shm.ctrl h)).
Proof.
  destruct h as [[ver cap w sq ts] dat]. unfold Shm.wf, Shm.oldest_first.
  cbn [Shm.ctrl Shm.data Shm.capacity Shm.write_index].
  intros (Hlen & Hcap & Hw) Hi. unfold Py.len in Hlen.
  destruct (Z.lt_ge_cases (w + Z.of_nat i) cap) as [Hlo|Hhi].
  - rewrite Z.mod_small by lia.
    rewrite lookup_app_l by (rewrite length_drop; lia).
    rewrite lookup_drop. f_equal. lia.
  - replace ((w + Z.of_nat i) mod cap) with (w + Z.of_nat i - cap)
      by (apply (Z.mod_unique_pos _ _ 1); lia).
    rewrite lookup_app_r by (rewrite length_drop; lia).
    rewrite length_drop. rewrite lookup_take_lt by lia. f_equal. lia.
Qed.

(** A write appends the batch to the ring read oldest first, and the
    ring keeps the last [capacity] rows of the result. *)
Lemma oldest_first_write (h : Shm.ShmHandles) (rows : list Shm.Point) (now : Z) :
  Shm.wf h -> 0 < Py.len rows ->
  0 <= Shm.seq (Shm.ctrl h) + 1 < 2 ^ 64 -> 0 <= now < 2 ^ 64 ->
  exists h',
    Shm.write_points h rows now = Ok h' /\ Shm.wf h' /\
    Shm.capacity (Shm.ctrl h') = Shm.capacity (Shm.ctrl h) /\
    Shm.seq (Shm.ctrl h') = Shm.seq (Shm.ctrl h) + 1 /\
    Shm.oldest_first h'
    = Shm.lastn (Z.to_nat (Shm.capacity (Shm.ctrl h))) (Shm.oldest_first h ++ rows).
Proof.
  intros Hwf Hn Hsq Hnow.
  pose proof (oldest_first_length h) as Hofl.
  pose proof Hwf as (Hlen & Hcap & Hw). unfold Py.len in Hlen, Hn.
  destruct (Z.le_gt_cases (Shm.capacity (Shm.ctrl h)) (Py.len rows)) as [Hc|Hc].
  - eexists. split; [apply write_points_long; assumption |].
    unfold Py.len in Hc.
    split; [| split; [reflexivity | split; [reflexivity |]]].
    { unfold Shm.wf, Py.len. cbn [Shm.ctrl Shm.data Shm.capacity Shm.write_index].
      rewrite length_drop. lia. }
    unfold Shm.lastn, Shm.oldest_first at 1, Py.len.
    cbn [Shm.ctrl Shm.data Shm.capacity Shm.write_index].
    change (Z.to_nat 0) with 0%nat. rewrite drop_0, take_0, app_nil_r.
    rewrite length_app, Hofl.
    rewrite drop_app_ge by lia. f_equal. lia.
  - unfold Py.len in Hc.
    destruct (write_points_short h rows now Hwf) as (d & Hrun & Hd & Hslots);
      [unfold Py.len; lia | assumption | assumption |].
    eexists. split; [exact Hrun |].
    set (cap := Shm.capacity (Shm.ctrl h)) in *.
    set (w := Shm.write_index (Shm.ctrl h)) in *.
    set (n := length rows) in *.
    assert (Hw' : 0 <= (w + Py.len rows) mod cap < cap) by (apply Z.mod_pos_bound; lia).
    assert (Hwf' : Shm.wf {| Shm.ctrl :=
                      {| Shm.version := Shm.version (Shm.ctrl h); Shm.capacity := cap;
                         Shm.write_index := (w + Py.len rows) mod cap;
                         Shm.seq := Shm.seq (Shm.ctrl h) + 1;
                         Shm.last_write_ns := now |};
                    Shm.data := d |}).
    { unfold Shm.wf, Py.len. cbn [Shm.ctrl Shm.data Shm.capacity Shm.write_index].
      rewrite Hd. unfold Py.len in Hw'. lia. }
    split; [exact Hwf' |]. split; [reflexivity |]. split; [reflexivity |].
    apply list_eq. intros i.
    unfold Shm.lastn. rewrite length_app, Hofl. fold n.
    replace (length (Shm.data h) + n - Z.to_nat cap)%nat with n by lia.
    rewrite lookup_drop.
    destruct (Nat.lt_ge_cases i (Z.to_nat cap)) as [Hi|Hi].
    + rewrite oldest_first_lookup by (try assumption; cbn [Shm.data]; lia).
      cbn [Shm.ctrl Shm.data Shm.capacity Shm.write_index].
      rewrite Z.add_mod_idemp_l by lia. unfold Py.len. fold n.
      set (j := (w + Z.of_nat n + Z.of_nat i) mod cap).
      assert (Hj : 0 <= j < cap) by (apply Z.mod_pos_bound; lia).
      rewrite (Hslots j Hj). unfold j.
      rewrite Zminus_mod_idemp_l.
      replace (w + Z.of_nat n + Z.of_nat i - w) with (Z.of_nat n + Z.of_nat i) by lia.
      unfold Py.len. fold n.
      destruct (Z.lt_ge_cases (Z.of_nat n + Z.of_nat i) cap) as [Hlo|Hhi].
      * rewrite (Z.mod_small (Z.of_nat n + Z.of_nat i)) by lia.
        destruct (Z.ltb_spec (Z.of_nat n + Z.of_nat i) (Z.of_nat n)); [lia |].
        rewrite lookup_app_l by lia.
        rewrite oldest_first_lookup by (try assumption; lia).
        fold w cap. do 3 f_equal. lia.
      * replace ((Z.of_nat n + Z.of_nat i) mod cap) with (Z.of_nat n + Z.of_nat i - cap)
          by (apply (Z.mod_unique_pos _ _ 1); lia).
        destruct (Z.ltb_spec (Z.of_nat n + Z.of_nat i - cap) (Z.of_nat n)); [| lia].
        rewrite lookup_app_r by lia. f_equal. lia.
    + rewrite lookup_ge_None_2 by (rewrite oldest_first_length; cbn [Shm.data]; lia).
      symmetry. apply lookup_ge_None_2. rewrite length_app. lia.
Qed.

Lemma lastn_app {A : Type} (a : nat) (l r : list A) :
  (a <= length r)%nat -> Shm.lastn a (l ++ r) = Shm.lastn a r.
Proof.
  intros Ha. unfold Shm.lastn. rewrite length_app.
  rewrite drop_app_ge by lia. f_equal. lia.
Qed.

Lemma lastn_lastn {A : Type} (a b : nat) (l : list A) :
  (a <= b)%nat -> Shm.lastn a (Shm.lastn b l) = Shm.lastn a l.
Proof.
  intros Hab. unfold Shm.lastn. rewrite length_drop, drop_drop. f_equal. lia.
Qed.

Lemma lastn_all {A : Type} (a : nat) (l : list A) :
  (length l <= a)%nat -> Shm.lastn a l = l.
Proof.
  intros Ha. unfold Shm.lastn. replace (length l - a)%nat with 0%nat by lia.
  apply drop_0.
Qed.

(** X5. On a well-formed ring [read_latest] never raises and returns
    exactly [min(max_points, capacity)] rows, none when [max_points] is
    not positive. *)
Theorem read_latest_length (h : Shm.ShmHandles) (max_points : Z) :
  Shm.wf h ->
  exists rows,
    Shm.read_latest h max_points = Ok rows /\
    Py.len rows = Z.max 0 (Z.min max_points (Shm.capacity (Shm.ctrl h))).
Proof.
  intros Hwf. pose proof Hwf as (Hlen & Hcap & Hw).
  destruct (Z.le_gt_cases max_points 0) as [Hk|Hk].
  - exists []. unfold Shm.read_latest.
    destruct (Z.leb_spec max_points 0); [| lia].
    rewrite slice_take by lia.
    split; [reflexivity |]. unfold Py.len. cbn [length]. lia.
  - eexists. split; [apply read_latest_oldest_first; [assumption | lia] |].
    unfold Py.len, Shm.lastn in *. rewrite length_drop, oldest_first_length. lia.
Qed.

Lemma read_latest_length_witness :
  exists rows, Shm.read_latest Shm.ring4 9 = Ok rows /\ Py.len rows = 4.
Proof.
  apply (read_latest_length Shm.ring4 9).
  unfold Shm.wf. vm_compute. repeat split; congruence.
Defined.

Lemma lastn_app_lastn {A : Type} (c : nat) (l m : list A) :
  Shm.lastn c (Shm.lastn c l ++ m) = Shm.lastn c (l ++ m).
Proof.
  unfold Shm.lastn. rewrite !length_app, length_drop.
  destruct (Nat.le_gt_cases (length l) c) as [Hl|Hl].
  { replace (length l - c)%nat with 0%nat by lia. rewrite drop_0.
    f_equal. lia. }
  destruct (Nat.le_gt_cases (length m) c) as [Hm|Hm].
  - rewrite !drop_app_le by (rewrite ?length_drop; lia).
    rewrite drop_drop. do 2 f_equal. lia.
  - rewrite !drop_app_ge by (rewrite ?length_drop; lia).
    rewrite length_drop. f_equal. lia.
Qed.

Lemma last_cons_default {A : Type} (l : list A) (a d : A) :
  List.last (a :: l) d = List.last l a.
Proof.
  revert a d. induction l as [|s l IH]; intros a d; [reflexivity |].
  change (List.last (a :: s :: l) d) with (List.last (s :: l) d).
  now rewrite !IH.
Qed.

Lemma write_all_oldest_first (calls : list (list Shm.Point * Z)) (h : Shm.ShmHandles) :
  Shm.wf h ->
  0 <= Shm.seq (Shm.ctrl h) ->
  Shm.seq (Shm.ctrl h) + Py.len calls < 2 ^ 64 ->
  Forall (fun c => 0 <= c.2 < 2 ^ 64) calls ->
  exists hs,
    Shm.write_all h calls = Ok hs /\
    Shm.wf (List.last hs h) /\
    Shm.capacity (Shm.ctrl (List.last hs h)) = Shm.capacity (Shm.ctrl h) /\
    Shm.oldest_first (List.last hs h)
    = Shm.lastn (Z.to_nat (Shm.capacity (Shm.ctrl h)))
                (Shm.oldest_first h ++ Shm.rows_written calls).
Proof.
  revert h. induction calls as [|[rows now] calls IH]; intros h Hwf Hsq0 Hsq Hclk.
  { exists []. cbn [Shm.write_all List.last]. repeat split; try apply Hwf.
    unfold Shm.rows_written. cbn [map concat]. rewrite app_nil_r.
    symmetry. apply lastn_all. rewrite oldest_first_length.
    destruct Hwf as (Hlen & _). unfold Py.len in Hlen. lia. }
  unfold Py.len in Hsq. cbn [length] in Hsq.
  apply Forall_cons in Hclk as [Hnow Hclk]. cbn [snd] in Hnow.
  assert (Hstep : exists h',
             Shm.write_points h rows now = Ok h' /\ Shm.wf h' /\
             Shm.capacity (Shm.ctrl h') = Shm.capacity (Shm.ctrl h) /\
             Shm.seq (Shm.ctrl h) <= Shm.seq (Shm.ctrl h') <= Shm.seq (Shm.ctrl h) + 1 /\
             Shm.oldest_first h'
             = Shm.lastn (Z.to_nat (Shm.capacity (Shm.ctrl h)))
                         (Shm.oldest_first h ++ rows)).
  { destruct rows as [|r rows].
    - exists h. repeat split; try apply Hwf; try lia.
      rewrite app_nil_r. symmetry. apply lastn_all. rewrite oldest_first_length.
      destruct Hwf as (Hlen & _). unfold Py.len in Hlen. lia.
    - destruct (oldest_first_write h (r :: rows) now Hwf)
        as (h' & Hrun & Hwf' & Hcap' & Hseq' & Hof');
        [unfold Py.len; cbn [length]; lia | lia | assumption |].
      exists h'. repeat split; try assumption; try apply Hwf'; lia. }
  destruct Hstep as (h' & Hrun & Hwf' & Hcap' & Hseq' & Hof').
  destruct (IH h' Hwf') as (hs & Hall & Hwfl & Hcapl & Hofl);
    [lia | unfold Py.len; lia | assumption |].
  exists (h' :: hs). cbn [Shm.write_all]. rewrite Hrun. cbn [mbind res_bind].
  rewrite Hall. cbn [mbind res_bind]. split; [reflexivity |].
  rewrite last_cons_default. split; [assumption |]. split; [congruence |].
  rewrite Hofl, Hof', Hcap'. unfold Shm.rows_written. cbn [map concat fst].
  fold (Shm.rows_written calls).
  rewrite lastn_app_lastn. now rewrite app_assoc.
Qed.

(** X6. After any sequence of writes on a well-formed ring, [read_latest]
    returns the most recent rows in the order they were written: for
    [k] no larger than the capacity nor than the number of rows written,
    the last [k] rows of the batches put end to end. *)
Theorem read_latest_after_writes (h : Shm.ShmHandles) (calls : list (list Shm.Point * Z))
    (k : Z) :
  Shm.wf h ->
  0 <= Shm.seq (Shm.ctrl h) ->
  Shm.seq (Shm.ctrl h) + Py.len calls < 2 ^ 64 ->
  Forall (fun c => 0 <= c.2 < 2 ^ 64) calls ->
  0 < k <= Shm.capacity (Shm.ctrl h) ->
  k <= Py.len (Shm.rows_written calls) ->
  exists hs,
    Shm.write_all h calls = Ok hs /\
    Shm.read_latest (List.last hs h) k
    = Ok (Shm.lastn (Z.to_nat k) (Shm.rows_written calls)).
Proof.
  intros Hwf Hsq0 Hsq Hclk Hk Hrows.
  destruct (write_all_oldest_first calls h Hwf Hsq0 Hsq Hclk)
    as (hs & Hall & Hwfl & Hcapl & Hofl).
  exists hs. split; [exact Hall |].
  rewrite read_latest_oldest_first by (try assumption; lia).
  rewrite Hcapl, Hofl. rewrite Z.min_l by lia.
  rewrite lastn_lastn by lia. f_equal. apply lastn_app.
  unfold Py.len in Hrows. lia.
Qed.

Lemma read_latest_after_writes_witness :
  exists hs,
    Shm.write_all Shm.ring4
      [(map Shm.row [0; 1; 2], 1000); ([], 1001); (map Shm.row [3; 4], 1002)] = Ok hs /\
    Shm.read_latest (List.last hs Shm.ring4) 4 = Ok (map Shm.row [1; 2; 3; 4]).
Proof.
  apply (read_latest_after_writes Shm.ring4
           [(map Shm.row [0; 1; 2], 1000); ([], 1001); (map Shm.row [3; 4], 1002)] 4).
  - unfold Shm.wf. vm_compute. repeat split; congruence.
  - vm_compute. congruence.
  - reflexivity.
  - repeat constructor; vm_compute; congruence.
  - vm_compute. split; congruence.
  - vm_compute. congruence.
Defined.

(** ** The ring never changes size *)

Lemma write_points_ok_inv (h h' : Shm.ShmHandles) (rows : list Shm.Point) (now : Z) :
  Shm.write_points h rows now = Ok h' ->
  rows = [] /\ h' = h \/
  0 <= Shm.seq (Shm.ctrl h) + 1 < 2 ^ 64 /\ 0 <= now < 2 ^ 64.
Proof.
  intros H. unfold Shm.write_points in H.
  destruct (Z.leb_spec (Py.len rows) 0) as [Hn|Hn].
  { left. injection H as <-. split; [| reflexivity].
    destruct rows; [reflexivity |]. unfold Py.len in Hn. cbn [length] in Hn. lia. }
  right.
  assert (Hstore : forall bits v z, Shm.store_uint bits v = Ok z -> 0 <= v < 2 ^ bits).
  { intros bits v z Hs. unfold Shm.store_uint in Hs.
    destruct (Z.leb_spec 0 v); [| discriminate].
    destruct (Z.ltb_spec v (2 ^ bits)); [lia | discriminate]. }
  destruct (Shm.capacity (Shm.ctrl h) <=? Py.len rows);
    repeat match type of H with
           | @mbind _ _ _ _ _ ?m = Ok _ =>
             let E := fresh "E" in
             destruct m eqn:E; cbn [mbind res_bind] in H; [| discriminate H]
           end;
    eauto.
Qed.

(** X7. The ring is a fixed-capacity store: [create_ring] raises for a
    capacity that is not positive and otherwise returns a ring of that
    many zeroed slots, and no sequence of writes changes the capacity
    or the number of slots. *)
Theorem ring_storage_fixed (capacity_points : Z) (calls : list (list Shm.Point * Z))
    (h : Shm.ShmHandles) (hs : list Shm.ShmHandles) :
  Shm.create_ring capacity_points = Ok h ->
  Shm.write_all h calls = Ok hs ->
  0 < capacity_points /\
  Shm.data h = replicate (Z.to_nat capacity_points) Shm.zero_point /\
  Forall (fun s => Shm.capacity (Shm.ctrl s) = capacity_points /\
                   Py.len (Shm.data s) = capacity_points /\
                   0 <= Shm.write_index (Shm.ctrl s) < capacity_points) (h :: hs).
Proof.
  intros Hnew Hall. unfold Shm.create_ring in Hnew.
  destruct (Z.leb_spec capacity_points 0) as [|Hpos]; [discriminate |].
  unfold Shm.store_uint in Hnew.
  destruct (Z.leb_spec 0 capacity_points); [| lia].
  destruct (Z.ltb_spec capacity_points (2 ^ 32)) as [Hlt|]; [| discriminate].
  cbn [andb mbind res_bind] in Hnew. injection Hnew as <-.
  split; [assumption |]. split; [reflexivity |].
  match goal with |- Forall _ (?h0 :: _) => set (h := h0) in * end.
  assert (Hwf : Shm.wf h /\ Shm.capacity (Shm.ctrl h) = capacity_points).
  { unfold Shm.wf, Py.len, h. cbn [Shm.ctrl Shm.data Shm.capacity Shm.write_index].
    rewrite length_replicate. lia. }
  clearbody h. revert h hs Hwf Hall.
  induction calls as [|[rows now] calls IH]; intros h hs [Hwf Hcap] Hall.
  - injection Hall as <-. constructor; [| constructor].
    destruct Hwf as (Hlen & _ & Hw). rewrite Hcap in *. auto.
  - cbn [Shm.write_all] in Hall.
    destruct (Shm.write_points h rows now) as [h'|] eqn:Hrun; [| discriminate].
    cbn [mbind res_bind] in Hall.
    destruct (Shm.write_all h' calls) as [hs'|] eqn:Hrest; [| discriminate].
    cbn [mbind res_bind] in Hall. injection Hall as <-.
    assert (Hwf' : Shm.wf h' /\ Shm.capacity (Shm.ctrl h') = capacity_points).
    { destruct (write_points_ok_inv h h' rows now Hrun) as [[_ ->]|[Hsq Hnow]];
        [now split |].
      destruct rows as [|r rows]; [injection Hrun as <-; now split |].
      destruct (oldest_first_write h (r :: rows) now Hwf)
        as (h2 & Hrun2 & Hwf2 & Hcap2 & _);
        [unfold Py.len; cbn [length]; lia | assumption | assumption |].
      rewrite Hrun in Hrun2. injection Hrun2 as <-. split; [assumption | congruence]. }
    constructor; [| exact (IH h' hs' Hwf' Hrest)].
    destruct Hwf as (Hlen & _ & Hw). rewrite Hcap in *. auto.
Qed.

Lemma ring_storage_fixed_witness :
  exists h hs,
    Shm.create_ring 4 = Ok h /\
    Shm.write_all h [(map Shm.row [0; 1; 2; 3; 4; 5], 1000); ([Shm.row 6], 1002)] = Ok hs /\
    Forall (fun s => Shm.capacity (Shm.ctrl s) = 4 /\ Py.len (Shm.data s) = 4 /\
                     0 <= Shm.write_index (Shm.ctrl s) < 4) (h :: hs).
Proof.
  eexists. eexists.
  assert (Hnew : Shm.create_ring 4 = Ok Shm.ring4) by reflexivity.
  split; [exact Hnew |]. split; [vm_compute; reflexivity |].
  refine (proj2 (proj2 (ring_storage_fixed 4
            [(map Shm.row [0; 1; 2; 3; 4; 5], 1000); ([Shm.row 6], 1002)] _ _ Hnew _))).
  vm_compute. reflexivity.
Defined.

(** ** Bit reflection *)

Lemma range_by_one (width : Z) :
  Py.range 0 width 1 = map Z.of_nat (seq 0 (Z.to_nat width)).
Proof.
  unfold Py.range. replace ((width - 0 + 1 - 1) / 1) with width
    by (rewrite Z.div_1_r; lia).
  apply list_fmap_ext. intros _ k _. lia.
Qed.

Lemma land_one_bit (value i : Z) :
  0 <= i -> (Z.land value (Z.shiftl 1 i) =? 0) = negb (Z.testbit value i).
Proof.
  intros Hi. rewrite Z.shiftl_1_l.
  destruct (Z.testbit value i) eqn:Hbit; cbn [negb].
  - apply Z.eqb_neq. intros H0.
    assert (Hb : Z.testbit (Z.land value (2 ^ i)) i = true)
      by (rewrite Z.land_spec, Hbit, Z.pow2_bits_true by lia; reflexivity).
    rewrite H0, Z.bits_0 in Hb. discriminate.
  - apply Z.eqb_eq. apply Z.bits_inj'. intros k Hk.
    rewrite Z.land_spec, Z.bits_0, Z.pow2_bits_eqb by lia.
    destruct (Z.eqb_spec i k) as [<-|]; [now rewrite Hbit | apply andb_false_r].
Qed.

Lemma reflect_bits_loop (value width : Z) (n : nat) (j : Z) :
  Z.of_nat n <= width -> 0 <= j ->
  Z.testbit
    (fold_left
       (fun result i =>
          if negb (Z.land value (Z.shiftl 1 i) =? 0)
          then Z.lor result (Z.shiftl 1 (width - 1 - i))
          else result)
       (map Z.of_nat (seq 0 n)) 0) j
  = (width - Z.of_nat n <=? j) && (j <? width) && Z.testbit value (width - 1 - j).
Proof.
  intros Hn Hj. induction n as [|n IH].
  - cbn [seq map fold_left]. rewrite Z.bits_0.
    destruct (Z.leb_spec (width - Z.of_nat 0) j); destruct (Z.ltb_spec j width);
      try reflexivity; lia.
  - rewrite seq_S, map_app, fold_left_app. cbn [map fold_left Nat.add].
    rewrite land_one_bit by lia. rewrite negb_involutive.
    specialize (IH ltac:(lia)).
    destruct (Z.testbit value (Z.of_nat n)) eqn:Hbit.
    + rewrite Z.lor_spec, IH, Z.shiftl_1_l, Z.pow2_bits_eqb by lia.
      destruct (Z.eqb_spec (width - 1 - Z.of_nat n) j) as [Heq|Hne].
      * replace (width - 1 - j) with (Z.of_nat n) by lia. rewrite Hbit.
        destruct (Z.leb_spec (width - Z.of_nat (S n)) j); [| lia].
        destruct (Z.ltb_spec j width); [| lia].
        now rewrite orb_true_r.
      * rewrite orb_false_r.
        destruct (Z.leb_spec (width - Z.of_nat n) j);
          destruct (Z.leb_spec (width - Z.of_nat (S n)) j); try reflexivity; lia.
    + rewrite IH.
      destruct (Z.leb_spec (width - Z.of_nat n) j);
        destruct (Z.leb_spec (width - Z.of_nat (S n)) j); try reflexivity; try lia.
      destruct (Z.ltb_spec j width); [| reflexivity]. cbn [andb].
      replace (width - 1 - j) with (Z.of_nat n) by lia. now rewrite Hbit.
Qed.

Lemma reflect_bits_testbit (value width j : Z) :
  0 <= j ->
  Z.testbit (reflect_bits value width) j
  = (j <? width) && Z.testbit value (width - 1 - j).
Proof.
  intros Hj. unfold reflect_bits. rewrite range_by_one.
  destruct (Z.le_gt_cases 0 width) as [Hw|Hw].
  - rewrite reflect_bits_loop by lia.
    destruct (Z.leb_spec (width - Z.of_nat (Z.to_nat width)) j); [reflexivity | lia].
  - replace (Z.to_nat width) with 0%nat by lia. cbn [seq map fold_left].
    rewrite Z.bits_0. destruct (Z.ltb_spec j width); [lia | reflexivity].
Qed.

(** X8. [reflect_bits(value, width)] reverses the low [width] bits of
    [value]: bit [j] of the result is bit [width - 1 - j] of [value] for
    [j < width], the bits from [width] up are clear; so the result is
    below [2^width], and reflecting a [width]-bit value twice gives it back. *)
Theorem reflect_bits_reverses (value width : Z) :
  0 <= width ->
  (forall j, 0 <= j ->
     Z.testbit (reflect_bits value width) j
     = (j <? width) && Z.testbit value (width - 1 - j)) /\
  0 <= reflect_bits value width < 2 ^ width /\
  (0 <= value < 2 ^ width -> reflect_bits (reflect_bits value width) width = value).
Proof.
  intros Hw. split; [intros j Hj; now apply reflect_bits_testbit |].
  assert (Hhigh : forall v, 0 <= v < 2 ^ width -> forall j, width <= j ->
                    Z.testbit v j = false).
  { intros v Hv j Hj. destruct (Z.eq_dec v 0) as [->|Hnz]; [apply Z.bits_0 |].
    apply Z.bits_above_log2; [lia |].
    apply Z.lt_le_trans with width; [apply Z.log2_lt_pow2; lia | lia]. }
  assert (Hrange : 0 <= reflect_bits value width < 2 ^ width).
  { assert (Hnn : 0 <= reflect_bits value width).
    { apply Z.bits_iff_nonneg_ex. exists width. intros m Hm.
      rewrite reflect_bits_testbit by lia.
      destruct (Z.ltb_spec m width); [lia | reflexivity]. }
    split; [exact Hnn |].
    destruct (Z.eq_dec (reflect_bits value width) 0) as [->|Hnz]; [lia |].
    apply Z.log2_lt_pow2; [lia |].
    destruct (Z.lt_ge_cases (Z.log2 (reflect_bits value width)) width) as [|Hge];
      [assumption |].
    exfalso. pose proof (Z.bit_log2 (reflect_bits value width) ltac:(lia)) as Hb.
    rewrite reflect_bits_testbit in Hb by (apply Z.log2_nonneg).
    destruct (Z.ltb_spec (Z.log2 (reflect_bits value width)) width);
      [lia | discriminate]. }
  split; [exact Hrange |].
  intros Hv. apply Z.bits_inj'. intros j Hj.
  rewrite reflect_bits_testbit by assumption.
  destruct (Z.ltb_spec j width) as [Hlt|Hge]; cbn [andb].
  - rewrite reflect_bits_testbit by lia.
    destruct (Z.ltb_spec (width - 1 - j) width); [| lia]. cbn [andb].
    f_equal. lia.
  - symmetry. now apply Hhigh.
Qed.

Lemma reflect_bits_reverses_witness :
  reflect_bits 40961 16 = 32773 /\ reflect_bits (reflect_bits 40961 16) 16 = 40961.
Proof.
  split; [reflexivity |].
  apply (proj2 (proj2 (reflect_bits_reverses 40961 16 ltac:(lia)))). lia.
Defined.

(** ** What a sum8 checksum detects *)

Lemma sum_from (l : list byte) (a : Z) :
  fold_left (fun a b => a + Py.b2z b) l a = a + Py.sum l.
Proof.
  unfold Py.sum. revert a. induction l as [|y l IH]; intros a; cbn [fold_left]; [lia |].
  rewrite (IH (a + Py.b2z y)), (IH (0 + Py.b2z y)). lia.
Qed.

Lemma sum_cons (x : byte) (l : list byte) : Py.sum (x :: l) = Py.b2z x + Py.sum l.
Proof.
  unfold Py.sum at 1. cbn [fold_left]. rewrite sum_from. lia.
Qed.

Lemma sum_insert (l : list byte) (k : nat) (b0 b : byte) :
  l !! k = Some b0 ->
  Py.sum (<[k := b]> l) = Py.sum l - Py.b2z b0 + Py.b2z b.
Proof.
  revert k. induction l as [|x l IH]; intros k Hk; [discriminate |].
  destruct k as [|k].
  - injection Hk as ->. cbn [insert list_insert]. rewrite !sum_cons. lia.
  - change (<[S k := b]> (x :: l)) with (x :: <[k := b]> l).
    rewrite !sum_cons, (IH k Hk). lia.
Qed.

Lemma slice_insert_outside (l : list byte) (i : nat) (x : byte) (a b : Z) :
  0 <= a -> a <= b -> b <= Py.len l ->
  Z.of_nat i < a \/ b <= Z.of_nat i ->
  Py.slice (<[i := x]> l) a b = Py.slice l a b.
Proof.
  intros Ha Hab Hb Hout. unfold Py.len in Hb.
  rewrite !slice_inner by (rewrite ?length_insert; lia).
  destruct Hout as [Hlo|Hhi].
  - destruct (Nat.lt_ge_cases i (Z.to_nat b)).
    + rewrite take_insert_lt by lia. now rewrite drop_insert_lt by lia.
    + now rewrite take_insert_ge by lia.
  - now rewrite take_insert_ge by lia.
Qed.

Lemma slice_insert_inside (l : list byte) (i : nat) (x : byte) (a b : Z) :
  0 <= a -> b <= Py.len l -> a <= Z.of_nat i < b ->
  Py.slice (<[i := x]> l) a b = <[(i - Z.to_nat a)%nat := x]> (Py.slice l a b).
Proof.
  intros Ha Hb Hin. unfold Py.len in Hb.
  rewrite !slice_inner by (rewrite ?length_insert; lia).
  rewrite take_insert_lt by lia. now rewrite drop_insert_ge by lia.
Qed.

Lemma read_expected_insert_outside (frame : list byte) (store_at n : Z) (sf : string)
    (i : nat) (x : byte) :
  _checksum_nbytes sf = Ok n ->
  Z.of_nat i < resolve_index store_at (Py.len frame)
  \/ resolve_index store_at (Py.len frame) + n <= Z.of_nat i ->
  read_expected_checksum (<[i := x]> frame) store_at sf
  = read_expected_checksum frame store_at sf.
Proof.
  intros Hn Hout. unfold read_expected_checksum. rewrite Hn. cbn [mbind res_bind].
  assert (Hlen : Py.len (<[i := x]> frame) = Py.len frame)
    by (unfold Py.len; now rewrite length_insert).
  rewrite Hlen.
  assert (Hpos : 0 < n).
  { unfold _checksum_nbytes in Hn.
    repeat match type of Hn with
           | (if ?c then _ else _) = _ => destruct c
           end; (discriminate || (injection Hn as <-; lia)). }
  set (p := resolve_index store_at (Py.len frame)) in *.
  destruct (Z.ltb_spec p 0); [reflexivity |].
  destruct (Z.ltb_spec (Py.len frame) (p + n)); [reflexivity |]. cbn [orb].
  now rewrite slice_insert_outside by lia.
Qed.

(** X9. A sum8 checksum detects every change of a single byte of its
    range: if [verify_checksum] accepts a frame, it rejects the frame
    with one byte of the checksummed range replaced by a different
    value, the checksum field left as it was. *)
Theorem sum8_detects_byte_change (frame : list byte) (cs : ChecksumSpec)
    (rfrom rto store_at n : Z) (sf : string) (i : nat) (b0 b : byte) :
  cs_type cs = Some "sum8"%string ->
  cs_range cs = Some {| rng_from := Some rfrom; rng_to := Some rto |} ->
  cs_store_at cs = Some store_at ->
  Encode.format_used cs "sum8" sf ->
  _checksum_nbytes sf = Ok n ->
  resolve_index rfrom (Py.len frame) <= Z.of_nat i <= resolve_index rto (Py.len frame) ->
  Z.of_nat i < resolve_index store_at (Py.len frame)
  \/ resolve_index store_at (Py.len frame) + n <= Z.of_nat i ->
  frame !! i = Some b0 -> b <> b0 ->
  verify_checksum frame cs = Ok true ->
  verify_checksum (<[i := b]> frame) cs = Ok false.
Proof.
  intros Htype Hrng Hat Hused Hn Hin Hout Hold Hne Hverify.
  assert (Hlen : Py.len (<[i := b]> frame) = Py.len frame)
    by (unfold Py.len; now rewrite length_insert).
  assert (Hsf : (if falsy (cs_store_format cs) then
                   if String.eqb "sum8" "sum8" then Ok "uint8"%string
                   else if String.eqb "sum8" "cs15" || String.eqb "sum8" "xor16_slices"
                        then Ok "uint16_le"%string
                   else Raise ValueError
                 else Ok (default ""%string (cs_store_format cs))) = Ok sf).
  { destruct Hused as [Hsome|(Hnone & [(_ & ->)|([Hc|Hc] & _)])];
      try discriminate Hc.
    - rewrite Hsome. cbn [falsy default].
      destruct sf; [discriminate Hn | reflexivity].
    - rewrite Hnone. reflexivity. }
  unfold verify_checksum in *. rewrite Htype, Hat in *.
  cbn [require mbind res_bind] in *. rewrite Hsf in *. cbn [mbind res_bind] in *.
  rewrite (read_expected_insert_outside frame store_at n sf i b Hn Hout).
  destruct (read_expected_checksum frame store_at sf) as [expected|]; [| discriminate].
  cbn [mbind res_bind] in *.
  unfold compute_checksum in *. rewrite Htype, Hrng in *.
  cbn [require mbind res_bind rng_from rng_to] in *.
  change (String.eqb "sum8" "xor16_slices") with false in *.
  change (String.eqb "sum8" "sum8") with true in *.
  cbv beta iota in *. rewrite Hlen.
  set (start := resolve_index rfrom (Py.len frame)) in *.
  set (end_ := resolve_index rto (Py.len frame)) in *.
  destruct (Z.ltb_spec start 0); [discriminate |].
  destruct (Z.ltb_spec end_ 0); [discriminate |].
  destruct (Z.leb_spec (Py.len frame) start); [discriminate |].
  destruct (Z.leb_spec (Py.len frame) end_); [discriminate |].
  destruct (Z.ltb_spec end_ start); [discriminate |].
  cbn [orb mbind res_bind mret res_ret] in *.
  injection Hverify as Heq. apply Z.eqb_eq in Heq. f_equal. apply Z.eqb_neq.
  rewrite <- Heq. unfold checksum_sum8.
  rewrite slice_insert_inside by lia.
  assert (Hslot : Py.slice frame start (end_ + 1) !! (i - Z.to_nat start)%nat = Some b0).
  { unfold Py.len in *. rewrite slice_inner by lia.
    rewrite lookup_drop, lookup_take_lt by lia. rewrite <- Hold. f_equal. lia. }
  rewrite (sum_insert _ _ b0 b Hslot).
  change 255 with (Z.ones 8). rewrite !Z.land_ones by lia.
  pose proof (b2z_bound b0). pose proof (b2z_bound b).
  assert (Py.b2z b <> Py.b2z b0).
  { intros Hb. apply Hne. rewrite <- (z2b_b2z b), <- (z2b_b2z b0). now rewrite Hb. }
  change (2 ^ 8) with 256. lia.
Qed.

Lemma sum8_detects_byte_change_witness :
  verify_checksum [xaa; x55; x01; x02; x03; x05] 
    {| cs_type := Some "sum8"%string;
       cs_range := Some {| rng_from := Some 0; rng_to := Some 4 |};
       cs_store_at := Some 5; cs_store_format := None; cs_params := None |} = Ok true /\
  verify_checksum (<[3%nat := x12]> [xaa; x55; x01; x02; x03; x05])
    {| cs_type := Some "sum8"%string;
       cs_range := Some {| rng_from := Some 0; rng_to := Some 4 |};
       cs_store_at := Some 5; cs_store_format := None; cs_params := None |} = Ok false.
Proof.
  split; [reflexivity |].
  apply (sum8_detects_byte_change _ _ 0 4 5 1 "uint8" 3 x02 x12).
  - reflexivity.
  - reflexivity.
  - reflexivity.
  - right. split; [reflexivity |]. left. split; reflexivity.
  - reflexivity.
  - vm_compute. split; congruence.
  - left. vm_compute. reflexivity.
  - reflexivity.
  - discriminate.
  - reflexivity.
Defined.

(** ** The range check of [compute_checksum] *)

(** X10. For the checksum types that have a range, [compute_checksum]
    reads only inside the frame: when the resolved range is not
    [0 <= start <= end < len(frame)] (as on an empty frame) it raises
    [ValueError], whatever the type; when it is, the sum8 checksum is
    the sum of the bytes [start..end] modulo 256. *)
Theorem compute_checksum_range_checked (frame : list byte) (cs : ChecksumSpec)
    (ctype : string) (rfrom rto : Z) :
  cs_type cs = Some ctype -> ctype <> "xor16_slices"%string ->
  cs_range cs = Some {| rng_from := Some rfrom; rng_to := Some rto |} ->
  let start := resolve_index rfrom (Py.len frame) in
  let end_ := resolve_index rto (Py.len frame) in
  (~ (0 <= start <= end_ /\ end_ < Py.len frame) ->
   compute_checksum frame cs = Raise ValueError) /\
  (0 <= start <= end_ /\ end_ < Py.len frame -> ctype = "sum8"%string ->
   compute_checksum frame cs
   = Ok (Py.sum (Py.slice frame start (end_ + 1)) mod 256)).
Proof.
  intros Htype Hxor Hrng start end_.
  unfold compute_checksum. rewrite Htype, Hrng.
  cbn [require mbind res_bind rng_from rng_to].
  destruct (String.eqb_spec ctype "xor16_slices"); [contradiction |].
  fold start end_.
  split.
  - intros Hbad.
    destruct (Z.ltb_spec start 0); [reflexivity |].
    destruct (Z.ltb_spec end_ 0); [reflexivity |].
    destruct (Z.leb_spec (Py.len frame) start); [reflexivity |].
    destruct (Z.leb_spec (Py.len frame) end_); [reflexivity |].
    destruct (Z.ltb_spec end_ start); [reflexivity |]. lia.
  - intros Hok ->.
    destruct (Z.ltb_spec start 0); [lia |].
    destruct (Z.ltb_spec end_ 0); [lia |].
    destruct (Z.leb_spec (Py.len frame) start); [lia |].
    destruct (Z.leb_spec (Py.len frame) end_); [lia |].
    destruct (Z.ltb_spec end_ start); [lia |].
    cbn [orb]. change (String.eqb "sum8" "sum8") with true. cbv iota.
    unfold checksum_sum8. change 255 with (Z.ones 8).
    now rewrite Z.land_ones by lia.
Qed.

Lemma compute_checksum_range_checked_witness :
  compute_checksum []
    {| cs_type := Some "crc16"%string;
       cs_range := Some {| rng_from := Some 0; rng_to := Some (-1) |};
       cs_store_at := Some (-2); cs_store_format := Some "uint16_le"%string;
       cs_params := Some Encode.modbus_params |} = Raise ValueError.
Proof.
  apply (compute_checksum_range_checked [] _ "crc16" 0 (-1)).
  - reflexivity.
  - discriminate.
  - reflexivity.
  - vm_compute. intros [[_ H] _]. apply H. reflexivity.
Defined.

(** ** What the framer writes *)

Lemma find_from_found (sub buf : list byte) (i j : Z) :
  0 <= i -> Py.find_from sub buf i = j -> i <= j ->
  Py.starts_with sub (drop (Z.to_nat (j - i)) buf) = true.
Proof.
  revert i. induction buf as [|b buf IH]; intros i Hi Hfind Hij.
  - cbn [Py.find_from] in Hfind. rewrite drop_nil.
    destruct (Py.starts_with sub []); [reflexivity | lia].
  - cbn [Py.find_from] in Hfind.
    destruct (Py.starts_with sub (b :: buf)) eqn:E.
    + subst j. now rewrite Z.sub_diag.
    + destruct (find_from_bound sub buf (i + 1)) as [Hno|Hb]; [lia |].
      rewrite Hfind in Hb.
      replace (Z.to_nat (j - i)) with (S (Z.to_nat (j - (i + 1)))) by lia.
      cbn [drop]. apply IH; lia.
Qed.

Lemma del_prefix_split {A : Type} (l : list A) (k : Z) :
  exists d, l = d ++ Py.del_prefix l k.
Proof.
  unfold Py.del_prefix. eexists. symmetry. apply take_drop.
Qed.

Lemma del_prefix_drop {A : Type} (l : list A) (k : Z) :
  0 <= k -> Py.del_prefix l k = drop (Z.to_nat k) l.
Proof.
  intros Hk. unfold Py.del_prefix, Py.clamp, Py.len.
  destruct (Z.ltb_spec k 0); [lia |].
  destruct (Z.le_gt_cases k (Z.of_nat (length l))).
  - now rewrite Z.min_l by lia.
  - rewrite Z.min_r by lia. rewrite !drop_ge by lia. reflexivity.
Qed.

Lemma framed_drop (header : list byte) (cs : option ChecksumSpec) (en : bool)
    (s d : list byte) (st st' : Transport.State) :
  Transport.framed_so_far header cs en s st ->
  Transport.buf st = d ++ Transport.buf st' ->
  Transport.written st' = Transport.written st ->
  Transport.total_bytes (Transport.stats st') = Transport.total_bytes (Transport.stats st) ->
  Transport.frames_ok (Transport.stats st') = Transport.frames_ok (Transport.stats st) ->
  Transport.frames_bad_checksum (Transport.stats st)
  <= Transport.frames_bad_checksum (Transport.stats st') ->
  Transport.resyncs (Transport.stats st) <= Transport.resyncs (Transport.stats st') ->
  Transport.framed_so_far header cs en s st'.
Proof.
  intros (gaps & g & Hlen & Hs & Htb & Hok & Hbad & Hres & Hall) Hbuf Hw Ht Ho Hb Hr.
  exists gaps, (g ++ d). rewrite Hw, Ht, Ho.
  repeat split; try assumption; try lia.
  rewrite Hs, Hbuf. now rewrite <- !app_assoc.
Qed.

Lemma framed_take (header : list byte) (cs : option ChecksumSpec) (en : bool)
    (s frame : list byte) (st st' : Transport.State) :
  Transport.framed_so_far header cs en s st ->
  Transport.buf st = frame ++ Transport.buf st' ->
  Transport.written st' = Transport.written st ++ [frame] ->
  Transport.accepted header cs en frame ->
  Transport.total_bytes (Transport.stats st') = Transport.total_bytes (Transport.stats st) ->
  Transport.frames_ok (Transport.stats st') = Transport.frames_ok (Transport.stats st) + 1 ->
  Transport.frames_bad_checksum (Transport.stats st)
  <= Transport.frames_bad_checksum (Transport.stats st') ->
  Transport.resyncs (Transport.stats st) <= Transport.resyncs (Transport.stats st') ->
  Transport.framed_so_far header cs en s st'.
Proof.
  intros (gaps & g & Hlen & Hs & Htb & Hok & Hbad & Hres & Hall) Hbuf Hw Hacc Ht Ho Hb Hr.
  exists (gaps ++ [g]), []. rewrite Hw, Ht, Ho.
  repeat split; try assumption; try lia.
  - rewrite !length_app. cbn [length]. lia.
  - rewrite Hs, Hbuf. unfold Transport.laid_out.
    rewrite zip_with_app by assumption. rewrite concat_app.
    cbn [zip_with concat app]. rewrite app_nil_r. now rewrite <- !app_assoc.
  - rewrite Hok. unfold Py.len. rewrite length_app. cbn [length]. lia.
  - apply Forall_app. split; [assumption |]. now constructor.
Qed.

Lemma taken_frame_accepted (header buf : list byte) (t : Z) :
  Py.starts_with header buf = true -> 0 <= t <= Py.len buf ->
  Py.starts_with (Py.slice header 0 (Py.len (take (Z.to_nat t) buf)))
                 (take (Z.to_nat t) buf) = true.
Proof.
  intros Hst Ht. apply starts_with_iff in Hst as [r ->].
  unfold Py.len in *. rewrite length_take.
  replace (Z.of_nat (Z.to_nat t `min` length (header ++ r))) with t by lia.
  apply starts_with_iff. rewrite take_app.
  exists (take (Z.to_nat t - length header) r). f_equal.
  unfold Py.slice, Py.clamp, Py.len. change (0 <? 0) with false. cbv iota.
  destruct (Z.ltb_spec t 0); [lia |].
  rewrite (Z.min_l 0) by lia. change (Z.to_nat 0) with 0%nat.
  rewrite drop_0, Z.sub_0_r.
  destruct (Z.le_gt_cases t (Z.of_nat (length header))).
  - now rewrite Z.min_l by lia.
  - rewrite Z.min_r by lia. rewrite !take_ge by lia. reflexivity.
Qed.

(** One pass of the inner loop keeps the account of what was framed. *)
Lemma inner_step_framed (header : list byte) (ls : Transport.LengthSpec)
    (cs : option ChecksumSpec) (en : bool) (s : list byte) (st : Transport.State) :
  Transport.framed_so_far header cs en s st ->
  match Transport.inner_step header ls cs en st with
  | Ok (Transport.Continue st') | Ok (Transport.Break st') =>
    Transport.framed_so_far header cs en s st'
  | Raise _ => True
  end.
Proof.
  intros Hinv. unfold Transport.inner_step.
  destruct (Z.ltb_spec (Py.find (Transport.buf st) header) 0) as [Hneg|Hidx].
  { destruct (Py.len header <? Py.len (Transport.buf st)); [| exact Hinv].
    destruct (del_prefix_split (Transport.buf st) (- Py.len header)) as [d Hd].
    apply (framed_drop _ _ _ _ d _ _ Hinv); cbn; try reflexivity; try lia.
    exact Hd. }
  set (idx := Py.find (Transport.buf st) header) in *.
  set (st1 := if 0 <? idx then _ else st).
  assert (Hinv1 : Transport.framed_so_far header cs en s st1).
  { subst st1. destruct (0 <? idx); [| exact Hinv].
    destruct (del_prefix_split (Transport.buf st) idx) as [d Hd].
    apply (framed_drop _ _ _ _ d _ _ Hinv); cbn; try reflexivity; try lia.
    exact Hd. }
  assert (Hstart : Py.starts_with header (Transport.buf st1) = true).
  { pose proof (find_from_found header (Transport.buf st) 0 idx ltac:(lia) eq_refl Hidx)
      as Hf. rewrite Z.sub_0_r in Hf.
    subst st1. destruct (Z.ltb_spec 0 idx); cbn [Transport.buf].
    - now rewrite del_prefix_drop by lia.
    - replace idx with 0 in Hf by lia. exact Hf. }
  clearbody st1.
  destruct (Transport.total_length ls (Transport.buf st1)) as [t|]; [| exact I].
  cbn [mbind res_bind].
  destruct (Z.ltb_spec t 0); [exact Hinv1 |].
  destruct (Z.ltb_spec (Py.len (Transport.buf st1)) t) as [|Hfit]; [exact Hinv1 |].
  cbv zeta. cbn [Transport.stats Transport.buf Transport.written].
  assert (Hframe : Py.slice (Transport.buf st1) 0 t = take (Z.to_nat t) (Transport.buf st1))
    by (apply slice_take; unfold Py.len in Hfit; lia).
  assert (Hrest : Py.del_prefix (Transport.buf st1) t = drop (Z.to_nat t) (Transport.buf st1))
    by (apply del_prefix_drop; lia).
  rewrite Hframe, Hrest.
  assert (Hsplit : Transport.buf st1
                   = take (Z.to_nat t) (Transport.buf st1)
                     ++ drop (Z.to_nat t) (Transport.buf st1))
    by (symmetry; apply take_drop).
  assert (Hbad : Transport.framed_so_far header cs en s
                   {| Transport.stats := Transport.add_bad (Transport.stats st1);
                      Transport.buf := drop (Z.to_nat t) (Transport.buf st1);
                      Transport.written := Transport.written st1 |}).
  { apply (framed_drop _ _ _ _ (take (Z.to_nat t) (Transport.buf st1)) _ _ Hinv1);
      cbn; try reflexivity; try lia. exact Hsplit. }
  assert (Hgood : Transport.accepted header cs en (take (Z.to_nat t) (Transport.buf st1)) ->
                  Transport.framed_so_far header cs en s
                   {| Transport.stats := Transport.add_ok (Transport.stats st1);
                      Transport.buf := drop (Z.to_nat t) (Transport.buf st1);
                      Transport.written :=
                        Transport.written st1 ++ [take (Z.to_nat t) (Transport.buf st1)] |}).
  { intros Hacc.
    apply (framed_take _ _ _ _ (take (Z.to_nat t) (Transport.buf st1)) _ _ Hinv1);
      cbn; try reflexivity; try lia; assumption. }
  assert (Hhead : Py.starts_with
                    (Py.slice header 0 (Py.len (take (Z.to_nat t) (Transport.buf st1))))
                    (take (Z.to_nat t) (Transport.buf st1)) = true)
    by (apply taken_frame_accepted; [assumption | lia]).
  unfold Transport.accepted in Hgood.
  destruct (if en then cs else None) as [spec|].
  - destruct (verify_checksum _ spec) as [[|]|] eqn:Hv; try exact Hbad.
    apply Hgood. split; [exact Hhead | reflexivity].
  - apply Hgood. split; [exact Hhead | exact I].
Qed.

Lemma inner_loop_framed (header : list byte) (ls : Transport.LengthSpec)
    (cs : option ChecksumSpec) (en : bool) (s : list byte) (fuel : nat)
    (st st' : Transport.State) :
  Transport.framed_so_far header cs en s st ->
  Transport.inner_loop fuel header ls cs en st = Returns st' ->
  Transport.framed_so_far header cs en s st'.
Proof.
  revert st. induction fuel as [|fuel IH]; intros st Hinv Hrun; [discriminate |].
  cbn [Transport.inner_loop] in Hrun.
  pose proof (inner_step_framed header ls cs en s st Hinv) as Hstep.
  destruct (Transport.inner_step header ls cs en st) as [[st1|st1]|]; [| | discriminate].
  - exact (IH st1 Hstep Hrun).
  - now injection Hrun as <-.
Qed.

Lemma outer_loop_framed (header : list byte) (ls : Transport.LengthSpec)
    (cs : option ChecksumSpec) (en : bool) (fuel : nat) (reads : list (list byte))
    (s : list byte) (st st' : Transport.State) :
  Transport.framed_so_far header cs en s st ->
  Transport.outer_loop fuel header ls cs en reads st = Returns st' ->
  Transport.framed_so_far header cs en (s ++ Transport.stream_of reads) st'.
Proof.
  revert s st. induction reads as [|chunk reads IH]; intros s st Hinv Hrun.
  - injection Hrun as <-. cbn [Transport.stream_of]. now rewrite app_nil_r.
  - destruct chunk as [|c chunk].
    + injection Hrun as <-. cbn [Transport.stream_of]. now rewrite app_nil_r.
    + cbn [Transport.outer_loop] in Hrun. cbn [Transport.stream_of].
      set (st1 := {| Transport.stats := _; Transport.buf := _; Transport.written := _ |})
        in Hrun.
      assert (Hinv1 : Transport.framed_so_far header cs en (s ++ c :: chunk) st1).
      { destruct Hinv as (gaps & g & Hlen & Hs & Htb & Hok & Hbad & Hres & Hall).
        exists gaps, g. subst st1. cbn. repeat split; try assumption.
        - rewrite Hs. now rewrite <- !app_assoc.
        - rewrite Htb. unfold Py.len. rewrite !length_app. cbn [length]. lia. }
      destruct (Transport.inner_loop fuel header ls cs en st1) as [st2| |] eqn:Hin;
        try discriminate.
      rewrite app_assoc. apply (IH _ st2); [| exact Hrun].
      exact (inner_loop_framed header ls cs en _ fuel st1 st2 Hinv1 Hin).
Qed.

(** X11. Whatever the stream and the frame specification, when
    [frame_stream] returns: the frames it wrote lie in the stream in the
    order written, without overlap (each after a gap of bytes that went
    to no frame); each begins with the header and, when the checksum is
    enforced, passes [verify_checksum]; [frames_ok] is the number of
    frames written and [total_bytes] the number of bytes read. *)
Theorem frame_stream_sound (fuel : nat) (reads : list (list byte)) (frame_spec : FrameSpec)
    (enable_checksum : bool) (stats : Transport.FramingStats)
    (written : list (list byte)) :
  Transport.frame_stream fuel reads frame_spec enable_checksum = Returns (stats, written) ->
  exists header gaps rest,
    Transport.extract_header frame_spec = Ok header /\
    length gaps = length written /\
    Transport.stream_of reads = Transport.laid_out gaps written ++ rest /\
    Transport.total_bytes stats = Py.len (Transport.stream_of reads) /\
    Transport.frames_ok stats = Py.len written /\
    0 <= Transport.frames_bad_checksum stats /\
    0 <= Transport.resyncs stats /\
    Forall (Transport.accepted header (fs_checksum frame_spec) enable_checksum) written.
Proof.
  unfold Transport.frame_stream. intros Hrun.
  destruct (Transport.extract_header frame_spec) as [header|]; [| discriminate].
  destruct (Transport.from_frame frame_spec) as [ls|]; [| discriminate].
  destruct (Transport.outer_loop fuel header ls (fs_checksum frame_spec) enable_checksum
              reads Transport.initial) as [st| |] eqn:Hout; try discriminate.
  injection Hrun as <- <-.
  assert (Hinit : Transport.framed_so_far header (fs_checksum frame_spec) enable_checksum
                    [] Transport.initial).
  { exists [], []. cbn. repeat split; try reflexivity; try lia. constructor. }
  pose proof (outer_loop_framed header ls _ _ fuel reads [] _ st Hinit Hout) as Hfin.
  cbn [app] in Hfin.
  destruct Hfin as (gaps & g & Hlen & Hs & Htb & Hok & Hbad & Hres & Hall).
  exists header, gaps, (g ++ Transport.buf st). repeat split; assumption.
Qed.

Lemma frame_stream_sound_witness :
  exists header gaps rest,
    Transport.extract_header Scenarios.fixed6_sum8 = Ok header /\
    length gaps = 1%nat /\
    Transport.stream_of [[x00; xaa; x55; x01]; [x02; x03; x05; xaa]]
    = Transport.laid_out gaps [[xaa; x55; x01; x02; x03; x05]] ++ rest.
Proof.
  destruct (frame_stream_sound 9 [[x00; xaa; x55; x01]; [x02; x03; x05; xaa]]
              Scenarios.fixed6_sum8 true
              {| Transport.total_bytes := 8; Transport.frames_ok := 1;
                 Transport.frames_bad_checksum := 0; Transport.resyncs := 1 |}
              [[xaa; x55; x01; x02; x03; x05]])
    as (header & gaps & rest & Hh & Hlen & Hs & _).
  - vm_compute. reflexivity.
  - exists header, gaps, rest. repeat split; assumption.
Defined.

(** ** The length rule of the transport framer *)

Lemma parse_uint_errors (value_bytes : list byte) (value_type : string) (e : exn) :
  Transport.parse_uint value_bytes value_type = Raise e -> e = ValueError.
Proof.
  unfold Transport.parse_uint.
  repeat match goal with
         | |- (if String.eqb ?a ?b then _ else _) = _ -> _ => destruct (String.eqb a b)
         end;
    try (destruct (negb _); intros [= <-] || discriminate; reflexivity);
    try (intros [= <-]; reflexivity).
  destruct (Z.eqb_spec (Py.len value_bytes) 1) as [Hlen|]; cbn [negb];
    [| intros [= <-]; reflexivity].
  destruct value_bytes as [|b [|c l]]; unfold Py.len in Hlen; cbn [length] in Hlen;
    try lia.
  discriminate.
Qed.

(** X12. A [LengthSpec] built by [from_frame] has one of the three modes
    and every field its mode needs, so [total_length] never fails an
    assertion on it: on any buffer it returns a length (-1 when the
    buffer ends before the length field does) or raises [ValueError]
    (a field of the wrong size for its type, or an unknown type). *)
Theorem total_length_after_from_frame (frame_spec : FrameSpec)
    (ls : Transport.LengthSpec) (buf : list byte) :
  Transport.from_frame frame_spec = Ok ls ->
  In (Transport.mode ls) ["fixed"; "dynamic"; "counted"]%string /\
  (Transport.mode ls <> "fixed"%string ->
   exists off flen,
     Transport.field_offset ls = Some off /\ Transport.field_length ls = Some flen /\
     (Py.len buf < off + flen -> Transport.total_length ls buf = Ok (-1))) /\
  match Transport.total_length ls buf with
  | Ok _ => True
  | Raise e => e = ValueError
  end.
Proof.
  unfold Transport.from_frame.
  destruct (fs_length frame_spec) as [length|]; [| discriminate].
  assert (Hcore : forall (k : Z -> Z) (off flen : Z) (ty : string),
            match (if Py.len buf <? off + flen then Ok (-1)
                   else Transport.parse_uint (Py.slice buf off (off + flen)) ty
                        ≫= (fun v => Ok (k v))) with
            | Ok _ => True
            | Raise e => e = ValueError
            end).
  { intros k off flen ty. destruct (Py.len buf <? off + flen); [exact I |].
    destruct (Transport.parse_uint _ ty) as [v|e] eqn:Hp; cbn [mbind res_bind];
      [exact I | exact (parse_uint_errors _ _ _ Hp)]. }
  destruct (bool_decide (ld_mode length = Some "fixed"%string)).
  { destruct (ld_value length) as [v|]; [| discriminate]. intros [= <-].
    cbn. split; [now left |]. split; [congruence | exact I]. }
  destruct (bool_decide (ld_mode length = Some "dynamic"%string)).
  { set (field := default _ (ld_field length)).
    destruct (fd_offset field) as [off|]; [| discriminate].
    destruct (fd_length field) as [flen|]; [| discriminate].
    destruct (fd_type field) as [ty|]; [| discriminate].
    destruct (ld_overhead_bytes length) as [ov|]; [| discriminate].
    intros [= <-]. unfold Transport.total_length.
    cbn [Transport.mode Transport.field_offset Transport.field_length
         Transport.field_type Transport.overhead_bytes Transport.assert_some
         mbind res_bind].
    change (String.eqb "dynamic" "fixed") with false.
    change (String.eqb "dynamic" "counted") with false. cbv iota.
    split; [right; now left |]. split; [| apply (Hcore (fun v => v + ov))].
    intros _. exists off, flen. repeat split.
    intros Hshort. destruct (Z.ltb_spec (Py.len buf) (off + flen)); [reflexivity | lia]. }
  destruct (bool_decide (ld_mode length = Some "counted"%string)); [| discriminate].
  set (field := default _ (ld_count_field length)).
  destruct (fd_offset field) as [off|]; [| discriminate].
  destruct (fd_length field) as [flen|]; [| discriminate].
  destruct (fd_type field) as [ty|]; [| discriminate].
  destruct (ld_unit_bytes length) as [ub|]; [| discriminate].
  destruct (ld_overhead_bytes length) as [ov|]; [| discriminate].
  intros [= <-]. unfold Transport.total_length.
  cbn [Transport.mode Transport.field_offset Transport.field_length
       Transport.field_type Transport.unit_bytes Transport.overhead_bytes
       Transport.assert_some mbind res_bind].
  change (String.eqb "counted" "fixed") with false.
  change (String.eqb "counted" "counted") with true. cbv iota.
  split; [right; right; now left |]. split; [| apply (Hcore (fun v => v * ub + ov))].
  intros _. exists off, flen. repeat split.
  intros Hshort. destruct (Z.ltb_spec (Py.len buf) (off + flen)); [reflexivity | lia].
Qed.

Lemma total_length_after_from_frame_witness :
  exists ls, Transport.from_frame Scenarios.payload_u32 = Ok ls /\
             Transport.total_length ls [xaa; x55; x01] = Ok (-1).
Proof.
  eexists. split; [reflexivity |].
  destruct (total_length_after_from_frame Scenarios.payload_u32 _ [xaa; x55; x01] eq_refl)
    as (_ & Hshort & _).
  destruct (Hshort ltac:(discriminate)) as (off & flen & [= <-] & [= <-] & H).
  apply H. vm_compute. reflexivity.
Defined.

(** ** The two framers agree *)

Lemma parse_uint_agrees (raw : list byte) (ty : string) (v : Z) :
  Transport.parse_uint raw ty = Ok v -> Detect.parse_uint raw ty = Ok v.
Proof.
  unfold Transport.parse_uint, Detect.parse_uint.
  repeat match goal with
         | |- (if String.eqb ?a ?b then _ else _) = _ -> _ => destruct (String.eqb a b)
         end;
    try (destruct (negb _); [discriminate | exact (fun H => H)]).
  discriminate.
Qed.

(** On a specification [from_frame] accepts, with its length field at a
    non-negative offset, the detector resolves the length the transport
    framer resolves. *)
Lemma resolve_length_agrees (frame_spec : FrameSpec) (length : LengthDecl)
    (ls : Transport.LengthSpec) (buf : list byte) (t : Z) :
  fs_length frame_spec = Some length ->
  Transport.from_frame frame_spec = Ok ls ->
  Transport.length_field_sane ls ->
  Transport.total_length ls buf = Ok t ->
  Detect.resolve_length length buf = Ok t.
Proof.
  intros Hlen. unfold Transport.from_frame, Detect.resolve_length. rewrite Hlen.
  destruct (bool_decide (ld_mode length = Some "fixed"%string)).
  { destruct (ld_value length) as [v|]; [| discriminate]. intros [= <-] _.
    cbn. exact (fun H => H). }
  assert (Hcore : forall (k : Z -> Z) (off flen : Z) (ty : string),
            0 <= off -> 0 < flen ->
            (if Py.len buf <? off + flen then Ok (-1)
             else Transport.parse_uint (Py.slice buf off (off + flen)) ty
                  ≫= (fun v => Ok (k v))) = Ok t ->
            (if (0 <=? off) && (0 <? flen) && (off + flen <=? Py.len buf)
             then Detect.parse_uint (Py.slice buf off (off + flen)) ty
                  ≫= (fun v => Ok (k v))
             else Ok (-1)) = Ok t).
  { intros k off flen ty Hoff Hflen.
    destruct (Z.leb_spec 0 off); [| lia]. destruct (Z.ltb_spec 0 flen); [| lia].
    cbn [andb].
    destruct (Z.ltb_spec (Py.len buf) (off + flen));
      destruct (Z.leb_spec (off + flen) (Py.len buf)); try lia;
      [exact (fun H => H) |].
    destruct (Transport.parse_uint _ ty) as [v|] eqn:Hp; [| discriminate].
    now rewrite (parse_uint_agrees _ _ _ Hp). }
  destruct (bool_decide (ld_mode length = Some "dynamic"%string)).
  { set (field := default _ (ld_field length)).
    destruct (fd_offset field) as [off|] eqn:Eo; [| discriminate].
    destruct (fd_length field) as [flen|] eqn:El; [| discriminate].
    destruct (fd_type field) as [ty|] eqn:Et; [| discriminate].
    destruct (ld_overhead_bytes length) as [ov|]; [| discriminate].
    intros [= <-] [Hm|(off' & flen' & [= <-] & [= <-] & Hoff & Hflen)];
      [discriminate Hm |].
    unfold Transport.total_length.
    cbn [Transport.mode Transport.field_offset Transport.field_length
         Transport.field_type Transport.overhead_bytes Transport.assert_some
         mbind res_bind default].
    change (String.eqb "dynamic" "fixed") with false.
    change (String.eqb "dynamic" "counted") with false. cbv iota.
    exact (Hcore (fun v => v + ov) off flen ty Hoff Hflen). }
  destruct (bool_decide (ld_mode length = Some "counted"%string)); [| discriminate].
  set (field := default _ (ld_count_field length)).
  destruct (fd_offset field) as [off|] eqn:Eo; [| discriminate].
  destruct (fd_length field) as [flen|] eqn:El; [| discriminate].
  destruct (fd_type field) as [ty|] eqn:Et; [| discriminate].
  destruct (ld_unit_bytes length) as [ub|]; [| discriminate].
  destruct (ld_overhead_bytes length) as [ov|]; [| discriminate].
  intros [= <-] [Hm|(off' & flen' & [= <-] & [= <-] & Hoff & Hflen)];
    [discriminate Hm |].
  unfold Transport.total_length.
  cbn [Transport.mode Transport.field_offset Transport.field_length
       Transport.field_type Transport.unit_bytes Transport.overhead_bytes
       Transport.assert_some mbind res_bind default].
  change (String.eqb "counted" "fixed") with false.
  change (String.eqb "counted" "counted") with true. cbv iota.
  exact (Hcore (fun v => v * ub + ov) off flen ty Hoff Hflen).
Qed.

(** One pass of the transport framer against one pass of the detector's
    framer, from the same buffer and counters: both leave, or both take
    the same frame and count it the same way; or the length resolved to
    0, where only the transport framer goes on. *)
Lemma scan_step_agrees (frame_spec : FrameSpec) (length : LengthDecl)
    (ls : Transport.LengthSpec) (header : list byte) (en : bool)
    (st : Transport.State) (sc : Detect.Scan) :
  fs_length frame_spec = Some length ->
  Transport.from_frame frame_spec = Ok ls ->
  Transport.length_field_sane ls ->
  (forall spec, fs_checksum frame_spec = Some spec -> no_keys spec = false) ->
  Transport.buf st = Detect.buf sc ->
  Transport.frames_ok (Transport.stats st) = Detect.ok sc ->
  Transport.frames_bad_checksum (Transport.stats st) = Detect.bad sc ->
  Transport.resyncs (Transport.stats st) = Detect.resyncs sc ->
  match Transport.inner_step header ls (fs_checksum frame_spec) en st with
  | Raise _ => True
  | Ok (Transport.Break st') =>
    exists sc',
      Detect.scan_step header length (if en then fs_checksum frame_spec else None) sc
      = Ok (Detect.Leave sc') /\
      Transport.frames_ok (Transport.stats st') = Detect.ok sc' /\
      Transport.frames_bad_checksum (Transport.stats st') = Detect.bad sc' /\
      Transport.resyncs (Transport.stats st') = Detect.resyncs sc'
  | Ok (Transport.Continue st') =>
    (exists sc',
       Detect.scan_step header length (if en then fs_checksum frame_spec else None) sc
       = Ok (Detect.Again sc') /\
       Transport.buf st' = Detect.buf sc' /\
       Transport.frames_ok (Transport.stats st') = Detect.ok sc' /\
       Transport.frames_bad_checksum (Transport.stats st') = Detect.bad sc' /\
       Transport.resyncs (Transport.stats st') = Detect.resyncs sc') \/
    (Py.find (Transport.buf st') header = 0 /\
     Transport.total_length ls (Transport.buf st') = Ok 0)
  end.
Proof.
  intros Hlen Hls Hsane Hkeys Hbuf Hok Hbad Hres.
  unfold Transport.inner_step, Detect.scan_step. rewrite <- Hbuf.
  set (idx := Py.find (Transport.buf st) header).
  destruct (Z.ltb_spec idx 0) as [Hneg|Hidx].
  { destruct (Py.len header <? Py.len (Transport.buf st));
      (eexists; split; [reflexivity |]); cbn; auto. }
  set (st1 := if 0 <? idx then _ else st).
  set (sc1 := if 0 <? idx then _ else sc).
  assert (H1 : Transport.buf st1 = Detect.buf sc1 /\
               Transport.frames_ok (Transport.stats st1) = Detect.ok sc1 /\
               Transport.frames_bad_checksum (Transport.stats st1) = Detect.bad sc1 /\
               Transport.resyncs (Transport.stats st1) = Detect.resyncs sc1 /\
               Transport.written st1 = Transport.written st).
  { subst st1 sc1. destruct (0 <? idx); cbn; repeat split; auto; lia. }
  assert (Hstart : Py.starts_with header (Transport.buf st1) = true).
  { pose proof (find_from_found header (Transport.buf st) 0 idx ltac:(lia) eq_refl Hidx)
      as Hf. rewrite Z.sub_0_r in Hf.
    subst st1. destruct (Z.ltb_spec 0 idx); cbn [Transport.buf].
    - now rewrite del_prefix_drop by lia.
    - replace idx with 0 in Hf by lia. exact Hf. }
  clearbody st1 sc1. destruct H1 as (Hb1 & Ho1 & Hd1 & Hr1 & _).
  rewrite <- Hb1.
  destruct (Transport.total_length ls (Transport.buf st1)) as [t|] eqn:Ht; [| exact I].
  rewrite (resolve_length_agrees frame_spec length ls _ t Hlen Hls Hsane Ht).
  cbn [mbind res_bind].
  destruct (Z.ltb_spec t 0) as [Htneg|Htpos].
  { destruct (Z.leb_spec t 0); [| lia]. cbn [orb].
    eexists. split; [reflexivity |]. auto. }
  destruct (Z.ltb_spec (Py.len (Transport.buf st1)) t) as [Hshort|Hfit].
  { rewrite orb_true_r. eexists. split; [reflexivity |]. auto. }
  cbv zeta. rewrite orb_false_r.
  destruct (Z.leb_spec t 0) as [Hzero|Hpos].
  { assert (Ht0 : t = 0) by lia. subst t.
    assert (Hsame : Py.del_prefix (Transport.buf st1) 0 = Transport.buf st1)
      by (rewrite del_prefix_drop by lia; apply drop_0).
    assert (Hz : Py.find (Transport.buf st1) header = 0 /\
                 Transport.total_length ls (Transport.buf st1) = Ok 0)
      by (split; [now apply find_hit | exact Ht]).
    destruct (if en then fs_checksum frame_spec else None) as [spec|];
      [destruct (verify_checksum _ spec) as [[|]|] |];
      right; cbn [Transport.buf]; rewrite Hsame; exact Hz. }
  destruct en; cbv iota.
  - destruct (fs_checksum frame_spec) as [spec|] eqn:Hcs.
    + rewrite (Hkeys spec eq_refl).
      destruct (verify_checksum _ spec) as [[|]|];
        left; (eexists; split; [reflexivity |]); cbn; repeat split; auto; lia.
    + left. eexists. split; [reflexivity |]. cbn. repeat split; auto; lia.
  - left. eexists. split; [reflexivity |]. cbn. repeat split; auto; lia.
Qed.

Lemma scan_loop_agrees (frame_spec : FrameSpec) (length : LengthDecl)
    (ls : Transport.LengthSpec) (header : list byte) (en : bool) (fuel : nat)
    (st st' : Transport.State) (sc : Detect.Scan) :
  fs_length frame_spec = Some length ->
  Transport.from_frame frame_spec = Ok ls ->
  Transport.length_field_sane ls ->
  (forall spec, fs_checksum frame_spec = Some spec -> no_keys spec = false) ->
  Transport.buf st = Detect.buf sc ->
  Transport.frames_ok (Transport.stats st) = Detect.ok sc ->
  Transport.frames_bad_checksum (Transport.stats st) = Detect.bad sc ->
  Transport.resyncs (Transport.stats st) = Detect.resyncs sc ->
  Transport.inner_loop fuel header ls (fs_checksum frame_spec) en st = Returns st' ->
  exists sc',
    Detect.scan_loop fuel header length (if en then fs_checksum frame_spec else None) sc
    = Returns sc' /\
    Transport.frames_ok (Transport.stats st') = Detect.ok sc' /\
    Transport.frames_bad_checksum (Transport.stats st') = Detect.bad sc' /\
    Transport.resyncs (Transport.stats st') = Detect.resyncs sc'.
Proof.
  intros Hlen Hls Hsane Hkeys. revert st sc.
  induction fuel as [|fuel IH]; intros st sc Hbuf Hok Hbad Hres Hrun; [discriminate |].
  cbn [Transport.inner_loop Detect.scan_loop] in *.
  pose proof (scan_step_agrees frame_spec length ls header en st sc
                Hlen Hls Hsane Hkeys Hbuf Hok Hbad Hres) as Hstep.
  destruct (Transport.inner_step header ls (fs_checksum frame_spec) en st)
    as [[st1|st1]|]; [| | discriminate].
  - destruct Hstep as [(sc1 & Hs & Hb1 & Ho1 & Hd1 & Hr1)|(Hfind & Hzero)].
    + rewrite Hs. exact (IH st1 sc1 Hb1 Ho1 Hd1 Hr1 Hrun).
    + rewrite (inner_loop_zero_length header ls _ en _ Hfind Hzero fuel st1 eq_refl)
        in Hrun. discriminate.
  - destruct Hstep as (sc1 & Hs & Ho1 & Hd1 & Hr1). rewrite Hs.
    injection Hrun as <-. eauto.
Qed.

(** X13. The detector's framer counts what the transport framer counts:
    for a frame specification that [from_frame] accepts, with its length
    field at a non-negative offset and a checksum entry that is not the
    empty dictionary, whenever [frame_stream] returns on a sample read
    in one piece, [iter_frames] on the same sample returns the same
    [frames_ok], [frames_bad_checksum] and [resyncs]. *)
Theorem iter_frames_agrees_with_frame_stream (frame_spec : FrameSpec)
    (ls : Transport.LengthSpec) (sample : list byte) (en : bool) (fuel : nat)
    (stats : Transport.FramingStats) (written : list (list byte)) :
  Transport.from_frame frame_spec = Ok ls ->
  Transport.length_field_sane ls ->
  (forall spec, fs_checksum frame_spec = Some spec -> no_keys spec = false) ->
  (0 < fuel)%nat ->
  Transport.frame_stream fuel [sample] frame_spec en = Returns (stats, written) ->
  Detect.iter_frames fuel sample frame_spec en
  = Returns (Transport.frames_ok stats, Transport.frames_bad_checksum stats,
             Transport.resyncs stats).
Proof.
  intros Hls Hsane Hkeys Hfuel Hrun.
  unfold Transport.frame_stream, Transport.extract_header in Hrun.
  unfold Detect.iter_frames.
  destruct (fs_header frame_spec) as [[|h0 header]|]; try discriminate.
  rewrite Hls in Hrun.
  destruct (fs_length frame_spec) as [length|] eqn:Hlen;
    [| unfold Transport.from_frame in Hls; rewrite Hlen in Hls; discriminate].
  destruct sample as [|b sample].
  - cbn [Transport.outer_loop] in Hrun. injection Hrun as <- <-.
    destruct fuel as [|fuel]; [lia |]. reflexivity.
  - cbn [Transport.outer_loop] in Hrun.
    set (st1 := {| Transport.stats := _; Transport.buf := _; Transport.written := _ |})
      in Hrun.
    destruct (Transport.inner_loop fuel (h0 :: header) ls (fs_checksum frame_spec) en st1)
      as [st2| |] eqn:Hin; try discriminate.
    injection Hrun as <- <-.
    destruct (scan_loop_agrees frame_spec length ls (h0 :: header) en fuel st1 st2
                {| Detect.ok := 0; Detect.bad := 0; Detect.resyncs := 0;
                   Detect.buf := b :: sample |} Hlen Hls Hsane Hkeys)
      as (sc' & Hscan & Ho & Hd & Hr); try reflexivity; try exact Hin.
    rewrite Hscan. now rewrite Ho, Hd, Hr.
Qed.

Lemma iter_frames_agrees_with_frame_stream_witness :
  Detect.iter_frames 9 [x00; xaa; x55; x01; x02; x03; x05; xaa; x55; x01; x02; x03; x06]
    Scenarios.fixed6_sum8 true = Returns (1, 1, 1).
Proof.
  apply (iter_frames_agrees_with_frame_stream Scenarios.fixed6_sum8
           {| Transport.mode := "fixed"; Transport.value := Some 6;
              Transport.field_offset := None; Transport.field_length := None;
              Transport.field_type := None; Transport.unit_bytes := None;
              Transport.overhead_bytes := None |}
           [x00; xaa; x55; x01; x02; x03; x05; xaa; x55; x01; x02; x03; x06] true 9
           {| Transport.total_bytes := 13; Transport.frames_ok := 1;
              Transport.frames_bad_checksum := 1; Transport.resyncs := 1 |}
           [[xaa; x55; x01; x02; x03; x05]]).
  - reflexivity.
  - left. reflexivity.
  - intros spec [= <-]. reflexivity.
  - lia.
  - vm_compute. reflexivity.
Defined.

(** ** What the encoder writes, the framers read *)

Lemma encode_value_fmt (ty : string) (little : bool) (n : nat) (v : Z) :
  Encode.store_fmt ty little n ->
  Encode.encode_value v ty
  = Ok (if little then Encode.le_bytes n (v mod 256 ^ Z.of_nat n)
        else rev (Encode.le_bytes n (v mod 256 ^ Z.of_nat n))).
Proof.
  intros Hfmt.
  assert (Hmask : forall k, 0 <= k -> Z.land v (Z.ones k) = v mod 2 ^ k)
    by (intros k Hk; now rewrite Z.land_ones by lia).
  assert (Hpack : forall (l : bool) (m : nat) (k : Z),
            2 ^ k = 256 ^ Z.of_nat m -> 0 <= k ->
            Encode.pack_uint l m (Z.land v (Z.ones k))
            = Ok (if l then Encode.le_bytes m (v mod 256 ^ Z.of_nat m)
                  else rev (Encode.le_bytes m (v mod 256 ^ Z.of_nat m)))).
  { intros l m k Hk Hk0. rewrite Hmask, Hk by assumption.
    apply pack_uint_ok. apply Z.mod_pos_bound. lia. }
  destruct Hfmt.
  - exact (Hpack true 1%nat 8 eq_refl ltac:(lia)).
  - exact (Hpack true 2%nat 16 eq_refl ltac:(lia)).
  - exact (Hpack false 2%nat 16 eq_refl ltac:(lia)).
  - exact (Hpack true 4%nat 32 eq_refl ltac:(lia)).
  - exact (Hpack false 4%nat 32 eq_refl ltac:(lia)).
Qed.

Lemma parse_uint_stored (ty : string) (little : bool) (n : nat) (v : Z) :
  Encode.store_fmt ty little n -> 0 <= v < 256 ^ Z.of_nat n ->
  Transport.parse_uint
    (if little then Encode.le_bytes n v else rev (Encode.le_bytes n v)) ty = Ok v.
Proof.
  intros Hfmt Hv. pose proof (from_stored little n v Hv) as Hfrom.
  destruct Hfmt; unfold Transport.parse_uint;
    repeat match goal with
           | |- context [String.eqb ?a ?b] =>
             let r := eval vm_compute in (String.eqb a b) in
             change (String.eqb a b) with r; cbv iota
           end;
    unfold Py.len; rewrite ?length_rev, le_bytes_length;
    try (change (negb (Z.of_nat 2 =? 2)) with false);
    try (change (negb (Z.of_nat 4 =? 4)) with false);
    try (change (negb (Z.of_nat 1 =? 1)) with false); cbv iota;
    try (now rewrite Hfrom).
  cbn [Encode.le_bytes].
  rewrite (getitem_lookup [Py.z2b v] 0 (Py.z2b v) eq_refl
           : Py.getitem [Py.z2b v] 0 = _).
  rewrite b2z_z2b. f_equal. apply Z.mod_small. exact Hv.
Qed.

(** X14. An unsigned value the encoder writes with [encode_value], such
    as the length field of [build_frame], is read back by [parse_uint]
    of both framers as the value modulo [2^(8n)], [n] the size of the
    type: the encoder masks the value and never raises, so a payload
    longer than its length field can count is announced shorter. *)
Theorem encode_value_parse_uint (ty : string) (little : bool) (n : nat) (v : Z) :
  Encode.store_fmt ty little n ->
  exists raw,
    Encode.encode_value v ty = Ok raw /\ length raw = n /\
    Transport.parse_uint raw ty = Ok (v mod 256 ^ Z.of_nat n) /\
    Detect.parse_uint raw ty = Ok (v mod 256 ^ Z.of_nat n).
Proof.
  intros Hfmt. eexists. split; [apply (encode_value_fmt ty little n v Hfmt) |].
  assert (Hv : 0 <= v mod 256 ^ Z.of_nat n < 256 ^ Z.of_nat n)
    by (apply Z.mod_pos_bound; lia).
  split; [destruct little; rewrite ?length_rev; apply le_bytes_length |].
  pose proof (parse_uint_stored ty little n _ Hfmt Hv) as Hp.
  split; [exact Hp | exact (parse_uint_agrees _ _ _ Hp)].
Qed.

Lemma encode_value_parse_uint_witness :
  exists raw,
    Encode.encode_value 70000 "uint16_be" = Ok raw /\ length raw = 2%nat /\
    Transport.parse_uint raw "uint16_be" = Ok 4464 /\
    Detect.parse_uint raw "uint16_be" = Ok 4464.
Proof.
  exact (encode_value_parse_uint "uint16_be" false 2 70000 Encode.fmt_uint16_be).
Defined.

(** ** From the encoder to the framer *)

Lemma build_frame_shape (header : list byte) (msg_id : Z) (payload : list byte)
    (frame_spec : FrameSpec) (ty : string) (little : bool) (n_len : nat)
    (cs : ChecksumSpec) (sf : string) (n_cs : nat) (frame : list byte) :
  Encode.framed_as_built frame_spec header ty little n_len cs sf n_cs ->
  Encode.build_frame header msg_id payload frame_spec = Ok frame ->
  exists lenf idb stored val,
    frame = (header ++ lenf ++ [idb] ++ payload) ++ stored /\
    lenf = (if little then Encode.le_bytes n_len (Py.len payload mod 256 ^ Z.of_nat n_len)
            else rev (Encode.le_bytes n_len (Py.len payload mod 256 ^ Z.of_nat n_len))) /\
    length stored = n_cs /\
    Encode.frame_checksum (header ++ lenf ++ [idb] ++ payload) cs = Ok (val, sf) /\
    Encode.encode_checksum val sf = Ok stored.
Proof.
  intros (Hh & Hne & (length & field & Hl & Hmode & Hfield & Hoff & Hflen & Hty & Hov)
          & Hfmt & Hcs & Henc) Hbuild.
  unfold Encode.build_frame, Encode.frame_body in Hbuild.
  rewrite Hl in Hbuild. cbn [from_option id] in Hbuild.
  rewrite Hmode, Hfield in Hbuild. cbn [from_option id] in Hbuild. rewrite Hty in Hbuild.
  cbn [from_option id] in Hbuild.
  change (String.eqb "dynamic" "dynamic") with true in Hbuild. cbv iota in Hbuild.
  rewrite (encode_value_fmt ty little n_len _ Hfmt) in Hbuild.
  cbn [mbind res_bind] in Hbuild.
  rewrite (encode_value_fmt "uint8" true 1 msg_id Encode.fmt_uint8) in Hbuild.
  cbn [mbind res_bind Encode.le_bytes] in Hbuild.
  rewrite Hcs in Hbuild.
  pose proof Henc as (ctype & little' & Htype & Hfmt' & Hsf & Hkind).
  replace (no_keys cs) with false in Hbuild by (unfold no_keys; now rewrite Htype).
  set (body := header ++ _ ++ [_] ++ payload) in Hbuild.
  destruct (Encode.frame_checksum body cs) as [[val sf']|] eqn:Hck; [| discriminate].
  cbn [mbind res_bind] in Hbuild.
  destruct (Encode.encode_checksum val sf') as [stored|] eqn:Hst; [| discriminate].
  cbn [mbind res_bind] in Hbuild. injection Hbuild as <-.
  assert (Hsf' : sf' = sf).
  { rewrite (frame_checksum_format _ _ _ _ Hck).
    destruct Hsf as [->|(_ & -> & ->)]; reflexivity. }
  subst sf'.
  do 4 eexists. split; [reflexivity |]. split; [reflexivity |].
  split; [exact (encode_checksum_length _ _ _ _ _ Hfmt' Hst) |].
  split; [exact Hck | exact Hst].
Qed.

Lemma built_frame_checked (cs : ChecksumSpec) (sf : string) (n : nat)
    (body stored : list byte) (val : Z) :
  Encode.encodable cs sf n ->
  Encode.frame_checksum body cs = Ok (val, sf) ->
  Encode.encode_checksum val sf = Ok stored ->
  length stored = n ->
  Encode.placed_at_end cs n (Py.len (body ++ stored)) ->
  verify_checksum (body ++ stored) cs = Ok true.
Proof.
  intros Henc Hck Hst Hlen Hplaced.
  pose proof Henc as (ctype & little & Htype & Hfmt & Hsf & Hkind).
  destruct (frame_checksum_value cs sf sf n body stored val Henc Hlen Hplaced Hck)
    as (_ & Hbound & Hcompute).
  rewrite (encode_checksum_fmt _ _ _ _ Hfmt Hbound) in Hst. injection Hst as <-.
  destruct Hplaced as (store_at & rfrom & rto & Hat & _ & Hres & _).
  unfold verify_checksum. rewrite Htype. cbn [require mbind res_bind].
  assert (Hformat :
    (if falsy (cs_store_format cs)
     then if String.eqb ctype "sum8" then Ok "uint8"%string
          else if String.eqb ctype "cs15" || String.eqb ctype "xor16_slices"
               then Ok "uint16_le"%string
               else Raise ValueError
     else Ok (default ""%string (cs_store_format cs))) = Ok sf).
  { destruct Hsf as [->|(-> & -> & ->)]; [| reflexivity].
    cbn [falsy default]. destruct Hfmt; reflexivity. }
  rewrite Hformat, Hat. cbn [require mbind res_bind].
  rewrite (read_expected_fmt sf little n val store_at body Hfmt Hbound).
  - cbn [mbind res_bind]. rewrite Hcompute. cbn [mbind res_bind mret res_ret].
    now rewrite Z.eqb_refl.
  - rewrite Hres. unfold Py.len. rewrite length_app.
    destruct little; rewrite ?length_rev, le_bytes_length; lia.
Qed.

Lemma from_frame_as_built (frame_spec : FrameSpec) (header : list byte)
    (ty : string) (little : bool) (n_len : nat)
    (cs : ChecksumSpec) (sf : string) (n_cs : nat) :
  Encode.framed_as_built frame_spec header ty little n_len cs sf n_cs ->
  Transport.from_frame frame_spec
  = Ok {| Transport.mode := "dynamic"; Transport.value := None;
          Transport.field_offset := Some (Py.len header);
          Transport.field_length := Some (Z.of_nat n_len);
          Transport.field_type := Some ty; Transport.unit_bytes := None;
          Transport.overhead_bytes :=
            Some (Py.len header + Z.of_nat n_len + 1 + Z.of_nat n_cs) |}.
Proof.
  intros (_ & _ & (length & field & Hl & Hmode & Hfield & Hoff & Hflen & Hty & Hov) & _).
  unfold Transport.from_frame. rewrite Hl, Hmode, Hfield.
  rewrite bool_decide_eq_false_2 by discriminate.
  rewrite bool_decide_eq_true_2 by reflexivity.
  cbn [from_option id]. rewrite Hoff, Hflen, Hty, Hov. reflexivity.
Qed.

(** A frame the encoder built is one the framer takes whole. *)
Lemma built_valid (frame_spec : FrameSpec) (header : list byte)
    (ty : string) (little : bool) (n_len : nat)
    (cs : ChecksumSpec) (sf : string) (n_cs : nat) (ls : Transport.LengthSpec)
    (enable : bool) (m : list byte) :
  Encode.framed_as_built frame_spec header ty little n_len cs sf n_cs ->
  Transport.from_frame frame_spec = Ok ls ->
  Encode.built frame_spec header n_len cs n_cs m ->
  Transport.valid_frame header ls (fs_checksum frame_spec) enable m.
Proof.
  intros Hspec Hls (msg_id & payload & Hbuild & Hpay & Hplaced).
  rewrite (from_frame_as_built _ _ _ _ _ _ _ _ Hspec) in Hls. injection Hls as <-.
  destruct (build_frame_shape _ _ _ _ _ _ _ _ _ _ _ Hspec Hbuild)
    as (lenf & idb & stored & val & -> & Hlenf & Hstored & Hck & Hst).
  pose proof Hspec as (_ & _ & _ & Hfmt & Hcs & Henc).
  assert (Hn : length lenf = n_len)
    by (subst lenf; destruct little; rewrite ?length_rev; apply le_bytes_length).
  split; [| split].
  - apply starts_with_iff. rewrite <- !app_assoc. eauto.
  - unfold Transport.total_length.
    cbn [Transport.mode Transport.field_offset Transport.field_length
         Transport.field_type Transport.overhead_bytes Transport.assert_some
         mbind res_bind].
    change (String.eqb "dynamic" "fixed") with false.
    change (String.eqb "dynamic" "counted") with false. cbv iota.
    assert (Hlen : Py.len ((header ++ lenf ++ [idb] ++ payload) ++ stored)
                   = Py.len payload + (Py.len header + Z.of_nat n_len + 1 + Z.of_nat n_cs)).
    { unfold Py.len. rewrite !length_app. cbn [length]. lia. }
    rewrite Hlen.
    destruct (Z.ltb_spec (Py.len payload + (Py.len header + Z.of_nat n_len + 1
                                            + Z.of_nat n_cs))
                         (Py.len header + Z.of_nat n_len)) as [Hshort|_];
      [unfold Py.len in Hshort; lia |].
    assert (Hraw : Py.slice ((header ++ lenf ++ [idb] ++ payload) ++ stored)
                            (Py.len header) (Py.len header + Z.of_nat n_len) = lenf).
    { rewrite <- !app_assoc. rewrite (app_assoc header lenf).
      unfold Py.len. rewrite slice_app_l by (rewrite ?length_app; lia).
      rewrite <- Hn. apply slice_app_r. }
    rewrite Hraw, Hlenf.
    rewrite (parse_uint_stored ty little n_len _ Hfmt)
      by (apply Z.mod_pos_bound; lia).
    cbn [mbind res_bind]. f_equal.
    rewrite Z.mod_small by (unfold Py.len in *; lia). reflexivity.
  - rewrite Hcs. destruct enable; [| exact I].
    exact (built_frame_checked cs sf n_cs _ stored val Henc Hck Hst Hstored Hplaced).
Qed.

(** X15. Frames built by [build_frame] are recovered by [frame_stream]:
    for a specification that describes the layout [build_frame] produces
    (dynamic length field after the header, overhead for header, field,
    message id and checksum; a checksum the encoder computes, stored at
    the end) and payloads the length field can count, a stream of such
    frames, read in any non-empty chunks, comes back frame for frame,
    with no bad checksum and no resync. *)
Theorem built_frames_are_framed (frame_spec : FrameSpec) (header : list byte)
    (ty : string) (little : bool) (n_len : nat)
    (cs : ChecksumSpec) (sf : string) (n_cs : nat)
    (frames reads : list (list byte)) (enable : bool) (fuel : nat) :
  Encode.framed_as_built frame_spec header ty little n_len cs sf n_cs ->
  Forall (Encode.built frame_spec header n_len cs n_cs) frames ->
  Forall (fun chunk => chunk <> []) reads ->
  concat reads = concat frames ->
  (length frames < fuel)%nat ->
  Transport.frame_stream fuel reads frame_spec enable
  = Returns ({| Transport.total_bytes := Py.len (concat frames);
                Transport.frames_ok := Py.len frames;
                Transport.frames_bad_checksum := 0;
                Transport.resyncs := 0 |}, frames).
Proof.
  intros Hspec Hbuilt Hreads Hcat Hfuel.
  pose proof (from_frame_as_built _ _ _ _ _ _ _ _ Hspec) as Hls.
  pose proof Hspec as (Hh & Hne & _ & Hfmt & _).
  set (ls := {| Transport.mode := "dynamic"%string |}) in Hls.
  assert (Hsane : Transport.length_field_sane ls).
  { right. exists (Py.len header), (Z.of_nat n_len). repeat split.
    - unfold Py.len. lia.
    - destruct Hfmt; lia. }
  assert (Hvalid : Forall (Transport.valid_frame header ls (fs_checksum frame_spec) enable)
                          frames).
  { eapply Forall_impl; [exact Hbuilt |]. intros m Hm.
    exact (built_valid _ _ _ _ _ _ _ _ ls enable m Hspec Hls Hm). }
  unfold Transport.frame_stream, Transport.extract_header. rewrite Hh, Hls.
  destruct header as [|h0 header]; [congruence |].
  destruct (outer_loop_frames (h0 :: header) ls (fs_checksum frame_spec) enable
              Hne Hsane reads Hreads frames Transport.initial fuel)
    as (st' & Hrun & Hw & Hs); try assumption.
  - intros m rest ->. apply Forall_cons in Hvalid as [Hm _].
    destruct (valid_frame_length (h0 :: header) ls (fs_checksum frame_spec) enable
                Hne m Hm) as [_ Hpos].
    exact Hpos.
  - rewrite Hrun, Hw, Hs, Hcat. reflexivity.
Qed.

Lemma built_frames_are_framed_witness :
  Transport.frame_stream 3
    [[x55; xaa; x04; x10; xde]; [xad; xbe; xef; xd4; xa0; x55; xaa; x00; x07; x70; x0a]]
    (Encode.checksummed "crc16" "uint16_le" (-3) (-2)) true
  = Returns ({| Transport.total_bytes := 16; Transport.frames_ok := 2;
                Transport.frames_bad_checksum := 0; Transport.resyncs := 0 |},
             [[x55; xaa; x04; x10; xde; xad; xbe; xef; xd4; xa0];
              [x55; xaa; x00; x07; x70; x0a]]).
Proof.
  refine (built_frames_are_framed (Encode.checksummed "crc16" "uint16_le" (-3) (-2))
            [x55; xaa] "uint8" true 1
            {| cs_type := Some "crc16"%string;
               cs_range := Some {| rng_from := Some 0; rng_to := Some (-3) |};
               cs_store_at := Some (-2);
               cs_store_format := Some "uint16_le"%string;
               cs_params := Some Encode.modbus_params |} "uint16_le" 2
            [[x55; xaa; x04; x10; xde; xad; xbe; xef; xd4; xa0];
             [x55; xaa; x00; x07; x70; x0a]]
            [[x55; xaa; x04; x10; xde];
             [xad; xbe; xef; xd4; xa0; x55; xaa; x00; x07; x70; x0a]]
            true 3 _ _ _ _ _).
  - split; [reflexivity |]. split; [discriminate |]. split.
    { do 2 eexists. repeat split; reflexivity. }
    split; [constructor |]. split; [reflexivity |].
    exists "crc16"%string, true.
    split; [reflexivity |]. split; [constructor |]. split; [now left |].
    right. left. split; [reflexivity |]. split; [lia |].
    exists Encode.modbus_params, 40961, 65535, 0, true, false.
    repeat split; reflexivity.
  - constructor; [| constructor; [| constructor]].
    + exists 16, [xde; xad; xbe; xef]. split; [vm_compute; reflexivity |].
      split; [vm_compute; reflexivity |].
      exists (-2), 0, (-3). repeat split; vm_compute; congruence.
    + exists 7, []. split; [vm_compute; reflexivity |].
      split; [vm_compute; reflexivity |].
      exists (-2), 0, (-3). repeat split; vm_compute; congruence.
  - repeat constructor; discriminate.
  - reflexivity.
  - simpl. lia.
Defined.

(** ** What the triplet transform unpacks *)

Lemma lor_shiftl_low (k lo hi : Z) :
  0 <= k -> 0 <= lo < 2 ^ k -> 0 <= hi -> Z.lor (Z.shiftl hi k) lo = hi * 2 ^ k + lo.
Proof.
  intros Hk Hlo Hhi.
  assert (Hdisj : Z.land (Z.shiftl hi k) lo = 0).
  { apply Z.bits_inj'. intros n Hn. rewrite Z.land_spec, Z.bits_0.
    destruct (Z.lt_ge_cases n k).
    - now rewrite (Z.shiftl_spec_low hi k n) by lia.
    - destruct (Z.eq_dec lo 0) as [->|]; [rewrite Z.bits_0; apply andb_false_r |].
      rewrite (Z.bits_above_log2 lo n); [apply andb_false_r | lia |].
      apply Z.lt_le_trans with k; [apply Z.log2_lt_pow2; lia | lia]. }
  rewrite <- Z.lxor_lor by exact Hdisj.
  rewrite <- Z.add_nocarry_lxor by exact Hdisj.
  now rewrite Z.shiftl_mul_pow2 by lia.
Qed.

(** The three fields the default masks and shifts cut from a sample
    [b0 b1 b2], read as the 24-bit word [b0 + 256 b1 + 65536 b2]. *)
Lemma triplet_bits (b0 b1 b2 : Z) :
  0 <= b0 < 256 -> 0 <= b1 < 256 -> 0 <= b2 < 256 ->
  let w := b0 + 256 * b1 + 65536 * b2 in
  Z.land (Z.lor (Z.shiftl (Z.land b2 255) 6) (Z.land (Z.shiftr b1 2) 63)) 16383
  = w / 1024 /\
  Z.lor (Z.shiftl (Z.land b1 3) 6) (Z.land (Z.shiftr b0 2) 63) = w / 4 mod 256 /\
  Z.land b0 1 = w mod 2.
Proof.
  intros H0 H1 H2 w. subst w.
  change 255 with (Z.ones 8). change 63 with (Z.ones 6).
  change 16383 with (Z.ones 14). change 3 with (Z.ones 2). change 1 with (Z.ones 1) at 1.
  rewrite !Z.land_ones, !Z.shiftr_div_pow2 by lia.
  change (2 ^ 8) with 256. change (2 ^ 6) with 64. change (2 ^ 14) with 16384.
  change (2 ^ 2) with 4. change (2 ^ 1) with 2.
  rewrite !lor_shiftl_low by lia.
  change (2 ^ 6) with 64. repeat split; lia.
Qed.

Lemma getitem_inv (l : list byte) (j z : Z) :
  0 <= j -> Py.getitem l j = Ok z ->
  exists b, l !! Z.to_nat j = Some b /\ z = Py.b2z b.
Proof.
  intros Hj. unfold Py.getitem. destruct (Z.ltb_spec j 0); [lia |].
  destruct ((0 <=? j) && (j <? Py.len l)); [| discriminate].
  destruct (l !! Z.to_nat j) as [b|]; [| discriminate].
  intros [= <-]. eauto.
Qed.

Lemma for_break_lookup (body : Z -> res (option Semantics.record)) (n a : nat)
    (rows : list Semantics.record) (k : nat) (row : Semantics.record) :
  Semantics.for_break body (map (fun k => 0 + 1 * Z.of_nat k) (seq a n)) = Ok rows ->
  rows !! k = Some row ->
  body (Z.of_nat (a + k)) = Ok (Some row).
Proof.
  revert a rows k. induction n as [|n IH]; intros a rows k Hrun Hk.
  - cbn in Hrun. injection Hrun as <-. discriminate.
  - cbn [seq map Semantics.for_break] in Hrun.
    destruct (body (0 + 1 * Z.of_nat a)) as [[r|]|] eqn:Hbody;
      cbn [mbind res_bind] in Hrun; [| | discriminate].
    + destruct (Semantics.for_break body _) as [rows'|] eqn:Hrest;
        cbn [mbind res_bind] in Hrun; [| discriminate].
      injection Hrun as <-. destruct k as [|k].
      * injection Hk as <-. rewrite Nat.add_0_r.
        replace (Z.of_nat a) with (0 + 1 * Z.of_nat a) by lia. exact Hbody.
      * replace (a + S k)%nat with (S a + k)%nat by lia.
        exact (IH (S a) rows' k Hrest Hk).
    + injection Hrun as <-. discriminate.
Qed.

Lemma triplet_point_default (frame : Semantics.record) (payload : list byte)
    (start_deg delta : float) (i : nat) (row : Semantics.record) :
  Semantics.triplet_point Semantics.triplet_defaults frame payload start_deg delta
    (Z.of_nat i) = Ok (Some row) ->
  exists b0 b1 b2,
    payload !! (3 * i)%nat = Some b0 /\
    payload !! (3 * i + 1)%nat = Some b1 /\
    payload !! (3 * i + 2)%nat = Some b2 /\
    let w := Py.b2z b0 + 256 * Py.b2z b1 + 65536 * Py.b2z b2 in
    Semantics.get row "_frame_idx" = Semantics.get frame "_frame_idx" /\
    Semantics.get row "_point_idx" = VInt (Z.of_nat i) /\
    Semantics.get row "distance_raw" = VInt (w / 1024) /\
    Semantics.get row "intensity" = VInt (w / 4 mod 256) /\
    Semantics.get row "hr_flag" = VInt (w mod 2).
Proof.
  unfold Semantics.triplet_point.
  cbn [Semantics.triplet_defaults Semantics.dist_b2_shift Semantics.dist_b1_shift
       Semantics.dist_b1_mask Semantics.dist_mask Semantics.inten_b1_mask
       Semantics.inten_b1_shift Semantics.inten_b0_shift Semantics.inten_b0_mask
       Semantics.hr_mask Semantics.include_frame_fields Semantics.copy_fields fold_left].
  destruct (Py.len payload <=? Z.of_nat i * 3 + 2); [discriminate |].
  destruct (Py.getitem payload (Z.of_nat i * 3)) as [z0|] eqn:E0; [| discriminate].
  destruct (Py.getitem payload (Z.of_nat i * 3 + 1)) as [z1|] eqn:E1; [| discriminate].
  destruct (Py.getitem payload (Z.of_nat i * 3 + 2)) as [z2|] eqn:E2; [| discriminate].
  cbn [mbind res_bind]. unfold PyNum.shl, PyNum.shr.
  change (6 <? 0) with false. change (2 <? 0) with false. cbv iota.
  cbn [mbind res_bind].
  destruct (Semantics.point_angle start_deg delta (Z.of_nat i)) as [angle|];
    [| discriminate].
  cbn [mbind res_bind]. intros [= <-].
  apply getitem_inv in E0 as (b0 & Hb0 & ->); [| lia].
  apply getitem_inv in E1 as (b1 & Hb1 & ->); [| lia].
  apply getitem_inv in E2 as (b2 & Hb2 & ->); [| lia].
  exists b0, b1, b2.
  replace (Z.to_nat (Z.of_nat i * 3)) with (3 * i)%nat in Hb0 by lia.
  replace (Z.to_nat (Z.of_nat i * 3 + 1)) with (3 * i + 1)%nat in Hb1 by lia.
  replace (Z.to_nat (Z.of_nat i * 3 + 2)) with (3 * i + 2)%nat in Hb2 by lia.
  repeat (split; [assumption |]).
  destruct (triplet_bits (Py.b2z b0) (Py.b2z b1) (Py.b2z b2)
              (b2z_bound b0) (b2z_bound b1) (b2z_bound b2)) as (Hd & Hi & Hh).
  cbv zeta. rewrite <- Hd, <- Hi, <- Hh. unfold Semantics.get.
  repeat split;
    repeat (rewrite lookup_insert_ne by discriminate); now rewrite lookup_insert_eq.
Qed.

(** X16. With the default masks and shifts the triplet transform
    unpacks sample [i] of a frame, the bytes [b0 b1 b2] at [3i] of the
    payload, as the 24-bit little-endian word [w = b0 + 256 b1 + 65536 b2]:
    row [i] carries index [i], the frame's [_frame_idx],
    [distance_raw = w >> 10] (bits 10 to 23), [intensity = (w >> 2) & 0xFF]
    (bits 2 to 9) and [hr_flag = w & 1]. *)
Theorem triplet_rows_unpack (frame : Semantics.record) (rows : list Semantics.record)
    (i : nat) (row : Semantics.record) :
  Semantics.triplet_frame Semantics.triplet_defaults frame = Ok rows ->
  rows !! i = Some row ->
  exists payload b0 b1 b2,
    Semantics._hex_to_bytes (Semantics.get frame "samples") = Some payload /\
    payload !! (3 * i)%nat = Some b0 /\
    payload !! (3 * i + 1)%nat = Some b1 /\
    payload !! (3 * i + 2)%nat = Some b2 /\
    let w := Py.b2z b0 + 256 * Py.b2z b1 + 65536 * Py.b2z b2 in
    Semantics.get row "_frame_idx" = Semantics.get frame "_frame_idx" /\
    Semantics.get row "_point_idx" = VInt (Z.of_nat i) /\
    Semantics.get row "distance_raw" = VInt (w / 1024) /\
    Semantics.get row "intensity" = VInt (w / 4 mod 256) /\
    Semantics.get row "hr_flag" = VInt (w mod 2).
Proof.
  intros Hrun Hrow. unfold Semantics.triplet_frame in Hrun.
  cbn [Semantics.triplet_defaults Semantics.frame_name Semantics.input_field
       Semantics.count_ref Semantics.start_field Semantics.end_field
       Semantics.right_shift Semantics.scale_div Semantics.offset
       Semantics.other_frame] in Hrun.
  destruct (Semantics._as_int (Semantics.get frame "lsn")) as [c|]; [| discriminate].
  cbn [mbind res_bind] in Hrun.
  destruct (Semantics._hex_to_bytes (Semantics.get frame "samples")) as [payload|];
    [| injection Hrun as <-; discriminate].
  destruct (_ <=? 0); [injection Hrun as <-; discriminate |].
  destruct (Semantics._as_int (Semantics.get frame "fsa")) as [[start_raw|]|];
    cbn [mbind res_bind] in Hrun; try discriminate;
    (destruct (Semantics._as_int (Semantics.get frame "lsa")) as [[end_raw|]|];
     cbn [mbind res_bind] in Hrun; try discriminate);
    try (injection Hrun as <-; discriminate).
  repeat match type of Hrun with
         | (?m ≫= _) = _ => destruct m; cbn [mbind res_bind] in Hrun; [| discriminate]
         end.
  unfold Py.range in Hrun.
  pose proof (for_break_lookup _ _ 0 rows i row Hrun Hrow) as Hbody.
  cbn [Nat.add] in Hbody.
  destruct (triplet_point_default frame payload _ _ i row Hbody)
    as (b0 & b1 & b2 & H).
  exists payload, b0, b1, b2. split; [reflexivity | exact H].
Qed.

Lemma triplet_rows_unpack_witness :
  exists payload b0 b1 b2,
    Semantics._hex_to_bytes
      (Semantics.get (Semantics.frame_of 0 64 5 "0102030405060708") "samples")
    = Some payload /\
    payload !! 3%nat = Some b0 /\ payload !! 4%nat = Some b1 /\ payload !! 5%nat = Some b2.
Proof.
  destruct (triplet_rows_unpack (Semantics.frame_of 0 64 5 "0102030405060708")
              (Semantics.rows_of
                 (Semantics.triplet_frame Semantics.triplet_defaults
                    (Semantics.frame_of 0 64 5 "0102030405060708")))
              1
              (default ∅
                 (Semantics.rows_of
                    (Semantics.triplet_frame Semantics.triplet_defaults
                       (Semantics.frame_of 0 64 5 "0102030405060708")) !! 1%nat)))
    as (payload & b0 & b1 & b2 & Hp & H0 & H1 & H2 & _).
  - apply rows_of_returned. vm_compute. reflexivity.
  - vm_compute. reflexivity.
  - exists payload, b0, b1, b2. repeat split; assumption.
Defined.

(** ** The rows of the IF/DN transform *)

Lemma if_dn_point_break (cfg : Semantics.IfDnCfg) (frame : Semantics.record)
    (payload : list byte) (start_deg delta : float) (speed_rps : pyval) (i : Z) :
  In (Semantics.brightness_mode cfg) ["none"; "u8"; "u16_le"]%string ->
  let unit_bytes :=
    if String.eqb (Semantics.brightness_mode cfg) "none" then 2
    else if String.eqb (Semantics.brightness_mode cfg) "u8" then 3 else 4 in
  (Semantics.if_dn_point cfg unit_bytes frame payload start_deg delta speed_rps i = Ok None ->
   Py.len payload < i * unit_bytes + unit_bytes) /\
  (forall row,
     Semantics.if_dn_point cfg unit_bytes frame payload start_deg delta speed_rps i
     = Ok (Some row) ->
     i * unit_bytes + unit_bytes <= Py.len payload).
Proof.
  intros Hmode. unfold Semantics.if_dn_point.
  destruct Hmode as [<-|[<-|[<-|[]]]]; cbv zeta;
    repeat match goal with
           | |- context [String.eqb ?a ?b] =>
             let r := eval vm_compute in (String.eqb a b) in
             change (String.eqb a b) with r; cbv iota
           end.
  - destruct (Z.leb_spec (Py.len payload) (i * 2 + 1)).
    + split; [intros _; lia | discriminate].
    + cbn [mbind res_bind].
      destruct (Semantics.point_angle start_deg delta i); cbn [mbind res_bind];
        split; try discriminate; intros; lia.
  - destruct (Z.leb_spec (Py.len payload) (i * 3 + 1)).
    + split; [intros _; lia | discriminate].
    + destruct (Z.leb_spec (Py.len payload) (i * 3 + 2)).
      * cbn [mbind res_bind]. split; [intros _; lia | discriminate].
      * destruct (Py.getitem payload (i * 3 + 2)); cbn [mbind res_bind];
          [| split; discriminate].
        destruct (Semantics.point_angle start_deg delta i); cbn [mbind res_bind];
          split; try discriminate; intros; lia.
  - destruct (Z.leb_spec (Py.len payload) (i * 4 + 1)).
    + split; [intros _; lia | discriminate].
    + destruct (Z.leb_spec (Py.len payload) (i * 4 + 3)).
      * cbn [mbind res_bind]. split; [intros _; lia | discriminate].
      * cbn [mbind res_bind].
        destruct (Semantics.point_angle start_deg delta i); cbn [mbind res_bind];
          split; try discriminate; intros; lia.
Qed.

(** X17. A frame that passes the guards of the IF/DN transform, and on
    which it does not raise, yields [min(count, len(payload) // unit)]
    rows, [unit] being 2, 3 or 4 bytes per sample for the brightness
    modes none, u8 and u16_le: a sample cut short by the end of the
    payload gives no row. *)
Theorem if_dn_frame_row_count (cfg : Semantics.IfDnCfg) (frame : Semantics.record)
    (payload : list byte) (count start_raw end_raw : Z) (rows : list Semantics.record) :
  In (Semantics.brightness_mode cfg) ["none"; "u8"; "u16_le"]%string ->
  let unit_bytes :=
    if String.eqb (Semantics.brightness_mode cfg) "none" then 2
    else if String.eqb (Semantics.brightness_mode cfg) "u8" then 3 else 4 in
  Semantics.other_frame (Semantics.dn_frame_name cfg) frame = false ->
  Semantics._hex_to_bytes (Semantics.get frame (Semantics.dn_input_field cfg))
  = Some payload ->
  Semantics._as_int (Semantics.get frame (Semantics.dn_count_ref cfg)) = Ok (Some count) ->
  0 < count ->
  Semantics._as_int (Semantics.get frame (Semantics.dn_start_field cfg))
  = Ok (Some start_raw) ->
  Semantics._as_int (Semantics.get frame (Semantics.dn_end_field cfg)) = Ok (Some end_raw) ->
  Semantics.if_dn_frame cfg unit_bytes frame = Ok rows ->
  Py.len rows = Z.min count (Py.len payload / unit_bytes).
Proof.
  intros Hmode unit_bytes Hname Hpayload Hcount Hpos Hstart Hend Hrun.
  unfold Semantics.if_dn_frame in Hrun.
  rewrite Hname, Hpayload, Hcount in Hrun. cbn [mbind res_bind] in Hrun.
  destruct (Z.leb_spec count 0); [lia |].
  rewrite Hstart, Hend in Hrun. cbn [mbind res_bind] in Hrun.
  repeat match type of Hrun with
         | (?m ≫= _) = _ => destruct m; cbn [mbind res_bind] in Hrun; [| discriminate]
         end.
  unfold Py.range in Hrun.
  replace (Z.to_nat ((count - 0 + 1 - 1) / 1)) with (Z.to_nat count) in Hrun
    by (rewrite Z.div_1_r; lia).
  assert (Hunit : unit_bytes = 2 \/ unit_bytes = 3 \/ unit_bytes = 4).
  { subst unit_bytes. destruct Hmode as [<-|[<-|[<-|[]]]]; auto. }
  eapply (for_break_count _ (Py.len payload / unit_bytes)) in Hrun.
  - rewrite Hrun. unfold Py.len. destruct Hunit as [->|[->| ->]]; lia.
  - intros i Hi. apply (if_dn_point_break cfg frame payload _ _ _ i Hmode) in Hi.
    fold unit_bytes in Hi. unfold Py.len in *. destruct Hunit as [->|[->| ->]]; lia.
  - intros i row Hi. apply (if_dn_point_break cfg frame payload _ _ _ i Hmode) in Hi.
    fold unit_bytes in Hi. unfold Py.len in *. destruct Hunit as [->|[->| ->]]; lia.
Qed.

Lemma if_dn_frame_row_count_witness :
  Py.len (Semantics.rows_of
            (Semantics.if_dn_frame Semantics.if_dn_defaults 2
               (Semantics.dn_frame_of 40960 41024 5 "0102030405060708ff")))
  = Z.min 5 (Py.len [x01; x02; x03; x04; x05; x06; x07; x08; xff] / 2).
Proof.
  apply (if_dn_frame_row_count Semantics.if_dn_defaults
           (Semantics.dn_frame_of 40960 41024 5 "0102030405060708ff")
           [x01; x02; x03; x04; x05; x06; x07; x08; xff] 5 40960 41024).
  - left. reflexivity.
  - vm_compute. reflexivity.
  - vm_compute. reflexivity.
  - vm_compute. reflexivity.
  - lia.
  - vm_compute. reflexivity.
  - vm_compute. reflexivity.
  - apply rows_of_returned. vm_compute. reflexivity.
Defined.

(** ** The decoder reads what the encoder writes *)

Lemma slice_whole {A : Type} (l : list A) : Py.slice l 0 (Py.len l) = l.
Proof.
  unfold Py.len. rewrite slice_take by lia. rewrite Nat2Z.id. apply firstn_all.
Qed.

Lemma parse_value_int (ty : string) (signed little : bool) (n : nat) (raw : list byte) :
  Decode.int_type ty signed little n -> length raw = n ->
  Decode.parse_value raw ty
  = VInt (if signed then Decode.unpack_int little raw else Decode.unpack_uint little raw).
Proof.
  intros Hty Hlen.
  assert (Hsized : forall (k : Z) (value : list byte -> pyval),
            k = Z.of_nat n ->
            (if k <=? Py.len raw then value (Py.slice raw 0 k) else VNone) = value raw).
  { intros k value ->. unfold Py.len at 1. rewrite Hlen.
    destruct (Z.leb_spec (Z.of_nat n) (Z.of_nat n)); [| lia].
    rewrite <- Hlen. fold (Py.len raw). now rewrite slice_whole. }
  destruct Hty; unfold Decode.parse_value;
    repeat match goal with
           | |- context [String.eqb ?a ?b] =>
             let r := eval vm_compute in (String.eqb a b) in
             change (String.eqb a b) with r; cbv iota
           end;
    try match goal with
        | |- (if ?k <=? _ then VInt (?f (Py.slice raw 0 ?k)) else VNone) = _ =>
          exact (Hsized k (fun r => VInt (f r)) eq_refl)
        end.
  destruct raw as [|b [|c raw]]; try discriminate.
  unfold Decode.unpack_uint. cbn [Py.from_bytes_le]. f_equal. lia.
Qed.

Lemma pack_int_ok (little : bool) (n : nat) (v : Z) :
  - (256 ^ Z.of_nat n / 2) <= v < 256 ^ Z.of_nat n / 2 ->
  Encode.pack_int little n v
  = Ok (if little then Encode.le_bytes n (v mod 256 ^ Z.of_nat n)
        else rev (Encode.le_bytes n (v mod 256 ^ Z.of_nat n))).
Proof.
  intros Hv. unfold Encode.pack_int.
  destruct (Z.leb_spec (- (256 ^ Z.of_nat n / 2)) v); [| lia].
  destruct (Z.ltb_spec v (256 ^ Z.of_nat n / 2)); [reflexivity | lia].
Qed.

Lemma pack_int_out_of_range (little : bool) (n : nat) (v : Z) :
  ~ (- (256 ^ Z.of_nat n / 2) <= v < 256 ^ Z.of_nat n / 2) ->
  Encode.pack_int little n v = Raise StructError.
Proof.
  intros Hv. unfold Encode.pack_int.
  destruct (Z.leb_spec (- (256 ^ Z.of_nat n / 2)) v);
    destruct (Z.ltb_spec v (256 ^ Z.of_nat n / 2)); try reflexivity. lia.
Qed.

Lemma unpack_uint_stored (little : bool) (n : nat) (u : Z) :
  0 <= u < 256 ^ Z.of_nat n ->
  Decode.unpack_uint little
    (if little then Encode.le_bytes n u else rev (Encode.le_bytes n u)) = u.
Proof.
  intros Hu. pose proof (from_stored little n u Hu) as H.
  unfold Decode.unpack_uint. destruct little; exact H.
Qed.

Lemma unpack_int_stored (little : bool) (n : nat) (v : Z) :
  (0 < n)%nat ->
  - (256 ^ Z.of_nat n / 2) <= v < 256 ^ Z.of_nat n / 2 ->
  Decode.unpack_int little
    (if little then Encode.le_bytes n (v mod 256 ^ Z.of_nat n)
     else rev (Encode.le_bytes n (v mod 256 ^ Z.of_nat n))) = v.
Proof.
  intros Hn Hv. unfold Decode.unpack_int.
  assert (Hpos : 0 < 256 ^ Z.of_nat n) by (apply Z.pow_pos_nonneg; lia).
  rewrite (unpack_uint_stored little n) by (apply Z.mod_pos_bound; lia).
  assert (Hlen : Py.len (if little then Encode.le_bytes n (v mod 256 ^ Z.of_nat n)
                         else rev (Encode.le_bytes n (v mod 256 ^ Z.of_nat n)))
                 = Z.of_nat n)
    by (unfold Py.len; destruct little; rewrite ?length_rev, le_bytes_length; reflexivity).
  rewrite Hlen.
  assert (Heven : 256 ^ Z.of_nat n = 2 * (256 ^ Z.of_nat n / 2)).
  { replace (Z.of_nat n) with (Z.succ (Z.of_nat (n - 1))) by lia.
    rewrite Z.pow_succ_r by lia.
    replace (256 * 256 ^ Z.of_nat (n - 1)) with ((128 * 256 ^ Z.of_nat (n - 1)) * 2) by lia.
    rewrite Z.div_mul by lia. lia. }
  set (m := 256 ^ Z.of_nat n) in *. set (half := m / 2) in *.
  destruct (Z.le_gt_cases 0 v).
  - rewrite (Z.mod_small v m) by lia.
    destruct (Z.ltb_spec v half); [reflexivity | lia].
  - replace (v mod m) with (v + m) by (apply (Z.mod_unique_pos _ _ (-1)); lia).
    destruct (Z.ltb_spec (v + m) half); lia.
Qed.

(** X18. [parse_value] of the decoder inverts [encode_value] of the
    encoder on the integer types. For a signed type of [n] bytes a value
    in [-2^(8n-1), 2^(8n-1)) is written in [n] bytes and read back
    unchanged, and any other value makes [encode_value] raise
    [struct.error]; for an unsigned type every value is written, and
    read back modulo [2^(8n)]. *)
Theorem parse_value_encode_value (ty : string) (signed little : bool) (n : nat) (v : Z) :
  Decode.int_type ty signed little n ->
  if signed then
    (- (256 ^ Z.of_nat n / 2) <= v < 256 ^ Z.of_nat n / 2 ->
     exists raw, Encode.encode_value v ty = Ok raw /\ length raw = n /\
                 Decode.parse_value raw ty = VInt v) /\
    (~ (- (256 ^ Z.of_nat n / 2) <= v < 256 ^ Z.of_nat n / 2) ->
     Encode.encode_value v ty = Raise StructError)
  else
    exists raw, Encode.encode_value v ty = Ok raw /\ length raw = n /\
                Decode.parse_value raw ty = VInt (v mod 256 ^ Z.of_nat n).
Proof.
  intros Hty.
  assert (Hlen : forall u,
            length (if little then Encode.le_bytes n u else rev (Encode.le_bytes n u)) = n)
    by (intros u; destruct little; rewrite ?length_rev; apply le_bytes_length).
  assert (Hn : (0 < n)%nat) by (destruct Hty; lia).
  destruct signed.
  - assert (Henc : Encode.encode_value v ty = Encode.pack_int little n v)
      by (inversion Hty; subst; reflexivity).
    rewrite Henc. split.
    + intros Hv. eexists. split; [apply pack_int_ok; exact Hv |].
      split; [apply Hlen |].
      rewrite (parse_value_int ty true little n _ Hty (Hlen _)).
      f_equal. now apply unpack_int_stored.
    + apply pack_int_out_of_range.
  - assert (Hfmt : Encode.store_fmt ty little n) by (inversion Hty; constructor).
    eexists. split; [apply (encode_value_fmt ty little n v Hfmt) |].
    split; [apply Hlen |].
    rewrite (parse_value_int ty false little n _ Hty (Hlen _)).
    f_equal. apply unpack_uint_stored. apply Z.mod_pos_bound. lia.
Qed.

Lemma parse_value_encode_value_witness :
  exists raw, Encode.encode_value (-2) "int16_be" = Ok raw /\ length raw = 2%nat /\
              Decode.parse_value raw "int16_be" = VInt (-2).
Proof.
  apply (proj1 (parse_value_encode_value "int16_be" true false 2 (-2) Decode.ty_int16_be)).
  vm_compute. split; congruence.
Defined.

Lemma fromhex_hex_byte (b : byte) (rest : string) :
  PyNum.fromhex (String (Decode.hex_char (Py.b2z b / 16))
                        (String (Decode.hex_char (Py.b2z b mod 16)) rest))
  = match PyNum.fromhex rest with
    | Some r => Some (b :: r)
    | None => None
    end.
Proof.
  destruct b; reflexivity.
Qed.

(** X19. A field the decoder could give no integer type is handed on
    as the hexadecimal text of its bytes, and the semantic transforms
    get the bytes back from it: [_hex_to_bytes(parse_value(data, "bytes"))]
    is [data], for every byte string and for any type name [parse_value]
    does not know. *)
Theorem hex_to_bytes_parse_value (data : list byte) (ty : string) :
  ~ In ty ["uint8"; "int8"; "uint16_le"; "uint16_be"; "int16_le"; "int16_be";
           "uint32_le"; "uint32_be"; "int32_le"; "int32_be";
           "float32_le"; "float32_be"]%string ->
  Semantics._hex_to_bytes (Decode.parse_value data ty) = Some data.
Proof.
  intros Hty.
  assert (Hparse : Decode.parse_value data ty = VStr (Decode.hex data)).
  { unfold Decode.parse_value.
    repeat match goal with
           | |- context [String.eqb ty ?b] =>
             destruct (String.eqb_spec ty b) as [->|_];
               [exfalso; apply Hty; cbn; tauto |]
           end.
    reflexivity. }
  rewrite Hparse. clear Hparse. cbn [Semantics._hex_to_bytes].
  induction data as [|b data IH]; [reflexivity |].
  cbn [Decode.hex]. rewrite fromhex_hex_byte. now rewrite IH.
Qed.

Lemma hex_to_bytes_parse_value_witness :
  Semantics._hex_to_bytes (Decode.parse_value [x01; xab; xff] "bytes")
  = Some [x01; xab; xff].
Proof.
  apply (hex_to_bytes_parse_value [x01; xab; xff] "bytes").
  cbn. intros H. repeat (destruct H as [H|H]; [discriminate H |]). exact H.
Defined.

(** ** The sniff picks a best-scored candidate *)

Lemma insert_scored_perm (x : Detect.Scored) (l : list Detect.Scored) :
  Detect.insert_scored x l ≡ₚ x :: l.
Proof.
  induction l as [|s l IH]; cbn [Detect.insert_scored]; [reflexivity |].
  destruct (Detect.s_score s <? Detect.s_score x); [reflexivity |].
  rewrite IH. apply Permutation_swap.
Qed.

Lemma insert_scored_sorted (x : Detect.Scored) (l : list Detect.Scored) :
  StronglySorted (fun a b => Detect.s_score b <= Detect.s_score a) l ->
  StronglySorted (fun a b => Detect.s_score b <= Detect.s_score a)
                 (Detect.insert_scored x l).
Proof.
  induction 1 as [|s l Hl IH Hs]; cbn [Detect.insert_scored].
  - constructor; constructor.
  - destruct (Z.ltb_spec (Detect.s_score s) (Detect.s_score x)) as [Hlt|Hge].
    + constructor; [constructor; assumption |].
      constructor; [lia |].
      eapply Forall_impl; [exact Hs |]. intros b Hb. cbv beta in *. lia.
    + constructor; [exact IH |].
      rewrite insert_scored_perm. constructor; assumption.
Qed.

Lemma sort_scored_spec (l : list Detect.Scored) :
  Detect.sort_scored l ≡ₚ l /\
  StronglySorted (fun a b => Detect.s_score b <= Detect.s_score a) (Detect.sort_scored l).
Proof.
  unfold Detect.sort_scored.
  assert (H : forall acc,
            StronglySorted (fun a b => Detect.s_score b <= Detect.s_score a) acc ->
            fold_left (fun acc x => Detect.insert_scored x acc) l acc ≡ₚ acc ++ l /\
            StronglySorted (fun a b => Detect.s_score b <= Detect.s_score a)
              (fold_left (fun acc x => Detect.insert_scored x acc) l acc)).
  { induction l as [|x l IH]; intros acc Hacc; cbn [fold_left].
    - rewrite app_nil_r. split; [reflexivity | assumption].
    - destruct (IH (Detect.insert_scored x acc) (insert_scored_sorted x acc Hacc))
        as [Hp Hs].
      split; [| exact Hs]. rewrite Hp, insert_scored_perm.
      cbn [app]. apply Permutation_middle. }
  destruct (H [] ltac:(constructor)) as [Hp Hs]. split; assumption.
Qed.

Lemma sniff_frames_fuel (frames : list FrameSpec) (sample : list byte) (acc : Z * Z * Z) :
  Detect.sniff_frames frames sample acc <> OutOfFuel.
Proof.
  revert acc. induction frames as [|f frames IH]; intros acc; [discriminate |].
  cbn [Detect.sniff_frames].
  destruct (Detect.iter_frames (S (length sample)) sample f true) as [[[o b] r]| |] eqn:E.
  - destruct acc as [[ok bad] rs]. apply IH.
  - discriminate.
  - exfalso. revert E. unfold Detect.iter_frames.
    destruct (fs_header f) as [[|h header]|]; try discriminate.
    destruct (fs_length f) as [length|]; [| discriminate].
    pose proof (scan_loop_terminates (h :: header) length (fs_checksum f)
                  (S (List.length sample))
                  {| Detect.ok := 0; Detect.bad := 0; Detect.resyncs := 0;
                     Detect.buf := sample |} ltac:(cbn; lia)) as Hloop.
    destruct (Detect.scan_loop _ _ _ _ _); [discriminate | discriminate | congruence].
Qed.

Lemma score_all_spec (candidates : list Detect.Candidate) (sample : list byte) :
  match Detect.score_all candidates sample with
  | Returns scored =>
    map (fun s => (Detect.s_protocol_id s, Detect.s_protocol_version s)) scored
    = map (fun c => (Detect.c_protocol_id c, Detect.c_protocol_version c)) candidates /\
    Forall (fun s => Detect.s_score s
                     = Detect.s_frames_ok s * 100 - Detect.s_frames_bad_checksum s * 50
                       - Detect.s_resyncs s) scored
  | Raises _ => True
  | OutOfFuel => False
  end.
Proof.
  induction candidates as [|c candidates IH]; cbn [Detect.score_all].
  - split; [reflexivity | constructor].
  - unfold Detect.sniff_score_protocol.
    pose proof (sniff_frames_fuel (Detect.c_frames c) sample (0, 0, 0)) as Hfuel.
    destruct (Detect.sniff_frames (Detect.c_frames c) sample (0, 0, 0))
      as [[[o b] r]| |]; [| exact I | congruence].
    destruct (Detect.score_all candidates sample) as [scored| |]; [| exact I | exact IH].
    destruct IH as [Hids Hscores]. split.
    + cbn [map Detect.s_protocol_id Detect.s_protocol_version]. now rewrite Hids.
    + constructor; [reflexivity | exact Hscores].
Qed.

(** X20. [pick_by_sniff] always ends, and when it returns: [scored] lists
    every candidate once, each with the score
    [100 ok - 50 bad - resyncs] of its counts, in descending order of
    score; the protocol picked is the first of that list, so no
    candidate scores higher, and it is picked only if it framed at
    least one good frame; otherwise nothing is picked, even when a
    candidate further down the list framed one. *)
Theorem pick_by_sniff_best (candidates : list Detect.Candidate) (sample : list byte) :
  match Detect.pick_by_sniff candidates sample with
  | Returns (pick, scored, ambiguous) =>
    map (fun s => (Detect.s_protocol_id s, Detect.s_protocol_version s)) scored
    ≡ₚ map (fun c => (Detect.c_protocol_id c, Detect.c_protocol_version c)) candidates /\
    Forall (fun s => Detect.s_score s
                     = Detect.s_frames_ok s * 100 - Detect.s_frames_bad_checksum s * 50
                       - Detect.s_resyncs s) scored /\
    StronglySorted (fun a b => Detect.s_score b <= Detect.s_score a) scored /\
    match pick with
    | Some res =>
      exists best rest,
        scored = best :: rest /\ 0 < Detect.s_frames_ok best /\
        Forall (fun s => Detect.s_score s <= Detect.s_score best) rest /\
        Detect.protocol_id res = Some (Detect.s_protocol_id best) /\
        Detect.protocol_version res = Some (Detect.s_protocol_version best) /\
        Detect.model_id res = None /\ Detect.method res = "sniff"%string
    | None =>
      ambiguous = false /\
      match scored with
      | [] => candidates = []
      | top :: _ => Detect.s_frames_ok top <= 0
      end
    end
  | Raises _ => True
  | OutOfFuel => False
  end.
Proof.
  unfold Detect.pick_by_sniff.
  pose proof (score_all_spec candidates sample) as Hall.
  destruct (Detect.score_all candidates sample) as [scored0| |]; [| exact I | exact Hall].
  destruct Hall as [Hids Hscores].
  destruct (sort_scored_spec scored0) as [Hperm Hsorted].
  assert (Hbase :
    map (fun s => (Detect.s_protocol_id s, Detect.s_protocol_version s))
        (Detect.sort_scored scored0)
    ≡ₚ map (fun c => (Detect.c_protocol_id c, Detect.c_protocol_version c)) candidates /\
    Forall (fun s => Detect.s_score s
                     = Detect.s_frames_ok s * 100 - Detect.s_frames_bad_checksum s * 50
                       - Detect.s_resyncs s) (Detect.sort_scored scored0) /\
    StronglySorted (fun a b => Detect.s_score b <= Detect.s_score a)
                   (Detect.sort_scored scored0)).
  { split; [now rewrite Hperm, Hids |]. split; [now rewrite Hperm | exact Hsorted]. }
  destruct (Detect.sort_scored scored0) as [|best rest] eqn:Hsort.
  - destruct Hbase as (Hb1 & Hb2 & Hb3). repeat split; try assumption.
    apply Permutation_nil_l in Hb1. now destruct candidates.
  - destruct (Z.leb_spec (Detect.s_frames_ok best) 0) as [Hzero|Hpos].
    + destruct Hbase as (Hb1 & Hb2 & Hb3). repeat split; assumption.
    + destruct (Detect.score_to_confidence _ _) as [conf|]; [| exact I].
      destruct Hbase as (Hb1 & Hb2 & Hb3). repeat split; try assumption.
      exists best, rest. repeat split; try assumption.
      now apply StronglySorted_inv in Hb3 as [_ Hmax].
Qed.

Lemma pick_by_sniff_best_witness :
  match Detect.pick_by_sniff
          [ {| Detect.c_protocol_id := "lenpfx"; Detect.c_protocol_version := "1.0";
               Detect.c_frames := [Scenarios.whole_frame_u8] |};
            {| Detect.c_protocol_id := "fixed6"; Detect.c_protocol_version := "0.1";
               Detect.c_frames := [Scenarios.fixed6_sum8] |} ]
          [x00; xaa; x55; x01; x02; x03; x05; xaa; x55; x01; x02; x03; x05] with
  | Returns (Some res, scored, ambiguous) =>
    Detect.protocol_id res = Some "fixed6"%string /\
    map Detect.s_score scored = [199; 198] /\
    ambiguous = true /\
    StronglySorted (fun a b => Detect.s_score b <= Detect.s_score a) scored
  | _ => False
  end.
Proof.
  pose proof (pick_by_sniff_best
    [ {| Detect.c_protocol_id := "lenpfx"; Detect.c_protocol_version := "1.0";
         Detect.c_frames := [Scenarios.whole_frame_u8] |};
      {| Detect.c_protocol_id := "fixed6"; Detect.c_protocol_version := "0.1";
         Detect.c_frames := [Scenarios.fixed6_sum8] |} ]
    [x00; xaa; x55; x01; x02; x03; x05; xaa; x55; x01; x02; x03; x05]) as H.
  vm_compute in H |- *.
  destruct H as (_ & _ & Hsorted & _).
  repeat split; try reflexivity. exact Hsorted.
Defined.
